(** * OpenClaw Kanban: the task store of [server.js]

    A shallow embedding of the request handlers of [src/server.js]
    (validation, create, update, move, delete, bulk create, clear done,
    list and statistics) together with the properties of the task store
    that follow from the code.

    Conventions of the embedding.
    - A JSON value is a [jsval]; a JavaScript object is a finite map from
      property names to values ([gmap string jsval]).  Reading a property
      returns an [option]: [None] is JavaScript's [undefined].  A property
      written with the value [undefined] is modelled as an absent property
      (both read back as [undefined] and both are dropped by
      [JSON.stringify]).
    - Numbers are the integers ([Z]); text is [string], whose characters are
      bytes, so [trim] and [toLowerCase] are the ASCII ones.
    - A handler is a computation in a state-and-exception monad over the
      [World]: the in-memory [tasks] array, the content of the tasks file,
      the log of broadcast messages, and the counters of the calls made to
      the clock, to the id generator and to the file system.  What those
      calls answer is given by an [Env].  Handlers run to completion one at
      a time. *)

From stdpp Require Import gmap strings list pretty.
From Stdlib Require Import ZArith Lia Sorted Ascii.

#[local] Set Warnings "-register-all".
#[local] Open Scope string_scope.
#[local] Open Scope list_scope.
#[local] Open Scope Z_scope.

(** ** JavaScript values *)

Inductive jsval :=
| JNull
| JBool (b : bool)
| JNum (n : Z)
| JStr (s : string)
| JArr (l : list jsval)
| JObj (m : gmap string jsval).

(** A JavaScript object; [o !! k = None] reads as [o.k === undefined]. *)
Abbreviation obj := (gmap string jsval).

(** What a [throw] carries. *)
Inductive exn :=
| TypeError (msg : string)
| IOError.

Inductive result (A : Type) :=
| Ok (a : A)
| Throw (e : exn).
Arguments Ok {A} a.
Arguments Throw {A} e.

#[global] Instance result_ret : MRet result := fun A a => Ok a.
#[global] Instance result_bind : MBind result := fun A B k r =>
  match r with
  | Ok a => k a
  | Throw e => Throw e
  end.

(** *** Coercions and built-ins used by the server *)

(** [!!v]: everything is truthy except [undefined], [null], [false], [0]
    and the empty string. *)
Definition truthy (v : option jsval) : bool :=
  match v with
  | None | Some JNull => false
  | Some (JBool b) => b
  | Some (JNum n) => negb (n =? 0)%Z
  | Some (JStr s) => negb (String.eqb s "")
  | Some (JArr _) | Some (JObj _) => true
  end.

(** [v || d], the idiom that fills in defaults. *)
Definition or_else (v : option jsval) (d : jsval) : jsval :=
  match v with
  | Some x => if truthy v then x else d
  | None => d
  end.

(** [v !== undefined]. *)
Definition defined (v : option jsval) : bool :=
  match v with Some _ => true | None => false end.

(** [typeof v === 'string']. *)
Definition typeof_string (v : option jsval) : bool :=
  match v with Some (JStr _) => true | _ => false end.

(** [v === s] for a string [s]: strict equality never coerces. *)
Definition strict_eq_str (v : option jsval) (s : string) : bool :=
  match v with Some (JStr x) => String.eqb x s | _ => false end.

(** [arr.includes(v)] for an array [arr] of strings. *)
Definition includes_str (arr : list string) (v : option jsval) : bool :=
  existsb (strict_eq_str v) arr.

(** [Array.isArray(v)]. *)
Definition isArray (v : option jsval) : bool :=
  match v with Some (JArr _) => true | _ => false end.

(** [arr.join(sep)] on strings. *)
Fixpoint join (sep : string) (l : list string) : string :=
  match l with
  | [] => ""
  | [x] => x
  | x :: r => x +:+ sep +:+ join sep r
  end.

(** [ToString]; an array prints its elements separated by commas, with
    [null] printed as nothing (integers print in decimal below 10^21). *)
Fixpoint to_string (v : jsval) : string :=
  match v with
  | JNull => "null"
  | JBool true => "true"
  | JBool false => "false"
  | JNum n => pretty n
  | JStr s => s
  | JArr l =>
      join "," ((fix elems (l : list jsval) : list string :=
                   match l with
                   | [] => []
                   | JNull :: r => "" :: elems r
                   | x :: r => to_string x :: elems r
                   end) l)
  | JObj _ => "[object Object]"
  end.

(** [ToPropertyKey], as in [table[v]]. *)
Definition prop_key (v : option jsval) : string :=
  match v with
  | None => "undefined"
  | Some x => to_string x
  end.

(** [data.k] for one of the property names the server reads ([title],
    [status], [tasks], ...): [null] has no properties, an object answers
    with its own property, and strings, numbers, booleans and arrays have
    none of these names. *)
Definition prop (data : jsval) (k : string) : result (option jsval) :=
  match data with
  | JNull => Throw (TypeError ("Cannot read properties of null (reading '" +:+ k +:+ "')"))
  | JObj m => Ok (m !! k)
  | _ => Ok None
  end.

Definition is_ws (a : ascii) : bool :=
  let n := nat_of_ascii a in
  ((9 <=? n)%nat && (n <=? 13)%nat) || (n =? 32)%nat.

Fixpoint trim_start (s : string) : string :=
  match s with
  | String a r => if is_ws a then trim_start r else s
  | EmptyString => EmptyString
  end.

(** [s.trim()]. *)
Definition trim (s : string) : string :=
  String.rev (trim_start (String.rev (trim_start s))).

Definition lower_ascii (a : ascii) : ascii :=
  let n := nat_of_ascii a in
  if ((65 <=? n)%nat && (n <=? 90)%nat)%bool then ascii_of_nat (n + 32) else a.

(** [s.toLowerCase()]. *)
Fixpoint toLowerCase (s : string) : string :=
  match s with
  | String a r => String (lower_ascii a) (toLowerCase r)
  | EmptyString => EmptyString
  end.

(** [hay.includes(needle)]. *)
Fixpoint includes (hay needle : string) : bool :=
  String.prefix needle hay ||
  match hay with
  | String _ r => includes r needle
  | EmptyString => false
  end.

(** [v.trim()] on an arbitrary value: only strings have the method. *)
Definition call_trim (v : option jsval) : result string :=
  match v with
  | Some (JStr s) => Ok (trim s)
  | _ => Throw (TypeError "trim is not a function")
  end.

(** [v.toLowerCase()] on an arbitrary value. *)
Definition call_toLowerCase (v : option jsval) : result string :=
  match v with
  | Some (JStr s) => Ok (toLowerCase s)
  | _ => Throw (TypeError "toLowerCase is not a function")
  end.

(** [v.every(tag => typeof tag === 'string')] on an arbitrary value: only
    arrays have the method. *)
Definition call_every_string (v : option jsval) : result bool :=
  match v with
  | Some (JArr l) => Ok (forallb (fun x => typeof_string (Some x)) l)
  | _ => Throw (TypeError "every is not a function")
  end.

(** *** Dates

    [new Date(t).toISOString()] for a time value [t] in milliseconds since
    the epoch, following the definitions of ECMAScript ([Day],
    [DayFromYear], [YearFromTime], [MonthFromTime], [DateFromTime]) for the
    years 1970 to 9999, where the year prints with four digits. *)

Definition msPerDay : Z := 86400000.

Definition DayFromYear (y : Z) : Z :=
  365 * (y - 1970) + (y - 1969) / 4 - (y - 1901) / 100 + (y - 1601) / 400.

(** The largest year starting on or before day [d], searched upwards. *)
Fixpoint year_from (fuel : nat) (y d : Z) : Z :=
  match fuel with
  | O => y
  | S fuel' => if DayFromYear (y + 1) <=? d then year_from fuel' (y + 1) d else y
  end.

Definition YearFromDay (d : Z) : Z := year_from (Z.to_nat 8029) 1970 d.

Definition DaysInYear (y : Z) : Z := DayFromYear (y + 1) - DayFromYear y.

(** [MonthFromTime], from the day within the year and the leap day [lp]. *)
Definition MonthFromDay (lp dy : Z) : Z :=
  if dy <? 31 then 0 else if dy <? 59 + lp then 1 else if dy <? 90 + lp then 2
  else if dy <? 120 + lp then 3 else if dy <? 151 + lp then 4
  else if dy <? 181 + lp then 5 else if dy <? 212 + lp then 6
  else if dy <? 243 + lp then 7 else if dy <? 273 + lp then 8
  else if dy <? 304 + lp then 9 else if dy <? 334 + lp then 10 else 11.

(** [DateFromTime]. *)
Definition DateFromDay (lp dy : Z) : Z :=
  match MonthFromDay lp dy with
  | 0 => dy + 1
  | 1 => dy - 30
  | 2 => dy - 58 - lp
  | 3 => dy - 89 - lp
  | 4 => dy - 119 - lp
  | 5 => dy - 150 - lp
  | 6 => dy - 180 - lp
  | 7 => dy - 211 - lp
  | 8 => dy - 242 - lp
  | 9 => dy - 272 - lp
  | 10 => dy - 303 - lp
  | _ => dy - 333 - lp
  end.

Definition digit (n : Z) : ascii := ascii_of_nat (48 + Z.to_nat n).

(** [n] written with exactly [k] decimal digits. *)
Fixpoint pad (k : nat) (n : Z) : string :=
  match k with
  | O => ""
  | S k' => String (digit (n / 10 ^ Z.of_nat k')) (pad k' (n mod 10 ^ Z.of_nat k'))
  end.

Definition toISOString (t : Z) : string :=
  let d := t / msPerDay in
  let r := t mod msPerDay in
  let y := YearFromDay d in
  let lp := DaysInYear y - 365 in
  let dy := d - DayFromYear y in
  pad 4 y +:+ "-" +:+ pad 2 (MonthFromDay lp dy + 1) +:+ "-" +:+
  pad 2 (DateFromDay lp dy) +:+ "T" +:+ pad 2 (r / 3600000) +:+ ":" +:+
  pad 2 (r / 60000 mod 60) +:+ ":" +:+ pad 2 (r / 1000 mod 60) +:+ "." +:+
  pad 3 (r mod 1000) +:+ "Z".

(** [v >= s] where [s] is a string that does not read as a number (an ISO
    timestamp never does): two strings compare by their characters, an
    array or object is first printed, and anything else is compared as a
    number with [NaN], which is never true. *)
Definition ge_str (v : option jsval) (s : string) : bool :=
  match v with
  | Some (JStr x) => String.leb s x
  | Some (JArr l) => String.leb s (to_string (JArr l))
  | Some (JObj m) => String.leb s (to_string (JObj m))
  | _ => false
  end.

(** ** The server state and its environment *)

(** A message handed to [broadcastToClients]. *)
Record event := Event {
  ev_type : string;
  ev_task : obj;
  ev_timestamp : option jsval
}.

Record World := mkWorld {
  tasks : list obj;            (* let tasks = [] *)
  disk : option (list obj);    (* content of data/tasks.json, if it exists *)
  sent : list event;           (* messages broadcast so far, oldest first *)
  ticks : nat;                 (* readings of the clock so far *)
  draws : nat;                 (* ids generated so far *)
  writes : nat                 (* attempts to write the file so far *)
}.

(** What the outside answers: the [n]-th reading of the clock (in
    milliseconds), the [n]-th id of [uuidv4], whether the [n]-th write of
    the tasks file succeeds, and [StringToNumber] ([None] is [NaN]). *)
Record Env := mkEnv {
  clock : nat -> Z;
  uuid : nat -> string;
  write_ok : nat -> bool;
  str_to_num : string -> option Z
}.

Definition M (A : Type) : Type := World -> result A * World.

#[global] Instance M_ret : MRet M := fun A a w => (Ok a, w).
#[global] Instance M_bind : MBind M := fun A B k m w =>
  match m w with
  | (Ok a, w') => k a w'
  | (Throw e, w') => (Throw e, w')
  end.

Definition lift {A} (r : result A) : M A := fun w => (r, w).

Definition get_tasks : M (list obj) := fun w => (Ok (tasks w), w).

Definition set_tasks (l : list obj) : M unit := fun w =>
  (Ok tt, mkWorld l (disk w) (sent w) (ticks w) (draws w) (writes w)).

(** [VALID_STATUSES] and [VALID_PRIORITIES]. *)
Definition VALID_STATUSES : list string :=
  ["backlog"; "todo"; "in_progress"; "review"; "done"].
Definition VALID_PRIORITIES : list string :=
  ["low"; "medium"; "high"; "critical"].

(** A JSON response: status code and body. *)
Inductive payload :=
| PNone
| PError (msg : string)
| PTask (t : obj)
| PTasks (l : list obj)
| PStats (total : nat) (byStatus byPriority : gmap string (option nat))
         (recentlyCompleted : nat)
| PBulk (created : list obj) (errors : option (list string))
| PDeleted (n : nat).

Record response := Response { code : nat; rbody : payload }.

(** The [catch] of every handler: log, answer 500, keep what was done. *)
Definition try_catch (h : M response) (w : World) : response * World :=
  match h w with
  | (Ok r, w') => (r, w')
  | (Throw _, w') => (Response 500 (PError "Internal server error"), w')
  end.

Section Server.
Context (env : Env).

(** [new Date().toISOString()]. *)
Definition now_iso : M string := fun w =>
  (Ok (toISOString (clock env (ticks w))),
   mkWorld (tasks w) (disk w) (sent w) (S (ticks w)) (draws w) (writes w)).

(** [Date.now()]. *)
Definition date_now : M Z := fun w =>
  (Ok (clock env (ticks w)),
   mkWorld (tasks w) (disk w) (sent w) (S (ticks w)) (draws w) (writes w)).

Definition uuidv4 : M string := fun w =>
  (Ok (uuid env (draws w)),
   mkWorld (tasks w) (disk w) (sent w) (ticks w) (S (draws w)) (writes w)).

(** [saveTasks]: the whole array goes to the file, or the error is
    rethrown. *)
Definition saveTasks : M unit := fun w =>
  if write_ok env (writes w)
  then (Ok tt, mkWorld (tasks w) (Some (tasks w)) (sent w) (ticks w) (draws w) (S (writes w)))
  else (Throw IOError, mkWorld (tasks w) (disk w) (sent w) (ticks w) (draws w) (S (writes w))).

Definition broadcastToClients (e : event) : M unit := fun w =>
  (Ok tt, mkWorld (tasks w) (disk w) (sent w ++ [e]) (ticks w) (draws w) (writes w)).

(** ** Validation *)

(** [if (c) errors.push(msg)]. *)
Definition push_if (c : bool) (msg : string) (errors : list string) : list string :=
  if c then errors ++ [msg] else errors.

Definition validateTaskInput (data : jsval) (isUpdate : bool) : result (list string) :=
  let errors := [] in
  title ← prop data "title";
  let errors := push_if (negb isUpdate && negb (truthy title))
                  "Title is required" errors in
  let errors := push_if (defined title && negb (typeof_string title))
                  "Title must be a string" errors in
  empty ← (if defined title
           then t ← call_trim title; mret (String.length t =? 0)%nat
           else mret false);
  let errors := push_if empty "Title cannot be empty" errors in
  status ← prop data "status";
  let errors := push_if (defined status && negb (includes_str VALID_STATUSES status))
                  ("Status must be one of: " +:+ join ", " VALID_STATUSES) errors in
  priority ← prop data "priority";
  let errors := push_if (defined priority && negb (includes_str VALID_PRIORITIES priority))
                  ("Priority must be one of: " +:+ join ", " VALID_PRIORITIES) errors in
  tags ← prop data "tags";
  let errors := push_if (defined tags && negb (isArray tags))
                  "Tags must be an array" errors in
  bad ← (if defined tags
         then all ← call_every_string tags; mret (negb all)
         else mret false);
  let errors := push_if bad "All tags must be strings" errors in
  mret errors.

(** ** Handlers *)

Definition bad_request (msg : string) : response := Response 400 (PError msg).
Definition not_found : response := Response 404 (PError "Task not found").

(** The object literal of a new task, shared by create and bulk create;
    [order] defaults to 0 only when it is absent. *)
Definition newTask (id now : string) (data : jsval) : result obj :=
  title ← prop data "title";
  t ← call_trim title;
  description ← prop data "description";
  status ← prop data "status";
  priority ← prop data "priority";
  tags ← prop data "tags";
  assignee ← prop data "assignee";
  order ← prop data "order";
  mret (<["id" := JStr id]> (
        <["title" := JStr t]> (
        <["description" := or_else description (JStr "")]> (
        <["status" := or_else status (JStr "backlog")]> (
        <["priority" := or_else priority (JStr "medium")]> (
        <["tags" := or_else tags (JArr [])]> (
        <["assignee" := or_else assignee (JStr "")]> (
        <["created_at" := JStr now]> (
        <["updated_at" := JStr now]> (
        <["order" := match order with Some v => v | None => JNum 0 end]>
        (∅ : obj))))))))))).

(** POST /api/tasks *)
Definition createTask (body : obj) : M response :=
  errors ← lift (validateTaskInput (JObj body) false);
  if (0 <? length errors)%nat then mret (bad_request (join "; " errors))
  else
    now ← now_iso;
    id ← uuidv4;
    task ← lift (newTask id now (JObj body));
    tasks ← get_tasks;
    _ ← set_tasks (tasks ++ [task]);
    _ ← saveTasks;
    _ ← broadcastToClients (Event "task_created" task (Some (JStr now)));
    mret (Response 201 (PTask task)).

(** [arr.findIndex(p)], with the element found; [None] is [-1]. *)
Fixpoint findIndex {A} (p : A -> bool) (l : list A) : option (nat * A) :=
  match l with
  | [] => None
  | x :: r =>
      if p x then Some (O, x)
      else match findIndex p r with
           | Some (i, y) => Some (S i, y)
           | None => None
           end
  end.

(** [t => t.id === id]. *)
Definition has_id (id : string) (t : obj) : bool := strict_eq_str (t !! "id") id.

(** [{ ..., k: v }] where [v] may be [undefined]. *)
Definition set_opt (k : string) (v : option jsval) (o : obj) : obj :=
  match v with
  | Some x => <[k := x]> o
  | None => delete k o
  end.

(** [arr.forEach(f)]. *)
Fixpoint forEach {A} (f : A -> M unit) (l : list A) : M unit :=
  match l with
  | [] => mret tt
  | x :: r => _ ← f x; forEach f r
  end.

(** GET /api/tasks/:id *)
Definition getTask (id : string) : M response :=
  tasks ← get_tasks;
  match findIndex (has_id id) tasks with
  | None => mret not_found
  | Some (_, task) => mret (Response 200 (PTask task))
  end.

(** PATCH /api/tasks/:id *)
Definition updateTask (id : string) (body : obj) : M response :=
  tasks ← get_tasks;
  match findIndex (has_id id) tasks with
  | None => mret not_found
  | Some (taskIndex, old) =>
      errors ← lift (validateTaskInput (JObj body) true);
      if (0 <? length errors)%nat then mret (bad_request (join "; " errors))
      else
        now ← now_iso;
        let updatedTask :=
          <["updated_at" := JStr now]> (
          set_opt "created_at" (old !! "created_at") (
          set_opt "id" (old !! "id") (body ∪ old))) in
        updatedTask ← (if defined (body !! "title")
                       then t ← lift (call_trim (body !! "title"));
                            mret (<["title" := JStr t]> updatedTask)
                       else mret updatedTask);
        _ ← set_tasks (<[taskIndex := updatedTask]> tasks);
        _ ← saveTasks;
        _ ← broadcastToClients
              (Event "task_updated" updatedTask (updatedTask !! "updated_at"));
        mret (Response 200 (PTask updatedTask))
  end.

(** DELETE /api/tasks/:id *)
Definition deleteTask (id : string) : M response :=
  tasks ← get_tasks;
  match findIndex (has_id id) tasks with
  | None => mret not_found
  | Some (taskIndex, deletedTask) =>
      _ ← set_tasks (take taskIndex tasks ++ drop (S taskIndex) tasks);
      _ ← saveTasks;
      now ← now_iso;
      _ ← broadcastToClients (Event "task_deleted" deletedTask (Some (JStr now)));
      mret (Response 204 PNone)
  end.

(** POST /api/tasks/:id/move *)
Definition moveTask (id : string) (body : obj) : M response :=
  tasks ← get_tasks;
  match findIndex (has_id id) tasks with
  | None => mret not_found
  | Some (taskIndex, old) =>
      if negb (truthy (body !! "status")) then mret (bad_request "Status is required")
      else if negb (includes_str VALID_STATUSES (body !! "status"))
      then mret (bad_request ("Status must be one of: " +:+ join ", " VALID_STATUSES))
      else
        now ← now_iso;
        let updatedTask :=
          <["updated_at" := JStr now]> (
          set_opt "order" (match body !! "order" with
                           | Some v => Some v
                           | None => old !! "order"
                           end) (
          set_opt "status" (body !! "status") old)) in
        _ ← set_tasks (<[taskIndex := updatedTask]> tasks);
        _ ← saveTasks;
        _ ← broadcastToClients
              (Event "task_moved" updatedTask (updatedTask !! "updated_at"));
        mret (Response 200 (PTask updatedTask))
  end.

(** [table[k]++] on a table of counters; [None] is [NaN], which is what
    incrementing a missing entry leaves behind ([__proto__] cannot be
    assigned a number). *)
Definition incr (k : string) (table : gmap string (option nat)) : gmap string (option nat) :=
  if String.eqb k "__proto__" then table
  else <[k := match table !! k with
              | Some (Some n) => Some (S n)
              | _ => None
              end]> table.

(** The body of the [forEach] of the statistics, on the three counters. *)
Definition stats_step (oneDayAgo : string)
    (acc : gmap string (option nat) * gmap string (option nat) * nat) (task : obj)
    : gmap string (option nat) * gmap string (option nat) * nat :=
  let '(byStatus, byPriority, recentlyCompleted) := acc in
  (incr (prop_key (task !! "status")) byStatus,
   incr (prop_key (task !! "priority")) byPriority,
   if strict_eq_str (task !! "status") "done" && ge_str (task !! "updated_at") oneDayAgo
   then S recentlyCompleted else recentlyCompleted).

Definition zero_counters (keys : list string) : gmap string (option nat) :=
  list_to_map (map (fun k => (k, Some O)) keys).

(** GET /api/stats *)
Definition getStats : M response :=
  let byStatus := zero_counters ["backlog"; "todo"; "in_progress"; "review"; "done"] in
  let byPriority := zero_counters ["low"; "medium"; "high"; "critical"] in
  now ← date_now;
  let oneDayAgo := toISOString (now - 24 * 60 * 60 * 1000) in
  tasks ← get_tasks;
  let '(byStatus, byPriority, recentlyCompleted) :=
    fold_left (stats_step oneDayAgo) tasks (byStatus, byPriority, O) in
  mret (Response 200 (PStats (length tasks) byStatus byPriority recentlyCompleted)).

(** [s] between double quotes. *)
Definition quoted (s : string) : string :=
  String (ascii_of_nat 34) s +:+ String (ascii_of_nat 34) "".

(** The loop of bulk create: [i] is the index of the next element. *)
Fixpoint bulk_loop (i : nat) (elems : list jsval) (createdTasks : list obj)
    (errors : list string) : M (list obj * list string) :=
  match elems with
  | [] => mret (createdTasks, errors)
  | taskData :: rest =>
      validationErrors ← lift (validateTaskInput taskData false);
      if (0 <? length validationErrors)%nat
      then bulk_loop (S i) rest createdTasks
             (errors ++ ["Task " +:+ pretty i +:+ ": " +:+ join "; " validationErrors])
      else
        now ← now_iso;
        id ← uuidv4;
        task ← lift (newTask id now taskData);
        tasks ← get_tasks;
        _ ← set_tasks (tasks ++ [task]);
        bulk_loop (S i) rest (createdTasks ++ [task]) errors
  end.

(** POST /api/tasks/bulk *)
Definition bulkCreate (body : obj) : M response :=
  if negb (truthy (body !! "tasks")) || negb (isArray (body !! "tasks"))
  then mret (bad_request ("Body must contain a " +:+ quoted "tasks" +:+ " array"))
  else
    let elems := match body !! "tasks" with Some (JArr l) => l | _ => [] end in
    '(createdTasks, errors) ← bulk_loop O elems [] [];
    if (0 <? length errors)%nat && (length createdTasks =? 0)%nat
    then mret (bad_request (join "; " errors))
    else
      _ ← saveTasks;
      _ ← forEach (fun task =>
             broadcastToClients (Event "task_created" task (task !! "created_at")))
           createdTasks;
      mret (Response 201
              (PBulk createdTasks (if (0 <? length errors)%nat then Some errors else None))).

(** DELETE /api/tasks?status=done *)
Definition clearDone (status : option string) : M response :=
  if negb (match status with Some s => String.eqb s "done" | None => false end)
  then mret (bad_request "Only status=done is supported for bulk delete")
  else
    tasks ← get_tasks;
    let initialCount := length tasks in
    let deletedTasks := List.filter (fun t => strict_eq_str (t !! "status") "done") tasks in
    let remaining := List.filter (fun t => negb (strict_eq_str (t !! "status") "done")) tasks in
    _ ← set_tasks remaining;
    let deletedCount := (initialCount - length remaining)%nat in
    _ ← saveTasks;
    _ ← forEach (fun task =>
           now ← now_iso;
           broadcastToClients (Event "task_deleted" task (Some (JStr now))))
         deletedTasks;
    mret (Response 200 (PDeleted deletedCount)).

(** *** Listing *)

(** The query string of GET /api/tasks: each parameter absent or a text. *)
Record query := Query {
  q_status : option string;
  q_priority : option string;
  q_assignee : option string;
  q_search : option string
}.

(** [if (q) filtered = filtered.filter(p)]: an empty parameter is falsy. *)
Definition filter_if (q : option string) (p : string -> obj -> bool)
    (filtered : list obj) : list obj :=
  match q with
  | Some s => if truthy (Some (JStr s)) then List.filter (p s) filtered else filtered
  | None => filtered
  end.

(** [arr.filter(p)] for a predicate that may throw. *)
Fixpoint filterM {A} (p : A -> result bool) (l : list A) : result (list A) :=
  match l with
  | [] => Ok []
  | x :: r =>
      keep ← p x;
      r' ← filterM p r;
      mret (if keep : bool then x :: r' else r')
  end.

(** The predicate of the search, with the short-circuit of [||]. *)
Definition search_match (searchLower : string) (task : obj) : result bool :=
  title ← call_toLowerCase (task !! "title");
  if includes title searchLower then mret true
  else
    description ← call_toLowerCase (task !! "description");
    mret (includes description searchLower).

(** [ToNumber]; [None] is [NaN]. *)
Definition to_number (v : option jsval) : option Z :=
  match v with
  | None => None
  | Some JNull => Some 0
  | Some (JBool b) => Some (if b then 1 else 0)
  | Some (JNum n) => Some n
  | Some (JStr s) => str_to_num env s
  | Some x => str_to_num env (to_string x)
  end.

(** [a - b] on numbers that may be [NaN]. *)
Definition num_sub (a b : option Z) : option Z :=
  match a, b with
  | Some x, Some y => Some (x - y)
  | _, _ => None
  end.

Definition statusOrder : gmap string Z :=
  list_to_map [("backlog", 0); ("todo", 1); ("in_progress", 2); ("review", 3); ("done", 4)].

(** The comparator handed to [sort]. *)
Definition compareTasks (a b : obj) : option Z :=
  let statusDiff := num_sub (statusOrder !! prop_key (a !! "status"))
                            (statusOrder !! prop_key (b !! "status")) in
  match statusDiff with
  | Some 0 => num_sub (to_number (a !! "order")) (to_number (b !! "order"))
  | _ => statusDiff
  end.

(** [arr.sort(cmp)]: a stable sort, here by insertion; [x] moves behind
    [y] only when [cmp(x, y) > 0], and a [NaN] from the comparator counts
    as 0.  Every stable sort returns this list when the comparator is
    consistent. *)
Definition comes_after {A} (cmp : A -> A -> option Z) (x y : A) : bool :=
  match cmp x y with
  | Some z => 0 <? z
  | None => false
  end.

Fixpoint sort_insert {A} (cmp : A -> A -> option Z) (x : A) (l : list A) : list A :=
  match l with
  | [] => [x]
  | y :: r => if comes_after cmp x y then y :: sort_insert cmp x r else x :: l
  end.

Definition js_sort {A} (cmp : A -> A -> option Z) (l : list A) : list A :=
  foldr (sort_insert cmp) [] l.

(** GET /api/tasks *)
Definition listTasks (q : query) : M response :=
  tasks ← get_tasks;
  let filtered := tasks in
  let filtered := filter_if (q_status q)
                    (fun s task => strict_eq_str (task !! "status") s) filtered in
  let filtered := filter_if (q_priority q)
                    (fun s task => strict_eq_str (task !! "priority") s) filtered in
  let filtered := filter_if (q_assignee q)
                    (fun s task => strict_eq_str (task !! "assignee") s) filtered in
  filtered ← (match q_search q with
              | Some s =>
                  if truthy (Some (JStr s))
                  then lift (filterM (search_match (toLowerCase s)) filtered)
                  else mret filtered
              | None => mret filtered
              end);
  mret (Response 200 (PTasks (js_sort compareTasks filtered))).

End Server.

(** ** Requests *)

Inductive request :=
| ListTasks (q : query)
| GetTask (id : string)
| CreateTask (body : obj)
| UpdateTask (id : string) (body : obj)
| DeleteTask (id : string)
| MoveTask (id : string) (body : obj)
| GetStats
| BulkCreate (body : obj)
| ClearDone (status : option string).

Definition handler (env : Env) (r : request) : M response :=
  match r with
  | ListTasks q => listTasks env q
  | GetTask id => getTask id
  | CreateTask body => createTask env body
  | UpdateTask id body => updateTask env id body
  | DeleteTask id => deleteTask env id
  | MoveTask id body => moveTask env id body
  | GetStats => getStats env
  | BulkCreate body => bulkCreate env body
  | ClearDone status => clearDone env status
  end.

(** One request served: the response sent and the state left behind. *)
Definition serve (env : Env) (r : request) (w : World) : response * World :=
  try_catch (handler env r) w.

(** ** Vocabulary of the properties *)

(** The three single-task mutations. *)
Definition single_mutation (r : request) : bool :=
  match r with
  | CreateTask _ | UpdateTask _ _ | MoveTask _ _ => true
  | _ => false
  end.

(** The request failed with a validation error (400) or a not-found error
    (404). *)
Definition rejected (resp : response) : Prop :=
  code resp = 400%nat \/ code resp = 404%nat.

(** [v] is supplied and is not one of [allowed]. *)
Definition outside (allowed : list string) (v : option jsval) : bool :=
  defined v && negb (includes_str allowed v).

(** The request carries a [status] or [priority] outside its enumeration
    (move only reads [status]). *)
Definition bad_enum (r : request) : bool :=
  match r with
  | CreateTask b | UpdateTask _ b =>
      outside VALID_STATUSES (b !! "status") || outside VALID_PRIORITIES (b !! "priority")
  | MoveTask _ b => outside VALID_STATUSES (b !! "status")
  | _ => false
  end.

(** *** Sample data *)

Definition sample_env : Env :=
  mkEnv (fun n => 1770396075591 + 1000 * Z.of_nat n)
        (fun n => "task-" +:+ pretty n)
        (fun _ => true)
        (fun _ => None).

Definition sample_task (id status : string) (order : Z) : obj :=
  <["id" := JStr id]> (
  <["title" := JStr "Write report"]> (
  <["description" := JStr ""]> (
  <["status" := JStr status]> (
  <["priority" := JStr "medium"]> (
  <["tags" := JArr []]> (
  <["assignee" := JStr ""]> (
  <["created_at" := JStr "2026-02-01T09:00:00.000Z"]> (
  <["updated_at" := JStr "2026-02-01T09:00:00.000Z"]> (
  <["order" := JNum order]> (∅ : obj)))))))))).

Definition sample_world : World :=
  mkWorld [sample_task "a" "todo" 2; sample_task "b" "done" 1; sample_task "c" "todo" 0]
          None [] 0 0 0.

(** The record an update leaves in place of [old], read off the handler. *)
Definition update_record (now : string) (old body : obj) : obj :=
  let updatedTask :=
    <["updated_at" := JStr now]> (
    set_opt "created_at" (old !! "created_at") (
    set_opt "id" (old !! "id") (body ∪ old))) in
  match body !! "title" with
  | Some (JStr s) => <["title" := JStr (trim s)]> updatedTask
  | _ => updatedTask
  end.

(** The record a move leaves in place of [old]. *)
Definition move_record (now : string) (old body : obj) : obj :=
  <["updated_at" := JStr now]> (
  set_opt "order" (match body !! "order" with
                   | Some v => Some v
                   | None => old !! "order"
                   end) (
  set_opt "status" (body !! "status") old)).

(** The rules of the validator as a table: whether the candidate violates
    the rule, and the message of the rule. *)
Definition rules (data : obj) (isUpdate : bool) : list (bool * string) :=
  [ (negb isUpdate && negb (truthy (data !! "title")), "Title is required");
    (defined (data !! "title") && negb (typeof_string (data !! "title")),
     "Title must be a string");
    (match data !! "title" with
     | Some (JStr s) => (String.length (trim s) =? 0)%nat
     | _ => false
     end, "Title cannot be empty");
    (outside VALID_STATUSES (data !! "status"),
     "Status must be one of: backlog, todo, in_progress, review, done");
    (outside VALID_PRIORITIES (data !! "priority"),
     "Priority must be one of: low, medium, high, critical");
    (defined (data !! "tags") && negb (isArray (data !! "tags")),
     "Tags must be an array");
    (match data !! "tags" with
     | Some (JArr l) => negb (forallb (fun x => typeof_string (Some x)) l)
     | _ => false
     end, "All tags must be strings") ].

(** One message for each violated rule, in the order of the rules. *)
Definition violations (data : obj) (isUpdate : bool) : list string :=
  map snd (List.filter fst (rules data isUpdate)).

(** The candidate has a [title] that is not a text, or [tags] that are not
    an array. *)
Definition ill_typed (data : obj) : bool :=
  (defined (data !! "title") && negb (typeof_string (data !! "title"))) ||
  (defined (data !! "tags") && negb (isArray (data !! "tags"))).

(** The operations that only read the store. *)
Definition read_only (r : request) : bool :=
  match r with
  | ListTasks _ | GetTask _ | GetStats => true
  | _ => false
  end.

(** The messages the validator can push. *)
Definition messages : list string :=
  [ "Title is required"; "Title must be a string"; "Title cannot be empty";
    "Status must be one of: backlog, todo, in_progress, review, done";
    "Priority must be one of: low, medium, high, critical";
    "Tags must be an array"; "All tags must be strings" ].

(** *** Bulk create in closed form *)

(** The candidate passes validation in create mode. *)
Definition passes (e : jsval) : bool :=
  match validateTaskInput e false with
  | Ok [] => true
  | _ => false
  end.

(** The validator throws on the candidate. *)
Definition throws (e : jsval) : bool :=
  match validateTaskInput e false with
  | Throw _ => true
  | Ok _ => false
  end.

(** The tasks the loop creates from [elems] when the clock has been read
    [t] times and [d] ids have been drawn: one per passing element, each
    with the next reading of the clock and the next id. *)
Fixpoint bulk_created (env : Env) (t d : nat) (elems : list jsval) : list obj :=
  match elems with
  | [] => []
  | e :: rest =>
      if passes e then
        match newTask (uuid env d) (toISOString (clock env t)) e with
        | Ok task => task :: bulk_created env (S t) (S d) rest
        | Throw _ => []
        end
      else if throws e then []
      else bulk_created env t d rest
  end.

(** The index-tagged errors the loop records, from index [i] on. *)
Fixpoint bulk_errors (i : nat) (elems : list jsval) : list string :=
  match elems with
  | [] => []
  | e :: rest =>
      match validateTaskInput e false with
      | Ok [] => bulk_errors (S i) rest
      | Ok errs => ("Task " +:+ pretty i +:+ ": " +:+ join "; " errs) :: bulk_errors (S i) rest
      | Throw _ => []
      end
  end.

(** [t.status === 'done']. *)
Definition is_done (t : obj) : bool := strict_eq_str (t !! "status") "done".

(** The message broadcast for a task cleared at time [now]. *)
Definition deleted_event (now : string) (task : obj) : event :=
  Event "task_deleted" task (Some (JStr now)).

Definition five_tasks : World :=
  mkWorld [sample_task "a" "done" 0; sample_task "b" "todo" 0; sample_task "c" "done" 1;
           sample_task "d" "review" 0; sample_task "e" "done" 2]
          None [] 0 0 0.

(** *** Vocabulary of the listing *)

(** The task can be ranked by the comparator: its status is one of the
    five and its order is a number. *)
Definition sortable (t : obj) : bool :=
  includes_str VALID_STATUSES (t !! "status") &&
  match t !! "order" with Some (JNum _) => true | _ => false end.

(** The task can be searched: its title and description are texts. *)
Definition searchable (t : obj) : bool :=
  typeof_string (t !! "title") && typeof_string (t !! "description").

(** A query parameter counts as supplied when it is present and not
    empty. *)
Definition supplied (q : option string) : option string :=
  match q with
  | Some s => if String.eqb s "" then None else Some s
  | None => None
  end.

(** The text under a property, for a property that holds a text. *)
Definition text_of (v : option jsval) : string :=
  match v with Some (JStr s) => s | _ => "" end.

(** [needle] occurs in [hay] when case is ignored. *)
Definition ci_includes (hay needle : string) : bool :=
  includes (toLowerCase hay) (toLowerCase needle).

(** The task satisfies every supplied filter. *)
Definition matches (q : query) (t : obj) : bool :=
  match supplied (q_status q) with
  | Some s => strict_eq_str (t !! "status") s | None => true end &&
  match supplied (q_priority q) with
  | Some s => strict_eq_str (t !! "priority") s | None => true end &&
  match supplied (q_assignee q) with
  | Some s => strict_eq_str (t !! "assignee") s | None => true end &&
  match supplied (q_search q) with
  | Some s => ci_includes (text_of (t !! "title")) s ||
              ci_includes (text_of (t !! "description")) s
  | None => true end.

(** The rank of the status in backlog < todo < in_progress < review <
    done, and the order as a number. *)
Definition rank (t : obj) : Z :=
  match statusOrder !! prop_key (t !! "status") with Some r => r | None => 0 end.
Definition order_of (t : obj) : Z :=
  match t !! "order" with Some (JNum n) => n | _ => 0 end.

(** [a] may stand before [b] in the listing. *)
Definition before (a b : obj) : Prop :=
  rank a < rank b \/ (rank a = rank b /\ order_of a <= order_of b).

Definition same_key (a b : obj) : bool :=
  (rank a =? rank b) && (order_of a =? order_of b).

Definition empty_world : World := mkWorld [] None [] 0 0 0.

Definition two_assignees : World :=
  mkWorld [<["assignee" := JStr "bob"]> (sample_task "a" "todo" 0); sample_task "b" "todo" 1]
          None [] 0 0 0.

(** The first time value of the year 10000: the times before it print
    with a year of four digits. *)
Definition maxTime : Z := 253402300800000.

(** *** Vocabulary of the statistics *)

(** The task is counted under [key] in the table of [field]: the value of
    the field, used as a property name, is [key]. *)
Definition keyed (field key : string) (t : obj) : bool :=
  String.eqb (prop_key (t !! field)) key.

(** The task counts as recently completed against the cutoff text. *)
Definition recent (cutoff : string) (t : obj) : bool :=
  is_done t && ge_str (t !! "updated_at") cutoff.

(** A done task last updated at time [t]. *)
Definition done_at (id : string) (t : Z) : obj :=
  <["updated_at" := JStr (toISOString t)]> (sample_task id "done" 0).

Definition hour : Z := 3600000.

(** A store with a task done 23 hours before the first reading of the
    sample clock, and one done 25 hours before it. *)
Definition done_world : World :=
  mkWorld [done_at "recent" (clock sample_env 0 - 23 * hour);
           done_at "old" (clock sample_env 0 - 25 * hour);
           sample_task "c" "todo" 0]
          None [] 0 0 0.

Definition done_world_stamp (t : obj) : Z :=
  if strict_eq_str (t !! "id") "recent" then clock sample_env 0 - 23 * hour
  else if strict_eq_str (t !! "id") "old" then clock sample_env 0 - 25 * hour
  else 1769936400000.

(** *** Vocabulary of the whole server *)

(** The response reports success. *)
Definition success (resp : response) : bool :=
  (code resp =? 200)%nat || (code resp =? 201)%nat || (code resp =? 204)%nat.

(** The names of the properties of a new task. *)
Definition task_fields : list string :=
  ["id"; "title"; "description"; "status"; "priority"; "tags"; "assignee";
   "created_at"; "updated_at"; "order"].

(** An environment whose disk is full: every write fails. *)
Definition failing_env : Env :=
  mkEnv (clock sample_env) (uuid sample_env) (fun _ => false) (str_to_num sample_env).

(** *** Well-formed tasks *)

(** An array of texts. *)
Definition text_array (v : option jsval) : bool :=
  match v with
  | Some (JArr l) => forallb (fun x => typeof_string (Some x)) l
  | _ => false
  end.

(** What the handlers keep true of every stored task: the ten fields are
    there, the id and the two timestamps are texts, the title is a text
    that is not empty, status and priority are of their enumerations, and
    the tags are an array of texts. *)
Definition well_formed (t : obj) : bool :=
  forallb (fun k => defined (t !! k)) task_fields &&
  typeof_string (t !! "id") &&
  typeof_string (t !! "title") && truthy (t !! "title") &&
  includes_str VALID_STATUSES (t !! "status") &&
  includes_str VALID_PRIORITIES (t !! "priority") &&
  text_array (t !! "tags") &&
  typeof_string (t !! "created_at") && typeof_string (t !! "updated_at").

(** The ids of the stored tasks, in the order of the store. *)
Definition ids (l : list obj) : list (option jsval) := map (fun t => t !! "id") l.

(** The ids that [uuidv4] has yet to answer are not in the store. *)
Definition fresh_ids (env : Env) (w : World) : Prop :=
  forall n, (draws w <= n)%nat -> Some (JStr (uuid env n)) ∉ ids (tasks w).

(** The elements of a bulk request before the first one on which the
    validator throws. *)
Fixpoint before_throw (elems : list jsval) : list jsval :=
  match elems with
  | [] => []
  | e :: rest => if throws e then [] else e :: before_throw rest
  end.

(** The defaults of a new task: the fields filled in with [||]. *)
Definition defaults : list (string * jsval) :=
  [("description", JStr ""); ("status", JStr "backlog"); ("priority", JStr "medium");
   ("tags", JArr []); ("assignee", JStr "")].

(** *** The board of a connected client ([public/app.js]) *)

(** [a === b] on values received in different messages: two arrays or
    two objects are never the same object. *)
Definition strict_eq (a b : option jsval) : bool :=
  match a, b with
  | None, None => true
  | Some JNull, Some JNull => true
  | Some (JBool x), Some (JBool y) => Bool.eqb x y
  | Some (JNum x), Some (JNum y) => (x =? y)%Z
  | Some (JStr x), Some (JStr y) => String.eqb x y
  | _, _ => false
  end.

(** [handleWebSocketMessage] on [state.tasks]; the task of a message
    sent by the server is always an object. *)
Definition handleWebSocketMessage (message : event) (state_tasks : list obj) : list obj :=
  let type := ev_type message in
  let task := ev_task message in
  if String.eqb type "task_created" then
    if existsb (fun t => strict_eq (t !! "id") (task !! "id")) state_tasks
    then state_tasks
    else state_tasks ++ [task]
  else if String.eqb type "task_updated" || String.eqb type "task_moved" then
    match findIndex (fun t => strict_eq (t !! "id") (task !! "id")) state_tasks with
    | Some (index, _) => <[index := task]> state_tasks
    | None => state_tasks
    end
  else if String.eqb type "task_deleted" then
    if truthy (task !! "id")
    then List.filter (fun t => negb (strict_eq (t !! "id") (task !! "id"))) state_tasks
    else state_tasks
  else state_tasks.

(** The board after the messages [events], received in order. *)
Definition receive (events : list event) (state_tasks : list obj) : list obj :=
  fold_left (fun board message => handleWebSocketMessage message board) events state_tasks.

(** The messages a request added to the log. *)
Definition broadcast_by (env : Env) (r : request) (w : World) : list event :=
  drop (length (sent w)) (sent (serve env r w).2).

(** *** Start-up *)

(** [loadTasks]: the tasks of the file when it is there; otherwise an
    empty store, written to the file at once. *)
Definition loadTasks (env : Env) : M unit :=
  fun w =>
    match disk w with
    | Some l => set_tasks l w
    | None => (_ ← set_tasks []; saveTasks env) w
    end.

(** *** Vocabulary of the round trips *)

(** The id of the task is a text that is not empty. *)
Definition text_id (t : obj) : bool :=
  typeof_string (t !! "id") && truthy (t !! "id").

(** The environment in which every write of the file succeeds, all else
    being equal. *)
Definition writable (env : Env) : Env :=
  mkEnv (clock env) (uuid env) (fun _ => true) (str_to_num env).

(** The process stopped and started again: [let tasks = []], with the
    file as it was left. *)
Definition restart (w : World) : World :=
  mkWorld [] (disk w) (sent w) (ticks w) (draws w) (writes w).

(** The query without its search. *)
Definition without_search (q : query) : query :=
  Query (q_status q) (q_priority q) (q_assignee q) None.

(** A task whose description is a number, as create accepts it. *)
Definition numbered_world : World :=
  mkWorld [<["description" := JNum 5]> (sample_task "a" "todo" 0)] None [] 0 0 0.

(** * Properties *)

#[local] Arguments includes_str : simpl never.
#[local] Arguments join : simpl never.
#[local] Arguments toISOString : simpl never.
#[local] Arguments validateTaskInput : simpl never.
#[local] Arguments newTask : simpl never.

(** Unfolds the monad and the primitive operations of a handler. *)
Ltac run :=
  unfold serve, try_catch, handler, createTask, updateTask, moveTask,
    deleteTask, getTask in *;
  unfold mbind, M_bind, mret, M_ret, lift,
    get_tasks, set_tasks, now_iso, date_now, uuidv4, saveTasks,
    broadcastToClients, bad_request, not_found in *;
  simpl in *.

(** ** The validator *)

(** On an object whose title is a text or absent and whose tags are an
    array or absent, the validator returns one message per violated
    rule. *)
Lemma validate_well_typed (data : obj) isUpdate :
  ill_typed data = false ->
  validateTaskInput (JObj data) isUpdate = Ok (violations data isUpdate).
Proof.
  unfold ill_typed, validateTaskInput, violations, rules, outside. simpl.
  intros H. apply orb_false_elim in H as [Ht Hg].
  destruct (data !! "title") as [[| | | s | |]|]; try discriminate;
  destruct (data !! "tags") as [[| | | | l |]|]; try discriminate; simpl;
  unfold push_if;
  repeat match goal with
         | |- context [if ?c then _ else _] => destruct c
         end; reflexivity.
Qed.

(** Otherwise it throws: the checks that follow the type checks call
    [trim] and [every] on the value whatever its type. *)
Lemma validate_ill_typed (data : obj) isUpdate :
  ill_typed data = true ->
  exists msg, validateTaskInput (JObj data) isUpdate = Throw (TypeError msg).
Proof.
  unfold ill_typed, validateTaskInput. simpl. intros H.
  destruct (data !! "title") as [[| | | s | |]|]; simpl in *; eauto;
  destruct (data !! "tags") as [[| | | | l |]|]; simpl in *; eauto; discriminate.
Qed.

Lemma validate_bad_enum (data : obj) isUpdate errors :
  outside VALID_STATUSES (data !! "status") ||
  outside VALID_PRIORITIES (data !! "priority") = true ->
  validateTaskInput (JObj data) isUpdate = Ok errors -> errors <> [].
Proof.
  intros Hbad Hval.
  destruct (ill_typed data) eqn:Hty.
  - destruct (validate_ill_typed data isUpdate Hty) as [msg Hmsg]. congruence.
  - rewrite validate_well_typed in Hval by done. injection Hval as <-.
    unfold violations, rules. simpl.
    repeat match goal with
           | |- context [if ?c then _ else _] => destruct c eqn:?
           end; simpl; discriminate.
Qed.

(** A candidate that passes validation in create mode is an object with a
    text title. *)
Lemma validate_create_Ok data :
  validateTaskInput data false = Ok [] ->
  exists (m : obj) s, data = JObj m /\ m !! "title" = Some (JStr s).
Proof.
  destruct data as [| b | n | s | l | m]; intros H;
    try (unfold validateTaskInput in H; simpl in H; discriminate H).
  destruct (ill_typed m) eqn:Hty.
  - destruct (validate_ill_typed m false Hty) as [msg Hmsg]. congruence.
  - rewrite validate_well_typed in H by done. injection H as H.
    unfold ill_typed in Hty. apply orb_false_elim in Hty as [Hty _].
    unfold violations, rules in H.
    destruct (m !! "title") as [[| | | s | |]|] eqn:Ht; try discriminate; eauto.
Qed.

(** ** Rejected requests *)

Lemma findIndex_Some {A} (p : A -> bool) (l : list A) i x :
  findIndex p l = Some (i, x) -> l !! i = Some x /\ p x = true.
Proof.
  revert i. induction l as [|y l IH]; intros i; simpl; [done|].
  destruct (p y) eqn:Hy.
  - intros [= <- <-]. done.
  - destruct (findIndex p l) as [[j z]|]; [|done].
    intros [= <- <-]. simpl. by apply IH.
Qed.

Lemma findIndex_None {A} (p : A -> bool) (l : list A) :
  findIndex p l = None -> Forall (fun x => p x = false) l.
Proof.
  induction l as [|y l IH]; simpl; [constructor|].
  destruct (p y) eqn:Hy; [done|].
  destruct (findIndex p l) as [[j z]|]; [done|].
  intros _. constructor; auto.
Qed.

Lemma newTask_Ok id now data :
  validateTaskInput data false = Ok [] ->
  exists task, newTask id now data = Ok task.
Proof.
  intros H. destruct (validate_create_Ok _ H) as (m & s & -> & Ht).
  unfold newTask. simpl. rewrite Ht. simpl. eauto.
Qed.

Lemma create_outcome env body w :
  let '(resp, w') := serve env (CreateTask body) w in
  (code resp = 400%nat /\ w' = w /\
   exists errors, validateTaskInput (JObj body) false = Ok errors /\ errors <> []) \/
  (code resp = 500%nat /\ w' = w /\
   exists e, validateTaskInput (JObj body) false = Throw e) \/
  exists task,
    validateTaskInput (JObj body) false = Ok [] /\
    newTask (uuid env (draws w)) (toISOString (clock env (ticks w))) (JObj body) = Ok task /\
    tasks w' = tasks w ++ [task] /\
    ((code resp = 201%nat /\ rbody resp = PTask task /\ disk w' = Some (tasks w') /\
      sent w' = sent w ++
        [Event "task_created" task (Some (JStr (toISOString (clock env (ticks w)))))]) \/
     (code resp = 500%nat /\ write_ok env (writes w) = false /\
      disk w' = disk w /\ sent w' = sent w)).
Proof.
  run.
  destruct (validateTaskInput (JObj body) false) as [errors|e] eqn:Hval; simpl.
  2: { right; left. eauto. }
  destruct errors as [|m errors]; simpl.
  2: { left. repeat split; eauto. }
  destruct (newTask_Ok (uuid env (draws w)) (toISOString (clock env (ticks w))) _ Hval)
    as [task Htask].
  rewrite Htask. simpl.
  destruct (write_ok env (writes w)) eqn:Hw; simpl;
    right; right; exists task; repeat split; eauto 10.
Qed.

(** When validation lets a title through, the title is a text or absent. *)
Lemma validate_Ok_title data isUpdate errors :
  validateTaskInput data isUpdate = Ok errors ->
  forall v, prop data "title" = Ok (Some v) -> exists s, v = JStr s.
Proof.
  unfold validateTaskInput. intros H v Hv. rewrite Hv in H. simpl in H.
  destruct v; simpl in H; try discriminate. eauto.
Qed.

Lemma update_outcome env id body w :
  let '(resp, w') := serve env (UpdateTask id body) w in
  (code resp = 404%nat /\ w' = w /\ findIndex (has_id id) (tasks w) = None) \/
  (code resp = 400%nat /\ w' = w) \/
  (code resp = 500%nat /\ w' = w /\
   exists e, validateTaskInput (JObj body) true = Throw e) \/
  exists i old new,
    findIndex (has_id id) (tasks w) = Some (i, old) /\
    validateTaskInput (JObj body) true = Ok [] /\
    new = update_record (toISOString (clock env (ticks w))) old body /\
    tasks w' = <[i := new]> (tasks w) /\
    ((code resp = 200%nat /\ rbody resp = PTask new /\ disk w' = Some (tasks w') /\
      sent w' = sent w ++ [Event "task_updated" new (new !! "updated_at")]) \/
     (code resp = 500%nat /\ write_ok env (writes w) = false /\
      disk w' = disk w /\ sent w' = sent w)).
Proof.
  run.
  destruct (findIndex (has_id id) (tasks w)) as [[i old]|] eqn:Hfind; simpl; [|auto].
  destruct (validateTaskInput (JObj body) true) as [errors|e] eqn:Hval; simpl.
  2: { right; right; left. repeat split; eauto. }
  destruct errors as [|m errors]; simpl; [|auto].
  unfold update_record.
  destruct (body !! "title") as [v|] eqn:Htitle; simpl.
  - destruct (validate_Ok_title _ _ _ Hval v) as [s ->]; [simpl; by rewrite Htitle|].
    simpl. destruct (write_ok env (writes w)) eqn:Hw; simpl;
      right; right; right; exists i, old; eexists; repeat split; eauto 10.
  - destruct (write_ok env (writes w)) eqn:Hw; simpl;
      right; right; right; exists i, old; eexists; repeat split; eauto 10.
Qed.

Lemma falsy_not_status v :
  truthy v = false -> includes_str VALID_STATUSES v = false.
Proof.
  destruct v as [[| b | n | s | l | m]|]; try done.
  destruct s; done.
Qed.

Lemma move_outcome env id body w :
  let '(resp, w') := serve env (MoveTask id body) w in
  (code resp = 404%nat /\ w' = w /\ findIndex (has_id id) (tasks w) = None) \/
  (code resp = 400%nat /\ w' = w /\
   includes_str VALID_STATUSES (body !! "status") = false) \/
  exists i old new,
    findIndex (has_id id) (tasks w) = Some (i, old) /\
    includes_str VALID_STATUSES (body !! "status") = true /\
    new = move_record (toISOString (clock env (ticks w))) old body /\
    tasks w' = <[i := new]> (tasks w) /\
    ((code resp = 200%nat /\ rbody resp = PTask new /\ disk w' = Some (tasks w') /\
      sent w' = sent w ++ [Event "task_moved" new (new !! "updated_at")]) \/
     (code resp = 500%nat /\ write_ok env (writes w) = false /\
      disk w' = disk w /\ sent w' = sent w)).
Proof.
  run.
  destruct (findIndex (has_id id) (tasks w)) as [[i old]|] eqn:Hfind; simpl; [|auto].
  destruct (truthy (body !! "status")) eqn:Htruthy; simpl.
  2: { right; left. repeat split. by apply falsy_not_status. }
  destruct (includes_str VALID_STATUSES (body !! "status")) eqn:Hin; simpl; [|auto].
  unfold move_record.
  destruct (write_ok env (writes w)) eqn:Hw; simpl;
    right; right; exists i, old; eexists; repeat split; eauto 10.
Qed.

(** ** Rejected requests leave the state alone *)

(** C1. A create, update or move that is answered with a validation error
    (400) or a not-found error (404) leaves the whole state as it was: the
    tasks in memory, the tasks file and the log of broadcast messages.  A
    status or priority outside its enumeration never lets the request
    succeed, and the state is left as it was. *)
Theorem rejected_request_changes_nothing (env : Env) (r : request) (w : World) :
  single_mutation r = true ->
  (rejected (serve env r w).1 -> (serve env r w).2 = w) /\
  (bad_enum r = true ->
   code (serve env r w).1 <> 200%nat /\ code (serve env r w).1 <> 201%nat /\
   (serve env r w).2 = w).
Proof.
  unfold rejected. destruct r as [| | b | id b | | id b | | |]; try discriminate; intros _.
  - pose proof (create_outcome env b w) as H.
    destruct (serve env (CreateTask b) w) as [resp w']. simpl.
    destruct H as [(Hc & -> & _)|[(Hc & -> & _)|(task & Hval & _ & _ & H)]].
    + split; [done|]. rewrite Hc. done.
    + split; [done|]. rewrite Hc. done.
    + split.
      * destruct H as [(Hc & _)|(Hc & _)]; rewrite Hc; intros [?|?]; discriminate.
      * intros Hbad. destruct (validate_bad_enum b false [] Hbad Hval). done.
  - pose proof (update_outcome env id b w) as H.
    destruct (serve env (UpdateTask id b) w) as [resp w']. simpl.
    destruct H as [(Hc & -> & _)|[(Hc & ->)|[(Hc & -> & _)|
      (i & old & new & _ & Hval & _ & _ & H)]]].
    + split; [done|]. rewrite Hc. done.
    + split; [done|]. rewrite Hc. done.
    + split; [done|]. rewrite Hc. done.
    + split.
      * destruct H as [(Hc & _)|(Hc & _)]; rewrite Hc; intros [?|?]; discriminate.
      * intros Hbad. destruct (validate_bad_enum b true [] Hbad Hval). done.
  - pose proof (move_outcome env id b w) as H.
    destruct (serve env (MoveTask id b) w) as [resp w']. simpl.
    destruct H as [(Hc & -> & _)|[(Hc & -> & _)|(i & old & new & _ & Hin & _ & _ & H)]].
    + split; [done|]. rewrite Hc. done.
    + split; [done|]. rewrite Hc. done.
    + split.
      * destruct H as [(Hc & _)|(Hc & _)]; rewrite Hc; intros [?|?]; discriminate.
      * unfold bad_enum, outside. rewrite Hin. rewrite andb_false_r. done.
Qed.

Lemma rejected_request_witness :
  let r := UpdateTask "a" {["status" := JStr "archived"]} in
  code (serve sample_env r sample_world).1 = 400%nat /\
  (serve sample_env r sample_world).2 = sample_world.
Proof.
  intros r.
  destruct (rejected_request_changes_nothing sample_env r sample_world eq_refl) as [H1 H2].
  split; [vm_compute; reflexivity|].
  apply H1. left. vm_compute. reflexivity.
Defined.

(** ** Update and move *)

Lemma lookup_set_opt_eq k v (o : obj) : set_opt k v o !! k = v.
Proof.
  unfold set_opt. destruct v; [apply lookup_insert_eq | apply lookup_delete_eq].
Qed.

Lemma lookup_set_opt_ne k k' v (o : obj) : k <> k' -> set_opt k v o !! k' = o !! k'.
Proof.
  intros Hne. unfold set_opt.
  destruct v; [by apply lookup_insert_ne | by apply lookup_delete_ne].
Qed.

(** What an update leaves under each property name. *)
Lemma update_record_lookup now old body k :
  update_record now old body !! k =
    if String.eqb k "title" then
      match body !! "title" with
      | Some (JStr s) => Some (JStr (trim s))
      | Some v => Some v
      | None => old !! "title"
      end
    else if String.eqb k "updated_at" then Some (JStr now)
    else if String.eqb k "created_at" then old !! "created_at"
    else if String.eqb k "id" then old !! "id"
    else match body !! k with
         | Some v => Some v
         | None => old !! k
         end.
Proof.
  assert (Hu : forall k', (body ∪ old) !! k' =
            match body !! k' with Some v => Some v | None => old !! k' end).
  { intros k'. destruct (body !! k') as [v|] eqn:Hb.
    - by apply lookup_union_Some_l.
    - by rewrite lookup_union_r. }
  unfold update_record.
  destruct (String.eqb_spec k "title") as [->|Ht].
  - destruct (body !! "title") as [[| | | s | |]|] eqn:Hb;
      rewrite ?lookup_insert_eq; try reflexivity;
      rewrite lookup_insert_ne by done;
      rewrite !lookup_set_opt_ne by done; rewrite Hu, Hb; reflexivity.
  - assert (Hrest : (<["updated_at" := JStr now]>
              (set_opt "created_at" (old !! "created_at")
                 (set_opt "id" (old !! "id") (body ∪ old)))) !! k =
            if String.eqb k "updated_at" then Some (JStr now)
            else if String.eqb k "created_at" then old !! "created_at"
            else if String.eqb k "id" then old !! "id"
            else match body !! k with Some v => Some v | None => old !! k end).
    { destruct (String.eqb_spec k "updated_at") as [->|Hu'].
      { apply lookup_insert_eq. }
      rewrite lookup_insert_ne by done.
      destruct (String.eqb_spec k "created_at") as [->|Hc].
      { apply lookup_set_opt_eq. }
      rewrite lookup_set_opt_ne by done.
      destruct (String.eqb_spec k "id") as [->|Hi].
      { apply lookup_set_opt_eq. }
      rewrite lookup_set_opt_ne by done. apply Hu. }
    destruct (body !! "title") as [[| | | s | |]|]; try apply Hrest.
    rewrite lookup_insert_ne by done. apply Hrest.
Qed.

(** What a move leaves under each property name. *)
Lemma move_record_lookup now old body k :
  move_record now old body !! k =
    if String.eqb k "updated_at" then Some (JStr now)
    else if String.eqb k "order" then
      match body !! "order" with
      | Some v => Some v
      | None => old !! "order"
      end
    else if String.eqb k "status" then body !! "status"
    else old !! k.
Proof.
  unfold move_record.
  destruct (String.eqb_spec k "updated_at") as [->|Hu].
  { apply lookup_insert_eq. }
  rewrite lookup_insert_ne by done.
  destruct (String.eqb_spec k "order") as [->|Ho].
  { apply lookup_set_opt_eq. }
  rewrite lookup_set_opt_ne by done.
  destruct (String.eqb_spec k "status") as [->|Hs].
  { apply lookup_set_opt_eq. }
  by rewrite lookup_set_opt_ne.
Qed.

(** The read operations leave the tasks, the file and the log as they
    were. *)
Lemma read_only_unchanged env r w :
  read_only r = true ->
  tasks (serve env r w).2 = tasks w /\
  disk (serve env r w).2 = disk w /\
  sent (serve env r w).2 = sent w.
Proof.
  destruct r as [q | id | | | | | | |]; try discriminate; intros _.
  - unfold serve, try_catch, handler, listTasks. run.
    destruct (q_search q) as [s|]; simpl; [|done].
    destruct (String.eqb s ""); simpl; [done|].
    destruct (filterM _ _); done.
  - run. destruct (findIndex _ _) as [[i t]|]; done.
  - unfold serve, try_catch, handler, getStats. run.
    destruct (fold_left _ _ _) as [[bs bp] rc]. done.
Qed.

(** C4. A successful update or move replaces the task found by one with
    the same [id] and [created_at], whatever the request supplies under
    these names, and with [updated_at] set to the time read for the
    mutation; the read operations leave every stored task as it was. *)
Theorem update_move_keep_id_created_at (env : Env) (id : string) (b : obj) (w : World) :
  (forall r, r = UpdateTask id b \/ r = MoveTask id b ->
     code (serve env r w).1 = 200%nat ->
     exists i old new,
       findIndex (has_id id) (tasks w) = Some (i, old) /\
       tasks (serve env r w).2 = <[i := new]> (tasks w) /\
       rbody (serve env r w).1 = PTask new /\
       new !! "id" = old !! "id" /\
       new !! "created_at" = old !! "created_at" /\
       new !! "updated_at" = Some (JStr (toISOString (clock env (ticks w))))) /\
  (forall r, read_only r = true -> tasks (serve env r w).2 = tasks w).
Proof.
  split.
  - intros r [-> | ->] Hcode.
    + pose proof (update_outcome env id b w) as H.
      destruct (serve env (UpdateTask id b) w) as [resp w']. simpl in *.
      destruct H as [(Hc & _)|[(Hc & _)|[(Hc & _)|(i & old & new & Hf & _ & -> & Ht & H)]]];
        try congruence.
      destruct H as [(_ & Hb & _)|(Hc & _)]; [|congruence].
      exists i, old. eexists. split; [exact Hf|]. split; [exact Ht|].
      split; [exact Hb|]. rewrite !update_record_lookup. done.
    + pose proof (move_outcome env id b w) as H.
      destruct (serve env (MoveTask id b) w) as [resp w']. simpl in *.
      destruct H as [(Hc & _)|[(Hc & _)|(i & old & new & Hf & _ & -> & Ht & H)]];
        try congruence.
      destruct H as [(_ & Hb & _)|(Hc & _)]; [|congruence].
      exists i, old. eexists. split; [exact Hf|]. split; [exact Ht|].
      split; [exact Hb|]. rewrite !move_record_lookup.
      done.
  - intros r Hr. by apply read_only_unchanged.
Qed.

Lemma update_move_keep_id_created_at_witness :
  let b : obj := {["id" := JStr "z"; "created_at" := JStr "1999"; "status" := JStr "review"]} in
  exists new,
    tasks (serve sample_env (UpdateTask "b" b) sample_world).2 !! 1%nat = Some new /\
    new !! "id" = Some (JStr "b") /\
    new !! "created_at" = Some (JStr "2026-02-01T09:00:00.000Z") /\
    new !! "updated_at" = Some (JStr "2026-02-06T16:41:15.591Z").
Proof.
  intros b.
  destruct (update_move_keep_id_created_at sample_env "b" b sample_world) as [H _].
  destruct (H (UpdateTask "b" b) (or_introl eq_refl)) as (i & old & new & Hf & Ht & _ & Hi & Hc & Hu).
  { vm_compute. reflexivity. }
  assert (i = 1%nat /\ old = sample_task "b" "done" 1) as [-> ->].
  { vm_compute in Hf. by injection Hf as <- <-. }
  exists new. rewrite Ht. split; [reflexivity|]. split; [|split].
  - rewrite Hi. reflexivity.
  - rewrite Hc. reflexivity.
  - rewrite Hu. vm_compute. reflexivity.
Defined.

(** C5. A move of an existing task to a valid status keeps the task's
    [order] when the request has none, and stores the [order] of the
    request, whatever its value (0 included), when it has one. *)
Theorem move_order_explicit_or_kept (env : Env) (id : string) (b : obj) (w : World)
    (i : nat) (old : obj) :
  findIndex (has_id id) (tasks w) = Some (i, old) ->
  includes_str VALID_STATUSES (b !! "status") = true ->
  write_ok env (writes w) = true ->
  exists new,
    (serve env (MoveTask id b) w).1 = Response 200 (PTask new) /\
    tasks (serve env (MoveTask id b) w).2 = <[i := new]> (tasks w) /\
    (b !! "order" = None -> new !! "order" = old !! "order") /\
    (forall v, b !! "order" = Some v -> new !! "order" = Some v).
Proof.
  intros Hf Hin Hw.
  pose proof (move_outcome env id b w) as H.
  destruct (serve env (MoveTask id b) w) as [[c p] w']. simpl in *.
  destruct H as [(_ & _ & Hn)|[(_ & _ & Hn)|(i' & old' & new & Hf' & _ & -> & Ht & H)]];
    try congruence.
  rewrite Hf in Hf'. injection Hf' as <- <-.
  destruct H as [(-> & -> & _)|(_ & Hw' & _)]; [|congruence].
  eexists. split; [reflexivity|]. split; [exact Ht|].
  rewrite move_record_lookup. simpl. split.
  - by intros ->.
  - by intros v ->.
Qed.

Lemma move_order_explicit_or_kept_witness :
  (exists new,
     (serve sample_env (MoveTask "a" {["status" := JStr "done"; "order" := JNum 0]})
        sample_world).1 = Response 200 (PTask new) /\
     new !! "order" = Some (JNum 0)) /\
  (exists new,
     (serve sample_env (MoveTask "a" {["status" := JStr "done"]})
        sample_world).1 = Response 200 (PTask new) /\
     new !! "order" = Some (JNum 2)).
Proof.
  split.
  - destruct (move_order_explicit_or_kept sample_env "a"
                {["status" := JStr "done"; "order" := JNum 0]} sample_world
                0%nat (sample_task "a" "todo" 2))
      as (new & Hr & _ & _ & Hv); try (vm_compute; reflexivity).
    exists new. split; [exact Hr|]. apply Hv. vm_compute. reflexivity.
  - destruct (move_order_explicit_or_kept sample_env "a"
                {["status" := JStr "done"]} sample_world
                0%nat (sample_task "a" "todo" 2))
      as (new & Hr & _ & Hn & _); try (vm_compute; reflexivity).
    exists new. split; [exact Hr|]. rewrite Hn; vm_compute; reflexivity.
Defined.

(** ** Bulk create *)

(** The loop of bulk create, when the validator throws on no element:
    the created tasks and the errors are those of the closed forms, the
    created tasks are appended to the store, and nothing else happens. *)
Lemma bulk_loop_no_throw env elems : forall i cr er w,
  existsb throws elems = false ->
  bulk_loop env i elems cr er w =
    (Ok (cr ++ bulk_created env (ticks w) (draws w) elems, er ++ bulk_errors i elems),
     mkWorld (tasks w ++ bulk_created env (ticks w) (draws w) elems) (disk w) (sent w)
       (ticks w + length (bulk_created env (ticks w) (draws w) elems))
       (draws w + length (bulk_created env (ticks w) (draws w) elems)) (writes w)).
Proof.
  induction elems as [|e rest IH]; intros i cr er w Hno; simpl.
  - rewrite !app_nil_r, !Nat.add_0_r. by destruct w.
  - simpl in Hno. apply orb_false_elim in Hno as [He Hrest].
    unfold throws in He. unfold passes, throws. run.
    destruct (validateTaskInput e false) as [[|m errs]|ex] eqn:Hval; [| |done]; simpl.
    + destruct (newTask_Ok (uuid env (draws w)) (toISOString (clock env (ticks w))) e Hval)
        as [task Htask].
      rewrite Htask. simpl. rewrite IH by done. simpl.
      rewrite <- !app_assoc. simpl. rewrite !Nat.add_succ_r. reflexivity.
    + rewrite IH by done. rewrite <- !app_assoc. reflexivity.
Qed.

(** When the validator throws on some element, the loop throws, leaving
    in the store the tasks created from the elements before it. *)
Lemma bulk_loop_throw env elems : forall i cr er w,
  existsb throws elems = true ->
  exists ex,
  bulk_loop env i elems cr er w =
    (Throw ex,
     mkWorld (tasks w ++ bulk_created env (ticks w) (draws w) elems) (disk w) (sent w)
       (ticks w + length (bulk_created env (ticks w) (draws w) elems))
       (draws w + length (bulk_created env (ticks w) (draws w) elems)) (writes w)).
Proof.
  induction elems as [|e rest IH]; intros i cr er w Hth; simpl; [done|].
  simpl in Hth. unfold passes, throws in *. run.
  destruct (validateTaskInput e false) as [[|m errs]|ex] eqn:Hval; simpl in *.
  - destruct (newTask_Ok (uuid env (draws w)) (toISOString (clock env (ticks w))) e Hval)
      as [task Htask].
    rewrite Htask. simpl.
    edestruct IH as [ex Hex]; [exact Hth|]. rewrite Hex. simpl.
    rewrite <- !app_assoc. simpl. rewrite !Nat.add_succ_r. eauto.
  - edestruct IH as [ex Hex]; [exact Hth|]. rewrite Hex. eauto.
  - exists ex. rewrite app_nil_r, !Nat.add_0_r. by destruct w.
Qed.

(** What the literal of a new task holds under the names the properties
    below speak of. *)
Lemma newTask_fields id now e task :
  newTask id now e = Ok task ->
  task !! "id" = Some (JStr id) /\
  task !! "created_at" = Some (JStr now) /\
  task !! "updated_at" = Some (JStr now) /\
  (forall v, prop e "order" = Ok (Some v) -> task !! "order" = Some v) /\
  (prop e "order" = Ok None -> task !! "order" = Some (JNum 0)).
Proof.
  unfold newTask. destruct e as [| | | | |m]; simpl; try discriminate.
  destruct (call_trim (m !! "title")) as [t|]; simpl; [|discriminate].
  intros [= <-]. repeat split.
  - intros v [= ->]. reflexivity.
  - intros [= ->]. reflexivity.
Qed.

Lemma bulk_created_made env elems : forall t d,
  existsb throws elems = false ->
  Forall2 (fun e task => exists id now, newTask id now e = Ok task)
    (List.filter passes elems) (bulk_created env t d elems).
Proof.
  induction elems as [|e rest IH]; intros t d Hno; simpl; [constructor|].
  simpl in Hno. apply orb_false_elim in Hno as [He Hrest]. rewrite He.
  destruct (passes e) eqn:Hp; [|by apply IH].
  unfold passes in Hp.
  destruct (validateTaskInput e false) as [[|]|] eqn:Hval; try discriminate.
  destruct (newTask_Ok (uuid env d) (toISOString (clock env t)) e Hval) as [task Htask].
  rewrite Htask. constructor; eauto.
Qed.

(** Each created task has the id and the time drawn for it. *)
Lemma bulk_created_own env elems : forall t d j task,
  bulk_created env t d elems !! j = Some task ->
  task !! "id" = Some (JStr (uuid env (d + j))) /\
  task !! "created_at" = Some (JStr (toISOString (clock env (t + j)))) /\
  task !! "updated_at" = Some (JStr (toISOString (clock env (t + j)))).
Proof.
  induction elems as [|e rest IH]; intros t d j task; simpl; [done|].
  destruct (passes e).
  - destruct (newTask _ _ e) as [task0|] eqn:Htask; [|done].
    destruct j as [|j]; simpl.
    + intros [= <-]. rewrite !Nat.add_0_r.
      destruct (newTask_fields _ _ _ _ Htask) as (? & ? & ? & _). done.
    + intros H. apply IH in H. by rewrite !Nat.add_succ_r.
  - destruct (throws e); [done|]. apply IH.
Qed.

Lemma bulk_lengths env elems t d :
  existsb throws elems = false ->
  length (bulk_created env t d elems) = length (List.filter passes elems) /\
  forall i, length (bulk_errors i elems) =
            length (List.filter (fun e => negb (passes e)) elems).
Proof.
  revert t d. induction elems as [|e rest IH]; intros t d Hno; simpl; [done|].
  simpl in Hno. apply orb_false_elim in Hno as [He Hrest]. rewrite He.
  unfold passes, throws in *.
  destruct (validateTaskInput e false) as [[|m errs]|ex] eqn:Hval; [| |done]; simpl.
  - destruct (newTask_Ok (uuid env d) (toISOString (clock env t)) e Hval) as [task ->].
    simpl. destruct (IH (S t) (S d) Hrest) as [-> H]. done.
  - destruct (IH t d Hrest) as [-> H]. split; [done|]. intros i. by rewrite H.
Qed.

Lemma forEach_broadcast (mk : obj -> event) l : forall w,
  forEach (fun task => broadcastToClients (mk task)) l w =
    (Ok tt, mkWorld (tasks w) (disk w) (sent w ++ map mk l) (ticks w) (draws w) (writes w)).
Proof.
  induction l as [|x l IH]; intros w; simpl.
  - rewrite app_nil_r. by destruct w.
  - run. rewrite IH. simpl. by rewrite <- app_assoc.
Qed.

(** The outcomes of bulk create on an array of candidates. *)
Lemma bulk_outcome env (b : obj) elems w :
  b !! "tasks" = Some (JArr elems) ->
  let created := bulk_created env (ticks w) (draws w) elems in
  let errors := bulk_errors 0 elems in
  let '(resp, w') := serve env (BulkCreate b) w in
  tasks w' = tasks w ++ created /\
  if existsb throws elems then
    code resp = 500%nat /\ disk w' = disk w /\ sent w' = sent w
  else if (0 <? length errors)%nat && (length created =? 0)%nat then
    code resp = 400%nat /\ w' = w
  else if write_ok env (writes w) then
    resp = Response 201 (PBulk created (if (0 <? length errors)%nat then Some errors else None)) /\
    disk w' = Some (tasks w') /\
    sent w' = sent w ++ map (fun task => Event "task_created" task (task !! "created_at")) created
  else
    code resp = 500%nat /\ disk w' = disk w /\ sent w' = sent w.
Proof.
  intros Hb created errors. unfold serve, try_catch, handler, bulkCreate.
  rewrite Hb. unfold mbind at 1, M_bind at 1. simpl.
  destruct (existsb throws elems) eqn:Hth.
  - destruct (bulk_loop_throw env elems 0%nat [] [] w Hth) as [ex ->]. simpl. done.
  - rewrite bulk_loop_no_throw by done. simpl. fold created errors.
    destruct ((0 <? length errors)%nat && (length created =? 0)%nat) eqn:Hc; simpl.
    + apply andb_prop in Hc as [_ Hc]. apply Nat.eqb_eq in Hc.
      destruct created; [|done]. simpl. rewrite app_nil_r, !Nat.add_0_r.
      split; [done|]. split; [done|]. by destruct w.
    + unfold mbind, M_bind, mret, M_ret, saveTasks. simpl.
      destruct (write_ok env (writes w)); simpl; [|done].
      rewrite forEach_broadcast. simpl. done.
Qed.

(** ** The order field *)

Lemma violations_messages data u : Forall (fun e => e ∈ messages) (violations data u).
Proof.
  unfold violations, rules. simpl.
  repeat match goal with
         | |- context [if ?c then _ else _] => destruct c
         end; simpl; repeat constructor; unfold messages; set_solver.
Qed.

Lemma validate_messages data u errors :
  validateTaskInput data u = Ok errors -> Forall (fun e => e ∈ messages) errors.
Proof.
  destruct data as [| b | n | s | l | m]; try discriminate.
  1-4: unfold validateTaskInput; destruct u; simpl; intros [= <-];
       repeat constructor; unfold messages; set_solver.
  destruct (ill_typed m) eqn:Hty.
  - destruct (validate_ill_typed m u Hty) as [msg ->]. discriminate.
  - rewrite validate_well_typed by done. intros [= <-]. apply violations_messages.
Qed.

Lemma validate_ignores_order (data data' : obj) u :
  (forall k, k <> "order" -> data !! k = data' !! k) ->
  validateTaskInput (JObj data) u = validateTaskInput (JObj data') u.
Proof.
  intros H. unfold validateTaskInput. simpl.
  rewrite !(H "title"), !(H "status"), !(H "priority"), !(H "tags") by done.
  reflexivity.
Qed.

(** X1. The validator does not look at [order]: its answer is the same
    whatever [order] holds, and each message it returns is one of the seven
    fixed messages, none of which names the order.  A successful create,
    bulk create or move stores the [order] of the request as it is,
    whatever kind of value it is. *)
Theorem order_is_never_validated (env : Env) (w : World) :
  (forall (data data' : obj) u,
     (forall k, k <> "order" -> data !! k = data' !! k) ->
     validateTaskInput (JObj data) u = validateTaskInput (JObj data') u) /\
  (forall data u errors,
     validateTaskInput data u = Ok errors -> Forall (fun e => e ∈ messages) errors) /\
  Forall (fun m => includes (toLowerCase m) "order" = false) messages /\
  (forall (b : obj) v,
     b !! "order" = Some v ->
     code (serve env (CreateTask b) w).1 = 201%nat ->
     exists task,
       rbody (serve env (CreateTask b) w).1 = PTask task /\
       tasks (serve env (CreateTask b) w).2 = tasks w ++ [task] /\
       task !! "order" = Some v) /\
  (forall (b : obj) elems created errs,
     b !! "tasks" = Some (JArr elems) ->
     (serve env (BulkCreate b) w).1 = Response 201 (PBulk created errs) ->
     tasks (serve env (BulkCreate b) w).2 = tasks w ++ created /\
     Forall2 (fun e task => forall v, prop e "order" = Ok (Some v) -> task !! "order" = Some v)
       (List.filter passes elems) created) /\
  (forall id (b : obj) v,
     b !! "order" = Some v ->
     code (serve env (MoveTask id b) w).1 = 200%nat ->
     exists i new,
       rbody (serve env (MoveTask id b) w).1 = PTask new /\
       tasks (serve env (MoveTask id b) w).2 = <[i := new]> (tasks w) /\
       (i < length (tasks w))%nat /\
       new !! "order" = Some v).
Proof.
  split; [exact validate_ignores_order|].
  split; [exact validate_messages|].
  split; [repeat constructor|].
  split; [|split].
  - intros b v Hv Hcode.
    pose proof (create_outcome env b w) as H.
    destruct (serve env (CreateTask b) w) as [resp w']. simpl in *.
    destruct H as [(Hc & _)|[(Hc & _)|(task & _ & Htask & Ht & H)]]; try congruence.
    destruct H as [(_ & Hb & _)|(Hc & _)]; [|congruence].
    exists task. split; [done|]. split; [done|].
    destruct (newTask_fields _ _ _ _ Htask) as (_ & _ & _ & Ho & _).
    apply Ho. simpl. by rewrite Hv.
  - intros b elems created errs Hb Hresp.
    pose proof (bulk_outcome env b elems w Hb) as H. simpl in H.
    destruct (serve env (BulkCreate b) w) as [resp w']. simpl in *. subst resp.
    destruct H as [Ht H].
    destruct (existsb throws elems) eqn:Hth; [by destruct H|].
    destruct (_ && _); [destruct H as [Hc _]; simpl in Hc; discriminate|].
    destruct (write_ok env (writes w)); [|destruct H as [Hc _]; simpl in Hc; discriminate].
    destruct H as [[= -> _] _]. split; [done|].
    eapply Forall2_impl; [by apply bulk_created_made|].
    intros e task (id & now & Htask).
    by destruct (newTask_fields _ _ _ _ Htask) as (_ & _ & _ & Ho & _).
  - intros id b v Hv Hcode.
    pose proof (move_outcome env id b w) as H.
    destruct (serve env (MoveTask id b) w) as [resp w']. simpl in *.
    destruct H as [(Hc & _)|[(Hc & _)|(i & old & new & Hf & _ & -> & Ht & H)]];
      try congruence.
    destruct H as [(_ & Hb & _)|(Hc & _)]; [|congruence].
    exists i. eexists. split; [exact Hb|]. split; [exact Ht|]. split.
    + apply findIndex_Some in Hf as [Hf _]. by eapply lookup_lt_Some.
    + rewrite move_record_lookup. simpl. by rewrite Hv.
Qed.

Lemma order_is_never_validated_witness :
  let b : obj := {["title" := JStr "Plan"; "order" := JStr "first"]} in
  validateTaskInput (JObj b) false = Ok [] /\
  (exists task,
     rbody (serve sample_env (CreateTask b) sample_world).1 = PTask task /\
     task !! "order" = Some (JStr "first")) /\
  (exists created,
     tasks (serve sample_env (BulkCreate {["tasks" := JArr [JObj b]]}) sample_world).2 =
       tasks sample_world ++ created /\
     Forall2 (fun e task => forall v, prop e "order" = Ok (Some v) -> task !! "order" = Some v)
       [JObj b] created) /\
  (exists new,
     rbody (serve sample_env
              (MoveTask "c" {["status" := JStr "done"; "order" := JStr "first"]})
              sample_world).1 = PTask new /\
     new !! "order" = Some (JStr "first")).
Proof.
  intros b.
  destruct (order_is_never_validated sample_env sample_world)
    as (_ & _ & _ & Hcreate & Hbulk & Hmove).
  split; [vm_compute; reflexivity|]. split; [|split].
  - destruct (Hcreate b (JStr "first")) as (task & Hb & _ & Ho);
      [vm_compute; reflexivity | vm_compute; reflexivity |].
    exists task. split; [exact Hb | exact Ho].
  - eexists. eapply (Hbulk {["tasks" := JArr [JObj b]]} [JObj b] _ None).
    + vm_compute; reflexivity.
    + vm_compute; reflexivity.
  - destruct (Hmove "c" {["status" := JStr "done"; "order" := JStr "first"]} (JStr "first"))
      as (i & new & Hb & _ & _ & Ho);
      [vm_compute; reflexivity | vm_compute; reflexivity |].
    exists new. split; [exact Hb | exact Ho].
Defined.

(** ** Update merges the request into the stored task *)

(** An example: a supplied [updated_at] is not copied (the time of
    the update is stored instead), and a supplied title is stored
    trimmed. *)
Lemma update_overrides_updated_at_example :
  let b : obj := {["updated_at" := JStr "1999-01-01T00:00:00.000Z"; "title" := JStr " Ship it "]} in
  findIndex (has_id "a") (tasks sample_world) = Some (0%nat, sample_task "a" "todo" 2) /\
  validateTaskInput (JObj b) true = Ok [] /\
  exists new,
    (serve sample_env (UpdateTask "a" b) sample_world).1 = Response 200 (PTask new) /\
    tasks (serve sample_env (UpdateTask "a" b) sample_world).2 !! 0%nat = Some new /\
    (exists k v, b !! k = Some v /\ k <> "id" /\ k <> "created_at" /\ new !! k <> Some v) /\
    b !! "updated_at" = Some (JStr "1999-01-01T00:00:00.000Z") /\
    new !! "updated_at" = Some (JStr "2026-02-06T16:41:15.591Z") /\
    b !! "title" = Some (JStr " Ship it ") /\
    new !! "title" = Some (JStr "Ship it").
Proof.
  intros b. split; [vm_compute; reflexivity|]. split; [vm_compute; reflexivity|].
  eexists. split; [vm_compute; reflexivity|].
  split; [vm_compute; reflexivity|].
  split.
  - exists "updated_at", (JStr "1999-01-01T00:00:00.000Z").
    split; [vm_compute; reflexivity|]. split; [done|]. split; [done|].
    vm_compute. discriminate.
  - repeat split; vm_compute; reflexivity.
Qed.

(** An update is answered 400 only when the validator returned
    messages. *)
Lemma update_400_has_errors env id body w :
  code (serve env (UpdateTask id body) w).1 = 400%nat ->
  exists errors, validateTaskInput (JObj body) true = Ok errors /\ errors <> [].
Proof.
  run.
  destruct (findIndex (has_id id) (tasks w)) as [[i old]|]; simpl; [|done].
  destruct (validateTaskInput (JObj body) true) as [errors|e] eqn:Hval; simpl; [|done].
  destruct errors as [|m errors]; simpl; [|eauto].
  destruct (body !! "title") as [v|] eqn:Htitle; simpl.
  - destruct (validate_Ok_title _ _ _ Hval v) as [s ->]; [simpl; by rewrite Htitle|].
    simpl. destruct (write_ok env (writes w)); simpl; done.
  - destruct (write_ok env (writes w)); simpl; done.
Qed.



(** ** The validator throws on ill-typed input *)

(** Examples: with a [title] that is not a text, or [tags]
    that are not an array, the validator returns no list at all.  It
    records the type violation and then calls [trim] (or [every]) on the
    value, which throws a [TypeError]; the handlers answer 500. *)
Theorem validator_throws_on_ill_typed_input :
  validateTaskInput (JObj {["title" := JNum 5]}) false
    = Throw (TypeError "trim is not a function") /\
  validateTaskInput (JObj {["title" := JNum 5]}) true
    = Throw (TypeError "trim is not a function") /\
  validateTaskInput (JObj {["title" := JStr "A"; "tags" := JStr "urgent"]}) false
    = Throw (TypeError "every is not a function") /\
  (serve sample_env (CreateTask {["title" := JNum 5]}) sample_world).1
    = Response 500 (PError "Internal server error").
Proof. repeat split; vm_compute; reflexivity. Qed.

(** A text is none of the texts of an explicit list. *)
Ltac not_in_list :=
  let Hin := fresh "Hin" in
  intros Hin;
  repeat (apply elem_of_cons in Hin as [Hin|Hin]; [discriminate Hin|]);
  by apply elem_of_nil in Hin.

(** X3. Whatever the candidate and the mode, the validator never returns
    the message that the title must be a text nor the message that the
    tags must be an array: when one of them has been pushed, the next
    statement throws. *)
Theorem type_messages_never_returned (data : obj) (u : bool) (errors : list string) :
  validateTaskInput (JObj data) u = Ok errors ->
  ("Title must be a string" ∉ errors) /\ ("Tags must be an array" ∉ errors).
Proof.
  intros H. destruct (ill_typed data) eqn:Hty.
  - destruct (validate_ill_typed data u Hty) as [msg Hmsg]. congruence.
  - rewrite validate_well_typed in H by done. injection H as <-.
    unfold ill_typed in Hty. apply orb_false_elim in Hty as [Ht Hg].
    unfold violations, rules. simpl. rewrite Ht, Hg.
    repeat match goal with
           | |- context [if ?c then _ else _] => destruct c
           end; simpl; split; not_in_list.
Qed.

Lemma type_messages_never_returned_witness :
  "Title must be a string" ∉ ["Title is required"] /\
  "Tags must be an array" ∉ ["Title is required"].
Proof.
  apply (type_messages_never_returned ∅ false ["Title is required"]). reflexivity.
Defined.

(** An example of the consequence for bulk create: when the validator throws
    on an element, bulk create answers 500 although earlier elements have
    already been pushed to the store; they stay in memory, unsaved and
    unannounced. *)
Theorem bulk_create_throws_after_push (env : Env) (w : World) :
  let b : obj := {["tasks" := JArr [JObj {["title" := JStr "A"]}; JObj {["title" := JNum 5]}]]} in
  (serve env (BulkCreate b) w).1 = Response 500 (PError "Internal server error") /\
  (exists task,
     tasks (serve env (BulkCreate b) w).2 = tasks w ++ [task] /\
     task !! "title" = Some (JStr "A")) /\
  disk (serve env (BulkCreate b) w).2 = disk w /\
  sent (serve env (BulkCreate b) w).2 = sent w.
Proof.
  intros b. unfold serve, try_catch, handler, bulkCreate. simpl.
  unfold mbind at 1, M_bind at 1. simpl. run.
  change (validateTaskInput (JObj {["title" := JStr "A"]}) false) with (Ok (@nil string)).
  simpl.
  change (validateTaskInput (JObj {["title" := JNum 5]}) false)
    with (@Throw (list string) (TypeError "trim is not a function")).
  simpl. repeat split. eexists. split; [reflexivity|]. reflexivity.
Qed.

(** ** Clearing the done tasks *)

Lemma filter_split_length {A} (p : A -> bool) (l : list A) :
  (length l - length (List.filter (fun x => negb (p x)) l))%nat = length (List.filter p l).
Proof.
  induction l as [|x l IH]; simpl; [done|].
  destruct (p x); simpl; [|exact IH].
  rewrite <- IH.
  assert (length (List.filter (fun x => negb (p x)) l) <= length l)%nat
    by apply List.filter_length_le.
  lia.
Qed.

(** The broadcasts of clear done: one message per task, each stamped with
    its own reading of the clock. *)
Lemma forEach_deleted env l : forall w,
  forEach (fun task =>
             now ← now_iso env;
             broadcastToClients (Event "task_deleted" task (Some (JStr now)))) l w =
    (Ok tt,
     mkWorld (tasks w) (disk w)
       (sent w ++ imap (fun j task =>
                          deleted_event (toISOString (clock env (ticks w + j))) task) l)
       (ticks w + length l) (draws w) (writes w)).
Proof.
  induction l as [|x l IH]; intros w; simpl.
  - rewrite app_nil_r, Nat.add_0_r. by destruct w.
  - unfold mbind at 1, M_bind at 1. unfold mbind at 1, M_bind at 1. simpl.
    rewrite IH. simpl. rewrite <- app_assoc. simpl. rewrite Nat.add_0_r.
    rewrite Nat.add_succ_r.
    rewrite (imap_ext _ ((fun j task =>
               deleted_event (toISOString (clock env (ticks w + j))) task) ∘ S) l).
    + reflexivity.
    + intros j y _. simpl. by rewrite Nat.add_succ_r.
Qed.

Lemma imap_deleted_tasks (g : nat -> string) (l : list obj) :
  map ev_task (imap (fun j task => deleted_event (g j) task) l) = l.
Proof.
  revert g. induction l as [|x l IH]; intros g; simpl; [done|].
  f_equal. apply (IH (fun j => g (S j))).
Qed.

(** Clear done when the file can be written, in closed form. *)
Lemma clear_done_run env w :
  write_ok env (writes w) = true ->
  serve env (ClearDone (Some "done")) w =
    (Response 200 (PDeleted (length (List.filter is_done (tasks w)))),
     mkWorld (List.filter (fun t => negb (is_done t)) (tasks w))
             (Some (List.filter (fun t => negb (is_done t)) (tasks w)))
             (sent w ++ imap (fun j task =>
                                deleted_event (toISOString (clock env (ticks w + j))) task)
                             (List.filter is_done (tasks w)))
             (ticks w + length (List.filter is_done (tasks w))) (draws w) (S (writes w))).
Proof.
  intros Hw.
  unfold serve, try_catch, handler, clearDone. simpl.
  unfold mbind, M_bind, mret, M_ret, get_tasks, set_tasks, saveTasks. simpl.
  rewrite Hw. simpl.
  pose proof (forEach_deleted env (List.filter is_done (tasks w))) as Hfe.
  unfold is_done in *. rewrite Hfe. simpl.
  by rewrite filter_split_length.
Qed.

(** X4. Clear done keeps exactly the tasks whose status is not [done],
    in their order and as they were, answers with the number of tasks it
    removed, and broadcasts one [task_deleted] message per removed task,
    in the order of the store. *)
Theorem clear_done_removes_done_tasks (env : Env) (w : World) :
  write_ok env (writes w) = true ->
  let removed := List.filter is_done (tasks w) in
  exists events,
    serve env (ClearDone (Some "done")) w =
      (Response 200 (PDeleted (length removed)),
       mkWorld (List.filter (fun t => negb (is_done t)) (tasks w))
               (Some (List.filter (fun t => negb (is_done t)) (tasks w)))
               (sent w ++ events)
               (ticks w + length removed) (draws w) (S (writes w))) /\
    map ev_task events = removed /\
    Forall (fun e => ev_type e = "task_deleted") events.
Proof.
  intros Hw removed.
  exists (imap (fun j task => deleted_event (toISOString (clock env (ticks w + j))) task) removed).
  split; [|split].
  - by apply clear_done_run.
  - apply (imap_deleted_tasks (fun j => toISOString (clock env (ticks w + j)))).
  - apply Forall_forall. intros e He.
    apply elem_of_lookup_imap in He as (j & task & -> & _). reflexivity.
Qed.

Lemma clear_done_removes_done_tasks_witness :
  exists events,
    (serve sample_env (ClearDone (Some "done")) five_tasks).1 = Response 200 (PDeleted 3) /\
    tasks (serve sample_env (ClearDone (Some "done")) five_tasks).2 =
      [sample_task "b" "todo" 0; sample_task "d" "review" 0] /\
    sent (serve sample_env (ClearDone (Some "done")) five_tasks).2 = events /\
    length events = 3%nat /\
    map ev_task events =
      [sample_task "a" "done" 0; sample_task "c" "done" 1; sample_task "e" "done" 2].
Proof.
  destruct (clear_done_removes_done_tasks sample_env five_tasks eq_refl)
    as (events & Hs & Hm & _).
  exists events. rewrite Hs. simpl.
  split; [reflexivity|]. split; [reflexivity|]. split; [reflexivity|].
  split; [rewrite <- (length_map ev_task), Hm; reflexivity | exact Hm].
Defined.

(** ** Listing *)

Section Sorting.
Context {A : Type} (cmp : A -> A -> option Z).

Lemma sort_insert_perm x l : sort_insert cmp x l ≡ₚ x :: l.
Proof.
  induction l as [|y l IH]; simpl; [done|].
  destruct (comes_after cmp x y); [|done].
  rewrite IH. apply Permutation_swap.
Qed.

Lemma js_sort_perm l : js_sort cmp l ≡ₚ l.
Proof.
  induction l as [|x l IH]; simpl; [done|].
  unfold js_sort in *. simpl. rewrite sort_insert_perm. by constructor.
Qed.

(** Sorting with a comparator that decides a total preorder [le] on the
    elements satisfying [P]. *)
Context (P : A -> Prop) (le : A -> A -> Prop).
Context (le_total : forall x y, P x -> P y -> le x y \/ le y x).
Context (le_trans : forall x y z, le x y -> le y z -> le x z).
Context (after_spec : forall x y, P x -> P y ->
           (comes_after cmp x y = true -> le y x) /\
           (comes_after cmp x y = false -> le x y)).

Lemma sort_insert_sorted x l :
  P x -> Forall P l -> StronglySorted le l -> StronglySorted le (sort_insert cmp x l).
Proof.
  intros Hx Hl Hs. induction Hs as [|y l Hs IH Hy]; simpl.
  - repeat constructor.
  - apply Forall_cons in Hl as [HPy Hl].
    destruct (comes_after cmp x y) eqn:Hc.
    + constructor; [by apply IH|].
      rewrite sort_insert_perm. constructor; [|done].
      by apply (after_spec x y).
    + assert (le x y) by by apply (after_spec x y).
      constructor; [by constructor|].
      constructor; [done|]. eapply Forall_impl; [exact Hy|]. eauto.
Qed.

Lemma js_sort_sorted l : Forall P l -> StronglySorted le (js_sort cmp l).
Proof.
  induction l as [|x l IH]; intros Hl; [constructor|].
  apply Forall_cons in Hl as [Hx Hl]. unfold js_sort in *. simpl.
  apply sort_insert_sorted; [done| |by apply IH].
  fold (js_sort cmp l). by rewrite js_sort_perm.
Qed.

End Sorting.

Lemma valid_status_cases v :
  includes_str VALID_STATUSES v = true ->
  v = Some (JStr "backlog") \/ v = Some (JStr "todo") \/ v = Some (JStr "in_progress") \/
  v = Some (JStr "review") \/ v = Some (JStr "done").
Proof.
  unfold includes_str, VALID_STATUSES. simpl.
  destruct v as [[| | | s | |]|]; simpl; try discriminate.
  repeat match goal with
         | |- context [String.eqb s ?x] => destruct (String.eqb_spec s x) as [->|?]
         end; simpl; try discriminate; auto 10.
Qed.

(** On sortable tasks the comparator is the difference of the ranks and,
    for equal ranks, the difference of the orders. *)
Lemma compareTasks_sortable env a b :
  sortable a = true -> sortable b = true ->
  compareTasks env a b =
    Some (if rank a - rank b =? 0 then order_of a - order_of b else rank a - rank b).
Proof.
  unfold sortable. intros Ha Hb.
  apply andb_prop in Ha as [Hsa Hoa]. apply andb_prop in Hb as [Hsb Hob].
  unfold compareTasks, rank, order_of.
  destruct (a !! "order") as [[| | n | | |]|]; try discriminate.
  destruct (b !! "order") as [[| | m | | |]|]; try discriminate.
  apply valid_status_cases in Hsa, Hsb.
  destruct Hsa as [->|[->|[->|[->| ->]]]]; destruct Hsb as [->|[->|[->|[->| ->]]]];
    reflexivity.
Qed.

Lemma comes_after_sortable env a b :
  sortable a = true -> sortable b = true ->
  (comes_after (compareTasks env) a b = true -> before b a /\ same_key a b = false) /\
  (comes_after (compareTasks env) a b = false -> before a b).
Proof.
  intros Ha Hb. unfold comes_after, before, same_key.
  rewrite compareTasks_sortable by done.
  destruct (Z.eqb_spec (rank a - rank b) 0) as [H0|H0].
  - split; intros H.
    + apply Z.ltb_lt in H. split; [lia|].
      apply andb_false_iff. right. apply Z.eqb_neq. lia.
    + apply Z.ltb_ge in H. lia.
  - split; intros H.
    + apply Z.ltb_lt in H. split; [lia|].
      apply andb_false_iff. left. apply Z.eqb_neq. lia.
    + apply Z.ltb_ge in H. lia.
Qed.

Lemma before_trans a b c : before a b -> before b c -> before a c.
Proof. unfold before. lia. Qed.

Lemma before_total a b : before a b \/ before b a.
Proof. unfold before. lia. Qed.

(** The sort is stable: tasks with the same rank and order keep the order
    of the input. *)
Lemma js_sort_stable env (k : obj) l :
  Forall (fun t => sortable t = true) l ->
  List.filter (same_key k) (js_sort (compareTasks env) l) = List.filter (same_key k) l.
Proof.
  induction l as [|x l IH]; intros Hl; [done|].
  apply Forall_cons in Hl as [Hx Hl]. unfold js_sort in *. simpl.
  rewrite <- (IH Hl).
  assert (Hs : Forall (fun t => sortable t = true) (foldr (sort_insert (compareTasks env)) [] l)).
  { fold (js_sort (compareTasks env) l). by rewrite js_sort_perm. }
  clear IH Hl. induction Hs as [|y r Hy Hr IHr]; simpl; [done|].
  destruct (comes_after (compareTasks env) x y) eqn:Hc; simpl; [|done].
  apply (comes_after_sortable env x y Hx Hy) in Hc as [_ Hne].
  rewrite IHr. destruct (same_key k x) eqn:Hkx; [|done].
  assert (same_key k y = false) as ->; [|done].
  unfold same_key in *. apply andb_prop in Hkx as [H1 H2].
  apply Z.eqb_eq in H1, H2. rewrite H1, H2. exact Hne.
Qed.

Lemma filter_filter {A} (p q : A -> bool) l :
  List.filter p (List.filter q l) = List.filter (fun x => q x && p x) l.
Proof.
  induction l as [|x l IH]; simpl; [done|].
  destruct (q x); simpl; [|done]. destruct (p x); by rewrite IH.
Qed.

Lemma filter_if_supplied q p l :
  filter_if q p l =
    List.filter (fun t => match supplied q with Some s => p s t | None => true end) l.
Proof.
  unfold filter_if, supplied. destruct q as [s|]; simpl.
  - destruct (String.eqb s ""); simpl; [|done].
    induction l; simpl; by f_equal.
  - induction l; simpl; by f_equal.
Qed.

Lemma filterM_search s l :
  Forall (fun t => searchable t = true) l ->
  filterM (search_match (toLowerCase s)) l =
    Ok (List.filter (fun t => ci_includes (text_of (t !! "title")) s ||
                              ci_includes (text_of (t !! "description")) s) l).
Proof.
  induction 1 as [|t l Ht Hl IH]; simpl; [done|].
  rewrite IH. unfold searchable in Ht. apply andb_prop in Ht as [H1 H2].
  unfold search_match, ci_includes.
  destruct (t !! "title") as [[| | | x | |]|]; try discriminate.
  destruct (t !! "description") as [[| | | y | |]|]; try discriminate.
  simpl. destruct (includes (toLowerCase x) (toLowerCase s)); simpl; [done|].
  destruct (includes (toLowerCase y) (toLowerCase s)); done.
Qed.

(** *** The search is a substring test that ignores case *)

Lemma append_cons a s t : String a s +:+ t = String a (s +:+ t).
Proof. reflexivity. Qed.

Lemma append_nil t : "" +:+ t = t.
Proof. reflexivity. Qed.

Lemma prefix_spec needle : forall hay,
  String.prefix needle hay = true <-> exists post, hay = needle +:+ post.
Proof.
  induction needle as [|a needle IH]; intros hay; simpl.
  - destruct hay; split; eauto.
  - destruct hay as [|b hay]; simpl.
    + split; [done|]. intros [post H]. discriminate.
    + destruct (ascii_dec a b) as [->|Hne].
      * rewrite IH. split; intros [post H]; exists post.
        -- rewrite append_cons. congruence.
        -- rewrite append_cons in H. congruence.
      * split; [done|]. intros [post H]. rewrite append_cons in H. congruence.
Qed.

Lemma includes_spec hay needle :
  includes hay needle = true <-> exists pre post, hay = pre +:+ needle +:+ post.
Proof.
  induction hay as [|a hay IH]; cbn [includes].
  - rewrite orb_false_r, prefix_spec. split.
    + intros [post H]. by exists "", post.
    + intros (pre & post & H). destruct pre; [by exists post|discriminate].
  - rewrite orb_true_iff, prefix_spec, IH. split.
    + intros [[post H]|(pre & post & H)].
      * by exists "", post.
      * exists (String a pre), post. rewrite append_cons. by rewrite H.
    + intros (pre & post & H). destruct pre as [|b pre].
      * left. by exists post.
      * right. exists pre, post. rewrite append_cons in H. congruence.
Qed.

Lemma toLowerCase_app a b : toLowerCase (a +:+ b) = toLowerCase a +:+ toLowerCase b.
Proof.
  induction a as [|c a IH]; [done|].
  rewrite append_cons. simpl. rewrite append_cons. by f_equal.
Qed.

Lemma toLowerCase_split s : forall x y,
  toLowerCase s = x +:+ y ->
  exists a b, s = a +:+ b /\ toLowerCase a = x /\ toLowerCase b = y.
Proof.
  induction s as [|c s IH]; intros x y H; simpl in H.
  - destruct x; [|discriminate]. rewrite append_nil in H. subst y. by exists "", "".
  - destruct x as [|d x].
    + rewrite append_nil in H. subst y. by exists "", (String c s).
    + rewrite append_cons in H. injection H as <- H.
      apply IH in H as (a & b & -> & <- & <-).
      by exists (String c a), b.
Qed.

(** [needle] occurs in [hay], case ignored, exactly when a part of [hay]
    equals [needle] up to case. *)
Lemma ci_includes_spec hay needle :
  ci_includes hay needle = true <->
  exists pre mid post,
    hay = pre +:+ mid +:+ post /\ toLowerCase mid = toLowerCase needle.
Proof.
  unfold ci_includes. rewrite includes_spec. split.
  - intros (pre & post & H).
    apply toLowerCase_split in H as (a & r & -> & <- & H).
    apply toLowerCase_split in H as (m & b & -> & H & <-).
    by exists a, m, b.
  - intros (pre & mid & post & -> & H).
    exists (toLowerCase pre), (toLowerCase post).
    by rewrite !toLowerCase_app, H.
Qed.

Lemma filter_true {A} (l : list A) : List.filter (fun _ => true) l = l.
Proof. induction l; simpl; by f_equal. Qed.

(** The filters applied one after the other keep the tasks that satisfy
    all of them. *)
Lemma matches_filter q l :
  List.filter (matches q) l =
  List.filter (fun t => match supplied (q_search q) with
                        | Some s => ci_includes (text_of (t !! "title")) s ||
                                    ci_includes (text_of (t !! "description")) s
                        | None => true
                        end)
    (filter_if (q_assignee q) (fun s task => strict_eq_str (task !! "assignee") s)
       (filter_if (q_priority q) (fun s task => strict_eq_str (task !! "priority") s)
          (filter_if (q_status q) (fun s task => strict_eq_str (task !! "status") s) l))).
Proof.
  rewrite !filter_if_supplied, !filter_filter.
  apply List.filter_ext. intros t. unfold matches. by rewrite !andb_assoc.
Qed.



Example list_sample :
  (serve sample_env (ListTasks (Query (Some "todo") None (Some "") (Some "REPORT")))
     sample_world).1 =
  Response 200 (PTasks [sample_task "c" "todo" 0; sample_task "a" "todo" 2]).
Proof. vm_compute. reflexivity. Qed.

(** ** Timestamps compare as the times they print *)

Lemma DaysInYear_cases y : DaysInYear y = 365 \/ DaysInYear y = 366.
Proof. unfold DaysInYear, DayFromYear. Z.div_mod_to_equations. lia. Qed.

Lemma DayFromYear_succ y : DayFromYear y < DayFromYear (y + 1).
Proof. pose proof (DaysInYear_cases y). unfold DaysInYear in *. lia. Qed.

Lemma DayFromYear_mono y1 y2 : y1 <= y2 -> DayFromYear y1 <= DayFromYear y2.
Proof.
  intros H. replace y2 with (y1 + Z.of_nat (Z.to_nat (y2 - y1))) by lia.
  induction (Z.to_nat (y2 - y1)) as [|n IH]; [rewrite Z.add_0_r; lia|].
  pose proof (DayFromYear_succ (y1 + Z.of_nat n)).
  replace (y1 + Z.of_nat (S n)) with (y1 + Z.of_nat n + 1) by lia. lia.
Qed.

Lemma DayFromYear_lt_inv y1 y2 : DayFromYear y1 < DayFromYear y2 -> y1 < y2.
Proof.
  intros H. destruct (Z_lt_le_dec y1 y2) as [|Hle]; [done|].
  apply DayFromYear_mono in Hle. lia.
Qed.

Lemma year_from_spec fuel : forall y d,
  DayFromYear y <= d ->
  DayFromYear (year_from fuel y d) <= d /\
  y <= year_from fuel y d <= y + Z.of_nat fuel /\
  (d < DayFromYear (year_from fuel y d + 1) \/ year_from fuel y d = y + Z.of_nat fuel).
Proof.
  induction fuel as [|fuel IH]; intros y d Hy; simpl.
  - lia.
  - destruct (Z.leb_spec (DayFromYear (y + 1)) d) as [Hle|Hlt].
    + destruct (IH (y + 1) d Hle) as (H1 & H2 & H3). lia.
    + lia.
Qed.

Lemma YearFromDay_spec d :
  0 <= d < 2932897 ->
  DayFromYear (YearFromDay d) <= d < DayFromYear (YearFromDay d + 1) /\
  1970 <= YearFromDay d <= 9999.
Proof.
  intros Hd. unfold YearFromDay.
  destruct (year_from_spec (Z.to_nat 8029) 1970 d) as (H1 & H2 & H3).
  { change (DayFromYear 1970) with 0. lia. }
  rewrite Z2Nat.id in * by lia.
  split; [|lia]. split; [done|].
  destruct H3 as [H3|H3]; [done|]. rewrite H3.
  change (DayFromYear (1970 + 8029 + 1)) with 2932897. lia.
Qed.

Lemma compare_refl s : String.compare s s = Eq.
Proof.
  induction s as [|a s IH]; simpl; [done|].
  unfold Ascii.compare. by rewrite N.compare_refl.
Qed.

Lemma string_append_cons a s t : String a s +:+ t = String a (s +:+ t).
Proof. reflexivity. Qed.

(** Two texts that start with parts of the same length compare by these
    parts first. *)
Lemma compare_app p1 : forall p2 r1 r2,
  String.length p1 = String.length p2 ->
  String.compare (p1 +:+ r1) (p2 +:+ r2) =
    match String.compare p1 p2 with
    | Eq => String.compare r1 r2
    | c => c
    end.
Proof.
  induction p1 as [|a p1 IH]; intros [|b p2] r1 r2 Hlen; try discriminate Hlen.
  - reflexivity.
  - rewrite !string_append_cons. simpl.
    destruct (Ascii.compare a b); [|done..].
    apply IH. simpl in Hlen. congruence.
Qed.

Lemma compare_app_same p r1 r2 :
  String.compare (p +:+ r1) (p +:+ r2) = String.compare r1 r2.
Proof. by rewrite compare_app, compare_refl. Qed.

Lemma pad_length k : forall n, String.length (pad k n) = k.
Proof. induction k as [|k IH]; intros n; simpl; [done|]. by rewrite IH. Qed.

Lemma digit_compare x y :
  0 <= x <= 9 -> 0 <= y <= 9 -> Ascii.compare (digit x) (digit y) = (x ?= y).
Proof.
  intros Hx Hy.
  assert (Ex : x = 0 \/ x = 1 \/ x = 2 \/ x = 3 \/ x = 4 \/ x = 5 \/ x = 6 \/ x = 7 \/
               x = 8 \/ x = 9) by lia.
  assert (Ey : y = 0 \/ y = 1 \/ y = 2 \/ y = 3 \/ y = 4 \/ y = 5 \/ y = 6 \/ y = 7 \/
               y = 8 \/ y = 9) by lia.
  clear Hx Hy.
  repeat (destruct Ex as [->|Ex]); try subst x;
    repeat (destruct Ey as [->|Ey]); try subst y; reflexivity.
Qed.

(** Numbers written with the same number of digits compare as texts the
    way they compare as numbers. *)
Lemma pad_compare k : forall a b,
  0 <= a < 10 ^ Z.of_nat k -> 0 <= b < 10 ^ Z.of_nat k ->
  String.compare (pad k a) (pad k b) = (a ?= b).
Proof.
  induction k as [|k IH]; intros a b Ha Hb.
  - simpl in *. assert (a = 0) as -> by lia. assert (b = 0) as -> by lia. done.
  - rewrite Nat2Z.inj_succ, Z.pow_succ_r in Ha, Hb by lia.
    cbn [pad String.compare].
    set (P := 10 ^ Z.of_nat k) in *.
    assert (HP : 0 < P) by (apply Z.pow_pos_nonneg; lia).
    pose proof (Z.div_mod a P ltac:(lia)) as Ea.
    pose proof (Z.div_mod b P ltac:(lia)) as Eb.
    pose proof (Z.mod_pos_bound a P HP) as Ra.
    pose proof (Z.mod_pos_bound b P HP) as Rb.
    assert (Qa : 0 <= a / P <= 9).
    { split; [apply Z.div_pos; lia|]. apply Z.lt_succ_r, Z.div_lt_upper_bound; lia. }
    assert (Qb : 0 <= b / P <= 9).
    { split; [apply Z.div_pos; lia|]. apply Z.lt_succ_r, Z.div_lt_upper_bound; lia. }
    rewrite digit_compare by done.
    destruct (Z.compare_spec (a / P) (b / P)) as [Hq|Hq|Hq].
    + rewrite IH by done.
      destruct (Z.compare_spec (a mod P) (b mod P)); symmetry;
        [apply Z.compare_eq_iff | apply Z.compare_lt_iff | apply Z.compare_gt_iff]; nia.
    + symmetry. apply Z.compare_lt_iff. nia.
    + symmetry. apply Z.compare_gt_iff. nia.
Qed.

Lemma field_compare k a b sep r1 r2 :
  0 <= a < 10 ^ Z.of_nat k -> 0 <= b < 10 ^ Z.of_nat k ->
  String.compare (pad k a +:+ sep +:+ r1) (pad k b +:+ sep +:+ r2) =
    match a ?= b with
    | Eq => String.compare r1 r2
    | c => c
    end.
Proof.
  intros Ha Hb. rewrite compare_app by (by rewrite !pad_length).
  rewrite pad_compare by done. by rewrite compare_app_same.
Qed.

Lemma cmp_lt (x y : Z) (R : comparison) :
  x < y -> match x ?= y with Eq => R | c => c end = Lt.
Proof. intros H. by rewrite (proj2 (Z.compare_lt_iff x y) H). Qed.

Lemma cmp_eq (x y : Z) (R : comparison) :
  x = y -> match x ?= y with Eq => R | c => c end = R.
Proof. intros ->. by rewrite Z.compare_refl. Qed.

Lemma month_date_range lp dy :
  0 <= lp <= 1 -> 0 <= dy < 365 + lp ->
  0 <= MonthFromDay lp dy <= 11 /\ 1 <= DateFromDay lp dy <= 31.
Proof.
  intros Hlp Hdy. unfold DateFromDay, MonthFromDay.
  repeat match goal with
         | |- context [?a <? ?b] => destruct (Z.ltb_spec a b)
         end; cbv iota; lia.
Qed.

(** Within a year, a later day has a later month, or the same month and
    a later date. *)
Lemma month_date_lt lp dy1 dy2 :
  0 <= lp <= 1 -> 0 <= dy1 < dy2 -> dy2 < 365 + lp ->
  MonthFromDay lp dy1 < MonthFromDay lp dy2 \/
  (MonthFromDay lp dy1 = MonthFromDay lp dy2 /\ DateFromDay lp dy1 < DateFromDay lp dy2).
Proof.
  intros Hlp H1 H2. unfold DateFromDay, MonthFromDay.
  repeat match goal with
         | |- context [?a <? ?b] => destruct (Z.ltb_spec a b); try lia
         end; cbv iota; lia.
Qed.

Lemma time_fields_lt r1 r2 (R : comparison) :
  0 <= r1 < r2 -> r2 < msPerDay ->
  match r1 / 3600000 ?= r2 / 3600000 with
  | Eq =>
      match r1 / 60000 mod 60 ?= r2 / 60000 mod 60 with
      | Eq =>
          match r1 / 1000 mod 60 ?= r2 / 1000 mod 60 with
          | Eq => match r1 mod 1000 ?= r2 mod 1000 with Eq => R | c => c end
          | c => c
          end
      | c => c
      end
  | c => c
  end = Lt.
Proof.
  unfold msPerDay. intros H1 H2.
  destruct (Z_lt_le_dec (r1 / 3600000) (r2 / 3600000)) as [H|H]; [by apply cmp_lt|].
  rewrite cmp_eq by (Z.div_mod_to_equations; lia).
  destruct (Z_lt_le_dec (r1 / 60000 mod 60) (r2 / 60000 mod 60)) as [H'|H'];
    [by apply cmp_lt|].
  rewrite cmp_eq by (Z.div_mod_to_equations; lia).
  destruct (Z_lt_le_dec (r1 / 1000 mod 60) (r2 / 1000 mod 60)) as [H''|H''];
    [by apply cmp_lt|].
  rewrite cmp_eq by (Z.div_mod_to_equations; lia).
  apply cmp_lt. Z.div_mod_to_equations. lia.
Qed.

Lemma day_fields d :
  0 <= d < 2932897 ->
  let y := YearFromDay d in
  let lp := DaysInYear y - 365 in
  let dy := d - DayFromYear y in
  1970 <= y <= 9999 /\ 0 <= lp <= 1 /\ 0 <= dy < 365 + lp.
Proof.
  intros Hd y lp dy. destruct (YearFromDay_spec d Hd) as [H1 H2].
  pose proof (DaysInYear_cases y). unfold lp, dy, y, DaysInYear in *. lia.
Qed.

(** An earlier time prints as a smaller text. *)
Lemma toISOString_lt a b :
  0 <= a -> a < b -> b < maxTime ->
  String.compare (toISOString a) (toISOString b) = Lt.
Proof.
  unfold maxTime. intros Ha Hab Hb. unfold toISOString. cbv zeta.
  assert (Hda : 0 <= a / msPerDay < 2932897)
    by (unfold msPerDay; Z.div_mod_to_equations; lia).
  assert (Hdb : 0 <= b / msPerDay < 2932897)
    by (unfold msPerDay; Z.div_mod_to_equations; lia).
  assert (Hra : 0 <= a mod msPerDay < msPerDay) by (apply Z.mod_pos_bound; done).
  assert (Hrb : 0 <= b mod msPerDay < msPerDay) by (apply Z.mod_pos_bound; done).
  pose proof (day_fields _ Hda) as (Hya & Hla & Hdya).
  pose proof (day_fields _ Hdb) as (Hyb & Hlb & Hdyb).
  pose proof (YearFromDay_spec _ Hda) as [Hsa _].
  pose proof (YearFromDay_spec _ Hdb) as [Hsb _].
  set (da := a / msPerDay) in *. set (db := b / msPerDay) in *.
  set (ra := a mod msPerDay) in *. set (rb := b mod msPerDay) in *.
  assert (Hlex : da < db \/ (da = db /\ ra < rb)).
  { unfold da, db, ra, rb, msPerDay in *. Z.div_mod_to_equations. lia. }
  set (ya := YearFromDay da) in *. set (yb := YearFromDay db) in *.
  set (la := DaysInYear ya - 365) in *. set (lb := DaysInYear yb - 365) in *.
  set (dya := da - DayFromYear ya) in *. set (dyb := db - DayFromYear yb) in *.
  pose proof (month_date_range la dya Hla Hdya) as [Hma Hta].
  pose proof (month_date_range lb dyb Hlb Hdyb) as [Hmb Htb].
  change (pad 3 (ra mod 1000) +:+ "Z") with (pad 3 (ra mod 1000) +:+ "Z" +:+ "").
  change (pad 3 (rb mod 1000) +:+ "Z") with (pad 3 (rb mod 1000) +:+ "Z" +:+ "").
  unfold msPerDay in Hra, Hrb.
  rewrite !field_compare by
    (simpl Z.of_nat; first [lia | Z.div_mod_to_equations; lia]).
  destruct Hlex as [Hd|[Hd Hr]].
  - assert (Hy : ya <= yb).
    { apply Z.lt_succ_r, DayFromYear_lt_inv. unfold Z.succ. lia. }
    destruct (Z_lt_le_dec ya yb) as [Hlt|Hge]; [by apply cmp_lt|].
    assert (Heq : yb = ya) by lia.
    unfold lb, dyb in *. rewrite Heq in *. fold la in Hlb, Hdyb, Hmb, Htb |- *.
    rewrite cmp_eq by done.
    destruct (month_date_lt la dya (db - DayFromYear ya)) as [Hm|[Hm Hdt]];
      [done | unfold dya; lia | lia | |].
    + apply cmp_lt. lia.
    + rewrite cmp_eq by lia. by apply cmp_lt.
  - unfold yb, lb, dyb, yb in *. rewrite <- Hd in *.
    fold ya. fold la. fold dya.
    rewrite !cmp_eq by done.
    apply time_fields_lt; unfold msPerDay; lia.
Qed.

(** Timestamps of times between 1970 and 9999 compare as texts the way
    the times compare. *)
Lemma toISOString_compare a b :
  0 <= a < maxTime -> 0 <= b < maxTime ->
  String.compare (toISOString a) (toISOString b) = (a ?= b).
Proof.
  intros Ha Hb. destruct (Z.compare_spec a b) as [->|H|H].
  - apply compare_refl.
  - apply toISOString_lt; lia.
  - rewrite String.compare_antisym, toISOString_lt by lia. done.
Qed.

Lemma toISOString_leb a b :
  0 <= a < maxTime -> 0 <= b < maxTime ->
  String.leb (toISOString a) (toISOString b) = (a <=? b).
Proof.
  intros Ha Hb. unfold String.leb, Z.leb. by rewrite toISOString_compare.
Qed.

(** ** Statistics *)

Lemma incr_lookup_same k (m : gmap string (option nat)) n :
  k <> "__proto__" -> m !! k = Some (Some n) -> incr k m !! k = Some (Some (S n)).
Proof.
  intros Hk Hm. unfold incr. rewrite (proj2 (String.eqb_neq _ _) Hk).
  by rewrite lookup_insert_eq, Hm.
Qed.

Lemma incr_lookup_other k k' (m : gmap string (option nat)) :
  k <> k' -> incr k m !! k' = m !! k'.
Proof.
  intros Hne. unfold incr. destruct (String.eqb k "__proto__"); [done|].
  by rewrite lookup_insert_ne.
Qed.

(** After the loop, a counter that started as a number has grown by the
    number of tasks counted under its key. *)
Lemma stats_fold cutoff l : forall bs bp rc,
  exists bs' bp',
    fold_left (stats_step cutoff) l (bs, bp, rc) =
      (bs', bp', (rc + length (List.filter (recent cutoff) l))%nat) /\
    (forall k n, k <> "__proto__" -> bs !! k = Some (Some n) ->
       bs' !! k = Some (Some (n + length (List.filter (keyed "status" k) l))%nat)) /\
    (forall k n, k <> "__proto__" -> bp !! k = Some (Some n) ->
       bp' !! k = Some (Some (n + length (List.filter (keyed "priority" k) l))%nat)).
Proof.
  induction l as [|t l IH]; intros bs bp rc; simpl.
  - exists bs, bp. rewrite !Nat.add_0_r. split; [done|].
    split; intros k n _ H; by rewrite Nat.add_0_r.
  - destruct (IH (incr (prop_key (t !! "status")) bs)
                 (incr (prop_key (t !! "priority")) bp)
                 (if strict_eq_str (t !! "status") "done" &&
                     ge_str (t !! "updated_at") cutoff then S rc else rc))
      as (bs' & bp' & Hfold & Hbs & Hbp).
    exists bs', bp'. rewrite Hfold. split; [|split].
    + f_equal. change (strict_eq_str (t !! "status") "done" &&
                         ge_str (t !! "updated_at") cutoff) with (recent cutoff t).
      destruct (recent cutoff t); simpl; lia.
    + intros k n Hk Hm. unfold keyed at 1.
      destruct (String.eqb_spec (prop_key (t !! "status")) k) as [He|Hne]; simpl.
      * rewrite (Hbs k (S n)) by (subst k; by try apply incr_lookup_same).
        do 2 f_equal. lia.
      * apply Hbs; [done|]. by rewrite incr_lookup_other.
    + intros k n Hk Hm. unfold keyed at 1.
      destruct (String.eqb_spec (prop_key (t !! "priority")) k) as [He|Hne]; simpl.
      * rewrite (Hbp k (S n)) by (subst k; by try apply incr_lookup_same).
        do 2 f_equal. lia.
      * apply Hbp; [done|]. by rewrite incr_lookup_other.
Qed.

(** The statistics in closed form. *)
Lemma stats_run env w :
  exists byStatus byPriority,
    serve env GetStats w =
      (Response 200
         (PStats (length (tasks w)) byStatus byPriority
            (length (List.filter
               (recent (toISOString (clock env (ticks w) - 24 * 60 * 60 * 1000)))
               (tasks w)))),
       mkWorld (tasks w) (disk w) (sent w) (S (ticks w)) (draws w) (writes w)).
Proof.
  unfold serve, try_catch, handler, getStats.
  unfold mbind, M_bind, mret, M_ret, date_now, get_tasks. simpl.
  destruct (stats_fold (toISOString (clock env (ticks w) - 24 * 60 * 60 * 1000)) (tasks w)
              (zero_counters ["backlog"; "todo"; "in_progress"; "review"; "done"])
              (zero_counters ["low"; "medium"; "high"; "critical"]) O)
    as (bs & bp & Hfold & _).
  exists bs, bp. by rewrite Hfold.
Qed.

(** X6. The statistics of any store: the answer is 200 and nothing changes
    but the count of clock readings; the total is the number of tasks;
    each of the five statuses and of the four priorities has a counter,
    equal to the number of tasks counted under it; and the recently
    completed tasks are the done tasks whose [updated_at] is not below the
    timestamp of 24 hours before the call. *)
Theorem stats_counts (env : Env) (w : World) :
  exists byStatus byPriority,
    serve env GetStats w =
      (Response 200
         (PStats (length (tasks w)) byStatus byPriority
            (length (List.filter
               (recent (toISOString (clock env (ticks w) - 24 * 60 * 60 * 1000)))
               (tasks w)))),
       mkWorld (tasks w) (disk w) (sent w) (S (ticks w)) (draws w) (writes w)) /\
    (forall s, s ∈ VALID_STATUSES ->
       byStatus !! s = Some (Some (length (List.filter (keyed "status" s) (tasks w))))) /\
    (forall p, p ∈ VALID_PRIORITIES ->
       byPriority !! p = Some (Some (length (List.filter (keyed "priority" p) (tasks w))))).
Proof.
  unfold serve, try_catch, handler, getStats.
  unfold mbind, M_bind, mret, M_ret, date_now, get_tasks. simpl.
  destruct (stats_fold (toISOString (clock env (ticks w) - 24 * 60 * 60 * 1000)) (tasks w)
              (zero_counters ["backlog"; "todo"; "in_progress"; "review"; "done"])
              (zero_counters ["low"; "medium"; "high"; "critical"]) O)
    as (bs & bp & Hfold & Hbs & Hbp).
  exists bs, bp. rewrite Hfold. simpl. split; [done|]. split.
  - intros s Hs. rewrite (Hbs s O); [done| |].
    + intros ->. revert Hs. unfold VALID_STATUSES.
      rewrite !elem_of_cons, elem_of_nil. intros [?|[?|[?|[?|[?|[]]]]]]; discriminate.
    + revert Hs. unfold VALID_STATUSES.
      rewrite !elem_of_cons, elem_of_nil. intros [->|[->|[->|[->|[->|[]]]]]]; reflexivity.
  - intros p Hp. rewrite (Hbp p O); [done| |].
    + intros ->. revert Hp. unfold VALID_PRIORITIES.
      rewrite !elem_of_cons, elem_of_nil. intros [?|[?|[?|[?|[]]]]]; discriminate.
    + revert Hp. unfold VALID_PRIORITIES.
      rewrite !elem_of_cons, elem_of_nil. intros [->|[->|[->|[->|[]]]]]; reflexivity.
Qed.

(** For a field that holds a text, being counted under a key is being
    equal to it. *)
Lemma keyed_text field k t :
  typeof_string (t !! field) = true -> keyed field k t = strict_eq_str (t !! field) k.
Proof. unfold keyed. by destruct (t !! field) as [[| | | s | |]|]. Qed.

(** X7. When every [updated_at] is the timestamp of a time ([stamp]) and the
    call is made at time [now], the count of recently completed tasks is
    the number of done tasks last updated at [now] minus 24 hours or
    later: one updated 23 hours ago counts, one updated 25 hours ago does
    not. *)
Theorem stats_recent_window (env : Env) (w : World) (stamp : obj -> Z) :
  msPerDay <= clock env (ticks w) < maxTime ->
  Forall (fun t => t !! "updated_at" = Some (JStr (toISOString (stamp t))) /\
                   0 <= stamp t < maxTime) (tasks w) ->
  exists byStatus byPriority,
    (serve env GetStats w).1 =
      Response 200
        (PStats (length (tasks w)) byStatus byPriority
           (length (List.filter
              (fun t => is_done t && (clock env (ticks w) - 24 * hour <=? stamp t))
              (tasks w)))).
Proof.
  intros Hnow Hst.
  destruct (stats_run env w) as (bs & bp & Hs).
  exists bs, bp. rewrite Hs.
  assert (Hf : List.filter
                 (recent (toISOString (clock env (ticks w) - 24 * 60 * 60 * 1000))) (tasks w) =
               List.filter
                 (fun t => is_done t && (clock env (ticks w) - 24 * hour <=? stamp t))
                 (tasks w)).
  { apply List.filter_ext_in. intros t Ht.
    rewrite Forall_forall in Hst.
    destruct (Hst t) as [Hu Hr]; [by apply list_elem_of_In|].
    unfold recent, ge_str. rewrite Hu. f_equal.
    unfold msPerDay, hour in *.
    rewrite toISOString_leb; [reflexivity| |done].
    unfold maxTime in *. lia. }
  rewrite Hf. reflexivity.
Qed.

Lemma stats_recent_window_witness :
  exists byStatus byPriority,
    (serve sample_env GetStats done_world).1 =
      Response 200 (PStats 3 byStatus byPriority 1).
Proof.
  destruct (stats_recent_window sample_env done_world done_world_stamp)
    as (bs & bp & H).
  - unfold msPerDay, maxTime. simpl. lia.
  - unfold maxTime.
    repeat constructor; try (vm_compute; reflexivity); vm_compute; discriminate.
  - exists bs, bp. exact H.
Defined.

(** ** Delete, and the outcomes of every request *)

Lemma delete_outcome env id w :
  let '(resp, w') := serve env (DeleteTask id) w in
  (code resp = 404%nat /\ w' = w /\ findIndex (has_id id) (tasks w) = None) \/
  exists i t,
    findIndex (has_id id) (tasks w) = Some (i, t) /\
    tasks w' = take i (tasks w) ++ drop (S i) (tasks w) /\
    ((resp = Response 204 PNone /\ write_ok env (writes w) = true /\
      disk w' = Some (tasks w') /\
      sent w' = sent w ++
        [Event "task_deleted" t (Some (JStr (toISOString (clock env (ticks w)))))]) \/
     (code resp = 500%nat /\ write_ok env (writes w) = false /\
      disk w' = disk w /\ sent w' = sent w)).
Proof.
  run.
  destruct (findIndex (has_id id) (tasks w)) as [[i t]|] eqn:Hf; simpl; [|auto].
  destruct (write_ok env (writes w)) eqn:Hw; simpl; right; exists i, t; auto 10.
Qed.

Lemma clear_outcome env status w :
  let '(resp, w') := serve env (ClearDone status) w in
  (code resp = 400%nat /\ w' = w /\ status <> Some "done") \/
  (status = Some "done" /\
   tasks w' = List.filter (fun t => negb (is_done t)) (tasks w) /\
   ((code resp = 200%nat /\ write_ok env (writes w) = true /\
     disk w' = Some (tasks w') /\
     map ev_task (drop (length (sent w)) (sent w')) = List.filter is_done (tasks w)) \/
    (code resp = 500%nat /\ write_ok env (writes w) = false /\
     disk w' = disk w /\ sent w' = sent w))).
Proof.
  destruct (decide (status = Some "done")) as [->|Hne].
  - destruct (write_ok env (writes w)) eqn:Hw.
    + rewrite (clear_done_run env w Hw).
      simpl. right. split; [done|]. split; [done|]. left.
      repeat split; try done. rewrite drop_app_length.
      apply (imap_deleted_tasks (fun j => toISOString (clock env (ticks w + j)))).
    + unfold serve, try_catch, handler, clearDone. simpl.
      unfold mbind, M_bind, mret, M_ret, get_tasks, set_tasks, saveTasks. simpl.
      rewrite Hw. simpl. right. split; [done|]. split; [done|]. right. done.
  - unfold serve, try_catch, handler, clearDone.
    destruct status as [s|]; simpl.
    + destruct (String.eqb_spec s "done") as [->|Hs]; [done|]. simpl. by left.
    + by left.
Qed.

(** Bulk create on a body whose [tasks] is missing or not an array. *)
Lemma bulk_not_array env (b : obj) w :
  (forall elems, b !! "tasks" <> Some (JArr elems)) ->
  serve env (BulkCreate b) w =
    (Response 400 (PError ("Body must contain a " +:+ quoted "tasks" +:+ " array")), w).
Proof.
  intros Hb. unfold serve, try_catch, handler, bulkCreate.
  destruct (b !! "tasks") as [[| | | | l |]|]; simpl; try done.
  - by destruct b0.
  - by destruct (n =? 0).
  - by destruct (String.eqb s "").
  - by destruct (Hb l).
Qed.

Lemma list_outcome env q w :
  (serve env (ListTasks q) w).2 = w /\
  (code (serve env (ListTasks q) w).1 = 200%nat \/
   code (serve env (ListTasks q) w).1 = 500%nat).
Proof.
  unfold serve, try_catch, handler, listTasks. run.
  destruct (q_search q) as [s|]; simpl; [|auto].
  destruct (String.eqb s ""); simpl; [auto|].
  destruct (filterM _ _); simpl; auto.
Qed.

Lemma get_outcome env id w :
  (serve env (GetTask id) w).2 = w /\
  (code (serve env (GetTask id) w).1 = 200%nat \/
   code (serve env (GetTask id) w).1 = 404%nat).
Proof. run. destruct (findIndex _ _) as [[i t]|]; simpl; auto. Qed.

(** A mutation reports success only when the file was written. *)
Lemma success_write env r w :
  read_only r = false ->
  success (serve env r w).1 = true -> write_ok env (writes w) = true.
Proof.
  unfold success.
  destruct r as [q | id | b | id b | id | id b | | b | status]; try discriminate; intros _.
  - run. destruct (validateTaskInput _ _) as [[|]|]; simpl; try done.
    destruct (newTask _ _ _); simpl; [|done].
    destruct (write_ok env (writes w)); simpl; done.
  - run. destruct (findIndex _ _) as [[i old]|]; simpl; [|done].
    destruct (validateTaskInput (JObj b) true) as [[|]|] eqn:Hval; simpl; try done.
    destruct (b !! "title") as [v|] eqn:Htitle; simpl.
    + destruct (validate_Ok_title _ _ _ Hval v) as [s ->]; [simpl; by rewrite Htitle|].
      simpl. destruct (write_ok env (writes w)); simpl; done.
    + destruct (write_ok env (writes w)); simpl; done.
  - run. destruct (findIndex _ _) as [[i old]|]; simpl; [|done].
    destruct (write_ok env (writes w)); simpl; done.
  - run. destruct (findIndex _ _) as [[i old]|]; simpl; [|done].
    destruct (truthy (b !! "status")); simpl; [|done].
    destruct (includes_str VALID_STATUSES (b !! "status")); simpl; [|done].
    destruct (write_ok env (writes w)); simpl; done.
  - destruct (b !! "tasks") as [[| | | | elems |]|] eqn:Hb;
      try (rewrite bulk_not_array by (intros elems; congruence); done).
    pose proof (bulk_outcome env b elems w Hb) as H. simpl in H.
    destruct (serve env (BulkCreate b) w) as [resp w']. simpl.
    destruct H as [_ H].
    destruct (existsb throws elems); [destruct H as [-> _]; done|].
    destruct (_ && _); [destruct H as [-> _]; done|].
    destruct (write_ok env (writes w)); [done|]. destruct H as [-> _]. done.
  - pose proof (clear_outcome env status w) as H.
    destruct (serve env (ClearDone status) w) as [resp w']. simpl.
    destruct H as [(-> & _)|(_ & _ & [(_ & Hw & _)|(-> & _)])]; done.
Qed.

(** Every request ends in one of three ways: success (a read leaves
    tasks, file and log alone; a mutation has written the file, which
    then holds the tasks in memory), a rejection (400 or 404) with the
    state untouched, or a failure (500) with file and log untouched. *)
Lemma serve_summary env r w :
  let '(resp, w') := serve env r w in
  (success resp = true /\
   ((read_only r = true /\ tasks w' = tasks w /\ disk w' = disk w /\ sent w' = sent w) \/
    (read_only r = false /\ write_ok env (writes w) = true /\
     disk w' = Some (tasks w')))) \/
  (rejected resp /\ w' = w) \/
  (code resp = 500%nat /\ disk w' = disk w /\ sent w' = sent w).
Proof.
  pose proof (success_write env r w) as Hsw.
  unfold rejected, success in *.
  destruct r as [q | id | b | id b | id | id b | | b | status].
  - destruct (list_outcome env q w) as [Hw Hc].
    destruct (serve env (ListTasks q) w) as [resp w']. simpl in *. subst w'.
    destruct Hc as [-> | ->]; simpl; auto 10.
  - destruct (get_outcome env id w) as [Hw Hc].
    destruct (serve env (GetTask id) w) as [resp w']. simpl in *. subst w'.
    destruct Hc as [-> | ->]; simpl; auto 10.
  - pose proof (create_outcome env b w) as H.
    destruct (serve env (CreateTask b) w) as [resp w']. simpl in Hsw.
    destruct H as [(Hc & -> & _)|[(Hc & -> & _)|(task & _ & _ & _ & H)]]; rewrite ?Hc; auto 10.
    destruct H as [(Hc & _ & Hd & _)|(Hc & Hw & Hd & Hs)]; rewrite Hc in *; simpl; auto 10.
  - pose proof (update_outcome env id b w) as H.
    destruct (serve env (UpdateTask id b) w) as [resp w']. simpl in Hsw.
    destruct H as [(Hc & -> & _)|[(Hc & ->)|[(Hc & -> & _)|
      (i & old & new & _ & _ & _ & _ & H)]]]; rewrite ?Hc; auto 10.
    destruct H as [(Hc & _ & Hd & _)|(Hc & Hw & Hd & Hs)]; rewrite Hc in *; simpl; auto 10.
  - pose proof (delete_outcome env id w) as H.
    destruct (serve env (DeleteTask id) w) as [resp w']. simpl in Hsw.
    destruct H as [(Hc & -> & _)|(i & t & _ & _ & H)]; rewrite ?Hc; auto 10.
    destruct H as [(-> & Hw & Hd & _)|(Hc & Hw & Hd & Hs)]; rewrite ?Hc; simpl; auto 10.
  - pose proof (move_outcome env id b w) as H.
    destruct (serve env (MoveTask id b) w) as [resp w']. simpl in Hsw.
    destruct H as [(Hc & -> & _)|[(Hc & -> & _)|
      (i & old & new & _ & _ & _ & _ & H)]]; rewrite ?Hc; auto 10.
    destruct H as [(Hc & _ & Hd & _)|(Hc & Hw & Hd & Hs)]; rewrite Hc in *; simpl; auto 10.
  - unfold serve, try_catch, handler, getStats. run.
    destruct (fold_left _ _ _) as [[bs bp] rc]. simpl. auto 10.
  - destruct (b !! "tasks") as [[| | | | elems |]|] eqn:Hb;
      try (rewrite bulk_not_array by (intros elems; congruence); simpl; auto 10).
    pose proof (bulk_outcome env b elems w Hb) as H. simpl in H.
    destruct (serve env (BulkCreate b) w) as [resp w']. simpl in Hsw.
    destruct H as [_ H].
    destruct (existsb throws elems); [destruct H as (-> & ? & ?); auto 10|].
    destruct (_ && _); [destruct H as (-> & ->); auto 10|].
    destruct (write_ok env (writes w)).
    + destruct H as (-> & ? & ?). simpl. auto 10.
    + destruct H as (-> & ? & ?). auto 10.
  - pose proof (clear_outcome env status w) as H.
    destruct (serve env (ClearDone status) w) as [resp w']. simpl in Hsw.
    destruct H as [(-> & -> & _)|(_ & _ & [(-> & Hw & Hd & _)|(-> & Hw & Hd & Hs)])];
      simpl; auto 10.
Qed.

(** X8. Whatever the operation, a request answered 400 or 404 leaves the
    whole state as it was: tasks, file, log, and the counts of clock
    readings, ids and writes. *)
Theorem rejection_changes_nothing (env : Env) (r : request) (w : World) :
  rejected (serve env r w).1 -> (serve env r w).2 = w.
Proof.
  pose proof (serve_summary env r w) as H. unfold rejected, success in *.
  destruct (serve env r w) as [resp w']. simpl.
  destruct H as [[Hs _]|[[_ Hw]|[Hc _]]]; [|done|].
  - intros [Hc|Hc]; rewrite Hc in Hs; discriminate.
  - intros [Hc'|Hc']; congruence.
Qed.

Lemma rejection_changes_nothing_witness :
  (serve sample_env (DeleteTask "nobody") sample_world).2 = sample_world /\
  (serve sample_env (ClearDone (Some "todo")) sample_world).2 = sample_world /\
  (serve sample_env (BulkCreate {["tasks" := JArr [JObj ∅; JNum 3]]}) sample_world).2
    = sample_world.
Proof.
  split; [|split]; apply rejection_changes_nothing; [right|left|left];
    vm_compute; reflexivity.
Defined.

(** X9. Whatever the operation, a request that does not succeed writes
    nothing to the file and broadcasts nothing. *)
Theorem failure_saves_and_sends_nothing (env : Env) (r : request) (w : World) :
  success (serve env r w).1 = false ->
  disk (serve env r w).2 = disk w /\ sent (serve env r w).2 = sent w.
Proof.
  pose proof (serve_summary env r w) as H.
  destruct (serve env r w) as [resp w']. simpl.
  destruct H as [[Hs _]|[[_ ->]|(_ & Hd & Hs)]]; [congruence|done|done].
Qed.

Lemma failure_saves_and_sends_nothing_witness :
  disk (serve failing_env (CreateTask {["title" := JStr "A"]}) sample_world).2 = None /\
  sent (serve failing_env (CreateTask {["title" := JStr "A"]}) sample_world).2 = [].
Proof.
  apply (failure_saves_and_sends_nothing failing_env
           (CreateTask {["title" := JStr "A"]}) sample_world).
  vm_compute. reflexivity.
Defined.

(** X10. A create, update, delete, move, bulk create or clear done that
    reports success has written the file, and the file then holds exactly
    the tasks in memory. *)
Theorem success_means_saved (env : Env) (r : request) (w : World) :
  read_only r = false ->
  success (serve env r w).1 = true ->
  write_ok env (writes w) = true /\
  disk (serve env r w).2 = Some (tasks (serve env r w).2).
Proof.
  intros Hr. pose proof (serve_summary env r w) as H. unfold rejected, success in *.
  destruct (serve env r w) as [resp w']. simpl.
  destruct H as [[_ [(Hr' & _)|(_ & Hw & Hd)]]|[[Hc _]|[Hc _]]]; try congruence; try done.
  - destruct Hc as [Hc|Hc]; rewrite Hc; discriminate.
  - rewrite Hc. discriminate.
Qed.

Lemma success_means_saved_witness :
  disk (serve sample_env (DeleteTask "b") sample_world).2 =
    Some [sample_task "a" "todo" 2; sample_task "c" "todo" 0].
Proof.
  destruct (success_means_saved sample_env (DeleteTask "b") sample_world) as [_ H].
  - reflexivity.
  - vm_compute. reflexivity.
  - rewrite H. vm_compute. reflexivity.
Defined.

(** ** The validator, in full *)



(** X12. On every object whose title is present and not a text, or whose tags
    are present and not an array, the validator throws a [TypeError]
    instead of returning messages, in both modes. *)
Theorem validator_throws_on_wrong_types (data : obj) (isUpdate : bool) :
  ill_typed data = true ->
  exists msg, validateTaskInput (JObj data) isUpdate = Throw (TypeError msg).
Proof.
  unfold ill_typed, validateTaskInput. simpl. intros H.
  destruct (data !! "title") as [[| | | s | |]|]; simpl in *; eauto;
  destruct (data !! "tags") as [[| | | | l |]|]; simpl in *; eauto; discriminate.
Qed.

Lemma validator_throws_on_wrong_types_witness :
  exists msg,
    validateTaskInput (JObj {["title" := JStr "A"; "tags" := JNull]}) true
      = Throw (TypeError msg).
Proof.
  apply (validator_throws_on_wrong_types {["title" := JStr "A"; "tags" := JNull]} true).
  reflexivity.
Defined.

(** X13. A candidate that is not an object: [null] makes the validator throw,
    and a number, a text, a truth value or an array is answered like an
    empty object. *)
Theorem validator_on_non_objects (data : jsval) (isUpdate : bool) :
  (forall m, data <> JObj m) ->
  (data = JNull /\ exists msg, validateTaskInput data isUpdate = Throw (TypeError msg)) \/
  (data <> JNull /\
   validateTaskInput data isUpdate = validateTaskInput (JObj ∅) isUpdate /\
   validateTaskInput data isUpdate = Ok (if isUpdate then [] else ["Title is required"])).
Proof.
  intros Hobj.
  destruct data as [| b | n | s | l | m]; [left|right..|by destruct (Hobj m)];
    [split; [done|]; unfold validateTaskInput; simpl; eauto|..];
    (split; [done|]); destruct isUpdate; split; reflexivity.
Qed.

Lemma validator_on_non_objects_witness :
  validateTaskInput (JStr "buy milk") false = Ok ["Title is required"].
Proof.
  destruct (validator_on_non_objects (JStr "buy milk") false) as [[H _]|(_ & _ & H)].
  - intros m. discriminate.
  - discriminate H.
  - exact H.
Defined.

(** ** What passing the validator means *)

Lemma violations_nil (m : obj) u :
  validateTaskInput (JObj m) u = Ok [] ->
  ill_typed m = false /\ Forall (fun r => fst r = false) (rules m u).
Proof.
  intros H. destruct (ill_typed m) eqn:Hty.
  - destruct (validate_ill_typed m u Hty) as [msg Hmsg]. congruence.
  - split; [done|]. rewrite validate_well_typed in H by done. injection H as H.
    unfold violations in H.
    induction (rules m u) as [|[c msg] l IH]; [constructor|].
    simpl in H. destruct c; [discriminate|]. constructor; auto.
Qed.

(** A candidate that passes: its title is a text with something other
    than white space, its status and priority are absent or of the
    enumeration, and its tags are absent or an array of texts. *)
Lemma validate_Ok_nil (m : obj) u :
  validateTaskInput (JObj m) u = Ok [] ->
  (match m !! "title" with
   | Some (JStr s) => (String.length (trim s) =? 0)%nat = false
   | Some _ => False
   | None => u = true
   end) /\
  outside VALID_STATUSES (m !! "status") = false /\
  outside VALID_PRIORITIES (m !! "priority") = false /\
  (m !! "tags" = None \/ text_array (m !! "tags") = true).
Proof.
  intros H. apply violations_nil in H as [Hty H].
  unfold rules in H. repeat (apply Forall_cons in H as [? H]). simpl in *.
  unfold ill_typed in Hty. apply orb_false_elim in Hty as [Ht Hg].
  split; [|split; [done|split; [done|]]].
  - destruct (m !! "title") as [[| | | s | |]|]; simpl in *; try done.
    by destruct u.
  - destruct (m !! "tags") as [[| | | | l |]|]; simpl in *; try done; [|by left].
    right. by apply negb_false_iff.
Qed.

Lemma length_nonempty s : (String.length s =? 0)%nat = false -> String.eqb s "" = false.
Proof. by destruct s. Qed.

Lemma outside_or_else allowed v d :
  outside allowed v = false -> includes_str allowed (Some (JStr d)) = true ->
  Forall (fun a => a <> "") allowed ->
  includes_str allowed (Some (or_else v (JStr d))) = true.
Proof.
  unfold outside, or_else. intros Hout Hd Hne.
  destruct v as [x|]; [|done].
  cbn [defined andb] in Hout. apply negb_false_iff in Hout.
  destruct (truthy (Some x)) eqn:Htr; [done|].
  unfold includes_str in Hout. apply existsb_exists in Hout as (a & Hin & Ha).
  destruct x as [| b | n | s | l | o]; simpl in Ha; try discriminate.
  apply String.eqb_eq in Ha as ->.
  simpl in Htr. apply negb_false_iff, String.eqb_eq in Htr as ->.
  rewrite List.Forall_forall in Hne. apply Hne in Hin. done.
Qed.

(** ** The fields of a new task *)

(** The object literal of create and bulk create, field by field. *)
Lemma newTask_lookup id now (m : obj) s :
  m !! "title" = Some (JStr s) ->
  exists task,
    newTask id now (JObj m) = Ok task /\
    task !! "id" = Some (JStr id) /\
    task !! "title" = Some (JStr (trim s)) /\
    (forall k d, (k, d) ∈ defaults -> task !! k = Some (or_else (m !! k) d)) /\
    task !! "created_at" = Some (JStr now) /\
    task !! "updated_at" = Some (JStr now) /\
    task !! "order" = Some (match m !! "order" with Some v => v | None => JNum 0 end) /\
    (forall k, k ∉ task_fields -> task !! k = None).
Proof.
  intros Ht. unfold newTask. simpl. rewrite Ht. simpl. eexists. split; [reflexivity|].
  split; [reflexivity|]. split; [reflexivity|]. split; [|split; [reflexivity|]].
  - intros k d Hk. unfold defaults in Hk.
    repeat (apply elem_of_cons in Hk as [[= -> ->]|Hk]; [reflexivity|]).
    by apply elem_of_nil in Hk.
  - split; [reflexivity|]. split; [reflexivity|].
    intros k Hk. unfold task_fields in Hk.
    repeat (apply not_elem_of_cons in Hk as [? Hk]).
    repeat (rewrite lookup_insert_ne by done). apply lookup_empty.
Qed.

(** A task made from a candidate that passes is well formed. *)
Lemma newTask_well_formed id now e task :
  validateTaskInput e false = Ok [] ->
  newTask id now e = Ok task ->
  well_formed task = true.
Proof.
  intros Hval Hnew.
  destruct (validate_create_Ok _ Hval) as (m & s & -> & Ht).
  destruct (validate_Ok_nil _ _ Hval) as (Htitle & Hst & Hpr & Htags).
  rewrite Ht in Htitle.
  destruct (newTask_lookup id now m s Ht)
    as (task' & Hnew' & Hid & Htl & Hdef & Hc & Hu & Ho & _).
  rewrite Hnew in Hnew'. injection Hnew' as <-.
  unfold well_formed, task_fields. cbn [forallb].
  rewrite Hid, Htl, Hc, Hu, Ho.
  rewrite (Hdef "description" (JStr "")), (Hdef "status" (JStr "backlog")),
    (Hdef "priority" (JStr "medium")), (Hdef "tags" (JArr [])),
    (Hdef "assignee" (JStr "")) by (unfold defaults; repeat constructor).
  cbn [defined typeof_string andb].
  rewrite (outside_or_else _ _ _ Hst), (outside_or_else _ _ _ Hpr);
    [| done | unfold VALID_PRIORITIES; by repeat constructor
     | done | unfold VALID_STATUSES; by repeat constructor].
  cbn [andb]. unfold truthy. rewrite (length_nonempty _ Htitle). cbn [negb andb].
  destruct Htags as [-> | Htags]; [reflexivity|].
  destruct (m !! "tags") as [[| | | | l |]|]; try discriminate.
  simpl in *. by rewrite Htags.
Qed.

(** ** Stored tasks stay well formed *)

Lemma well_formed_spec t :
  well_formed t = true <->
  (defined (t !! "description") = true /\ defined (t !! "assignee") = true /\
   defined (t !! "order") = true) /\
  typeof_string (t !! "id") = true /\
  typeof_string (t !! "title") = true /\ truthy (t !! "title") = true /\
  includes_str VALID_STATUSES (t !! "status") = true /\
  includes_str VALID_PRIORITIES (t !! "priority") = true /\
  text_array (t !! "tags") = true /\
  typeof_string (t !! "created_at") = true /\ typeof_string (t !! "updated_at") = true.
Proof.
  unfold well_formed, task_fields. cbn [forallb]. rewrite !andb_true_iff.
  split.
  - intros H; repeat match goal with H : _ /\ _ |- _ => destruct H end. auto 15.
  - intros ((? & ? & ?) & Hid & Htl & ? & Hs & Hp & Hg & Hc & Hu).
    assert (Hd : forall v, typeof_string v = true -> defined v = true)
      by (by intros [[]|]).
    assert (defined (t !! "status") = true).
    { destruct (t !! "status"); [done|]. discriminate Hs. }
    assert (defined (t !! "priority") = true).
    { destruct (t !! "priority"); [done|]. discriminate Hp. }
    assert (defined (t !! "tags") = true).
    { destruct (t !! "tags"); [done|]. discriminate Hg. }
    repeat split; auto.
Qed.

Lemma outside_kept allowed (v old : option jsval) :
  outside allowed v = false -> includes_str allowed old = true ->
  includes_str allowed (match v with Some x => Some x | None => old end) = true.
Proof.
  unfold outside. destruct v as [x|]; [|done]. cbn [defined andb].
  intros H _. by apply negb_false_iff in H.
Qed.

Lemma defined_kept (v old : option jsval) :
  defined old = true -> defined (match v with Some x => Some x | None => old end) = true.
Proof. by destruct v. Qed.

(** The record an update leaves is well formed when the stored one was
    and the request passed the validator. *)
Lemma update_record_well_formed now old body :
  well_formed old = true ->
  validateTaskInput (JObj body) true = Ok [] ->
  well_formed (update_record now old body) = true.
Proof.
  rewrite !well_formed_spec.
  intros ((Hd & Ha & Ho) & Hid & Htl & Htr & Hs & Hp & Hg & Hc & Hu) Hval.
  destruct (validate_Ok_nil _ _ Hval) as (Htitle & Hst & Hpr & Htags).
  rewrite !update_record_lookup. cbn [String.eqb Ascii.eqb Bool.eqb].
  split; [|split; [|split; [|split; [|split; [|split; [|split; [|split]]]]]]]; try done.
  - by auto using defined_kept.
  - destruct (body !! "title") as [[| | | s | |]|]; done.
  - destruct (body !! "title") as [[| | | s | |]|]; try done.
    simpl. by rewrite (length_nonempty _ Htitle).
  - by apply outside_kept.
  - by apply outside_kept.
  - destruct Htags as [-> | Htags]; [done|].
    by destruct (body !! "tags").
Qed.

(** The record a move leaves is well formed when the stored one was and
    the status of the request is of the enumeration. *)
Lemma move_record_well_formed now old body :
  well_formed old = true ->
  includes_str VALID_STATUSES (body !! "status") = true ->
  well_formed (move_record now old body) = true.
Proof.
  rewrite !well_formed_spec.
  intros ((Hd & Ha & Ho) & Hid & Htl & Htr & Hs & Hp & Hg & Hc & Hu) Hin.
  rewrite !move_record_lookup. cbn [String.eqb Ascii.eqb Bool.eqb].
  split; [|done]. split; [done|]. split; [done|]. by apply defined_kept.
Qed.

Lemma Forall_filter_keeps {A} (P : A -> Prop) (p : A -> bool) (l : list A) :
  Forall P l -> Forall P (List.filter p l).
Proof.
  induction 1 as [|x l Hx Hl IH]; simpl; [constructor|].
  destruct (p x); [by constructor | done].
Qed.

Lemma bulk_created_well_formed env elems : forall t d,
  Forall (fun task => well_formed task = true) (bulk_created env t d elems).
Proof.
  induction elems as [|e rest IH]; intros t d; simpl; [constructor|].
  destruct (passes e) eqn:Hp.
  - destruct (newTask _ _ e) as [task|] eqn:Hnew; [|constructor].
    constructor; [|apply IH].
    unfold passes in Hp.
    destruct (validateTaskInput e false) as [[|]|] eqn:Hval; try discriminate.
    by eapply newTask_well_formed.
  - destruct (throws e); [constructor|apply IH].
Qed.

(** X14. Whatever is asked and however it ends, the tasks in memory stay
    well formed: each has its ten fields, an id and two timestamps that
    are texts, a title that is a text and not empty, a status and a
    priority of the enumerations, and tags that are an array of texts. *)
Theorem store_stays_well_formed (env : Env) (r : request) (w : World) :
  Forall (fun t => well_formed t = true) (tasks w) ->
  Forall (fun t => well_formed t = true) (tasks (serve env r w).2).
Proof.
  intros Hwf.
  destruct r as [q | id | b | id b | id | id b | | b | status].
  - by rewrite (proj1 (read_only_unchanged env (ListTasks q) w eq_refl)).
  - by rewrite (proj1 (read_only_unchanged env (GetTask id) w eq_refl)).
  - pose proof (create_outcome env b w) as H.
    destruct (serve env (CreateTask b) w) as [resp w']. simpl.
    destruct H as [(_ & -> & _)|[(_ & -> & _)|(task & Hval & Hnew & -> & _)]]; try done.
    apply Forall_app. split; [done|]. constructor; [|constructor].
    by eapply newTask_well_formed.
  - pose proof (update_outcome env id b w) as H.
    destruct (serve env (UpdateTask id b) w) as [resp w']. simpl.
    destruct H as [(_ & -> & _)|[(_ & ->)|[(_ & -> & _)|
      (i & old & new & Hf & Hval & -> & -> & _)]]]; try done.
    apply findIndex_Some in Hf as [Hi _].
    apply Forall_insert; [done|].
    apply update_record_well_formed; [|done].
    by eapply (Forall_lookup_1 _ _ _ _ Hwf).
  - pose proof (delete_outcome env id w) as H.
    destruct (serve env (DeleteTask id) w) as [resp w']. simpl.
    destruct H as [(_ & -> & _)|(i & t & _ & -> & _)]; [done|].
    apply Forall_app. split; [by apply Forall_take | by apply Forall_drop].
  - pose proof (move_outcome env id b w) as H.
    destruct (serve env (MoveTask id b) w) as [resp w']. simpl.
    destruct H as [(_ & -> & _)|[(_ & -> & _)|
      (i & old & new & Hf & Hin & -> & -> & _)]]; try done.
    apply findIndex_Some in Hf as [Hi _].
    apply Forall_insert; [done|].
    apply move_record_well_formed; [|done].
    by eapply (Forall_lookup_1 _ _ _ _ Hwf).
  - by rewrite (proj1 (read_only_unchanged env GetStats w eq_refl)).
  - destruct (b !! "tasks") as [[| | | | elems |]|] eqn:Hb;
      try (by rewrite bulk_not_array by (intros elems; congruence)).
    pose proof (bulk_outcome env b elems w Hb) as H. simpl in H.
    destruct (serve env (BulkCreate b) w) as [resp w']. simpl.
    destruct H as [-> _].
    apply Forall_app. split; [done|]. apply bulk_created_well_formed.
  - pose proof (clear_outcome env status w) as H.
    destruct (serve env (ClearDone status) w) as [resp w']. simpl.
    destruct H as [(_ & -> & _)|(_ & -> & _)]; [done|].
    by apply Forall_filter_keeps.
Qed.

Lemma store_stays_well_formed_witness :
  Forall (fun t => well_formed t = true)
    (tasks (serve sample_env
              (UpdateTask "b" {["title" := JStr " Review the report ";
                                "status" := JStr "review"; "id" := JNum 7]})
              sample_world).2).
Proof.
  apply (store_stays_well_formed sample_env
           (UpdateTask "b" {["title" := JStr " Review the report ";
                             "status" := JStr "review"; "id" := JNum 7]})
           sample_world).
  repeat constructor.
Defined.

(** ** Ids stay distinct *)

(** Create in closed form, for a request that passes the validator. *)
Lemma create_run env b w :
  validateTaskInput (JObj b) false = Ok [] ->
  exists task,
    newTask (uuid env (draws w)) (toISOString (clock env (ticks w))) (JObj b) = Ok task /\
    serve env (CreateTask b) w =
      if write_ok env (writes w)
      then (Response 201 (PTask task),
            mkWorld (tasks w ++ [task]) (Some (tasks w ++ [task]))
              (sent w ++ [Event "task_created" task
                            (Some (JStr (toISOString (clock env (ticks w)))))])
              (S (ticks w)) (S (draws w)) (S (writes w)))
      else (Response 500 (PError "Internal server error"),
            mkWorld (tasks w ++ [task]) (disk w) (sent w)
              (S (ticks w)) (S (draws w)) (S (writes w))).
Proof.
  intros Hval.
  destruct (newTask_Ok (uuid env (draws w)) (toISOString (clock env (ticks w))) _ Hval)
    as [task Htask].
  exists task. split; [done|].
  run. rewrite Hval. simpl. rewrite Htask. simpl.
  destruct (write_ok env (writes w)); reflexivity.
Qed.

(** Only create and bulk create draw ids. *)
Lemma draws_kept env r w :
  match r with CreateTask _ | BulkCreate _ => False | _ => True end ->
  draws (serve env r w).2 = draws w.
Proof.
  destruct r as [q | id | b | id b | id | id b | | b | status]; try done; intros _.
  - by rewrite (proj1 (list_outcome env q w)).
  - by rewrite (proj1 (get_outcome env id w)).
  - run. destruct (findIndex _ _) as [[i old]|]; simpl; [|done].
    destruct (validateTaskInput (JObj b) true) as [[|]|] eqn:Hval; simpl; try done.
    destruct (b !! "title") as [v|] eqn:Htitle; simpl.
    + destruct (validate_Ok_title _ _ _ Hval v) as [s ->]; [simpl; by rewrite Htitle|].
      simpl. destruct (write_ok env (writes w)); simpl; done.
    + destruct (write_ok env (writes w)); simpl; done.
  - run. destruct (findIndex _ _) as [[i old]|]; simpl; [|done].
    destruct (write_ok env (writes w)); simpl; done.
  - run. destruct (findIndex _ _) as [[i old]|]; simpl; [|done].
    destruct (truthy (b !! "status")); simpl; [|done].
    destruct (includes_str VALID_STATUSES (b !! "status")); simpl; [|done].
    destruct (write_ok env (writes w)); simpl; done.
  - unfold serve, try_catch, handler, getStats. run.
    destruct (fold_left _ _ _) as [[bs bp] rc]. done.
  - destruct (decide (status = Some "done")) as [->|Hne].
    + destruct (write_ok env (writes w)) eqn:Hw.
      * by rewrite (clear_done_run env w Hw).
      * unfold serve, try_catch, handler, clearDone. simpl.
        unfold mbind, M_bind, mret, M_ret, get_tasks, set_tasks, saveTasks. simpl.
        by rewrite Hw.
    + pose proof (clear_outcome env status w) as H.
      destruct (serve env (ClearDone status) w) as [resp w']. simpl.
      destruct H as [(_ & -> & _)|(-> & _)]; done.
Qed.

(** Bulk create draws one id per task it creates. *)
Lemma bulk_draws env (b : obj) elems w :
  b !! "tasks" = Some (JArr elems) ->
  draws (serve env (BulkCreate b) w).2 =
    (draws w + length (bulk_created env (ticks w) (draws w) elems))%nat.
Proof.
  intros Hb. unfold serve, try_catch, handler, bulkCreate.
  rewrite Hb. unfold mbind at 1, M_bind at 1. simpl.
  destruct (existsb throws elems) eqn:Hth.
  - destruct (bulk_loop_throw env elems 0%nat [] [] w Hth) as [ex ->]. done.
  - rewrite bulk_loop_no_throw by done. simpl.
    destruct ((0 <? length (bulk_errors 0 elems))%nat &&
              (length (bulk_created env (ticks w) (draws w) elems) =? 0)%nat) eqn:Hc; simpl.
    + done.
    + unfold mbind, M_bind, mret, M_ret, saveTasks. simpl.
      destruct (write_ok env (writes w)); simpl; [|done].
      rewrite forEach_broadcast. done.
Qed.

Lemma ids_insert (l : list obj) i old new :
  l !! i = Some old -> new !! "id" = old !! "id" -> ids (<[i := new]> l) = ids l.
Proof.
  intros Hi Hid. unfold ids. rewrite list_fmap_insert.
  apply list_insert_id. rewrite list_lookup_fmap, Hi. simpl. by rewrite Hid.
Qed.

Lemma ids_app l k : ids (l ++ k) = ids l ++ ids k.
Proof. apply map_app. Qed.

Lemma bulk_created_ids env elems t d :
  ids (bulk_created env t d elems) =
    map (fun n => Some (JStr (uuid env n)))
        (seq d (length (bulk_created env t d elems))).
Proof.
  apply list_eq. intros j. unfold ids.
  rewrite !list_lookup_fmap.
  destruct (bulk_created env t d elems !! j) as [task|] eqn:Hj; simpl.
  - pose proof (lookup_lt_Some _ _ _ Hj) as Hlt.
    rewrite (lookup_seq_lt _ _ _ Hlt). simpl.
    by destruct (bulk_created_own _ _ _ _ _ _ Hj) as (-> & _).
  - apply lookup_ge_None in Hj. by rewrite lookup_seq_ge.
Qed.

(** What a request does to the ids of the store: it keeps some of them,
    in their order, and adds the ids drawn for it. *)
Lemma serve_ids env r w :
  exists kept k,
    kept `sublist_of` ids (tasks w) /\
    draws (serve env r w).2 = (draws w + k)%nat /\
    ids (tasks (serve env r w).2) =
      kept ++ map (fun n => Some (JStr (uuid env n))) (seq (draws w) k).
Proof.
  assert (Hsame : forall r, match r with CreateTask _ | BulkCreate _ => False | _ => True end ->
            ids (tasks (serve env r w).2) `sublist_of` ids (tasks w) ->
            exists kept k,
              kept `sublist_of` ids (tasks w) /\
              draws (serve env r w).2 = (draws w + k)%nat /\
              ids (tasks (serve env r w).2) =
                kept ++ map (fun n => Some (JStr (uuid env n))) (seq (draws w) k)).
  { intros r' Hr Hsub. exists (ids (tasks (serve env r' w).2)), 0%nat.
    rewrite (draws_kept env r' w Hr). simpl. by rewrite app_nil_r, Nat.add_0_r. }
  destruct r as [q | id | b | id b | id | id b | | b | status].
  - apply Hsame; [done|]. by rewrite (proj1 (list_outcome env q w)).
  - apply Hsame; [done|]. by rewrite (proj1 (get_outcome env id w)).
  - destruct (validateTaskInput (JObj b) false) as [[|m errs]|ex] eqn:Hval.
    + destruct (create_run env b w Hval) as (task & Hnew & ->).
      exists (ids (tasks w)), 1%nat.
      destruct (newTask_fields _ _ _ _ Hnew) as (Hid & _).
      destruct (write_ok env (writes w)); simpl;
        rewrite ids_app; simpl; rewrite Hid, Nat.add_1_r; done.
    + pose proof (create_outcome env b w) as H.
      destruct (serve env (CreateTask b) w) as [resp w']. simpl.
      exists (ids (tasks w)), 0%nat. simpl. rewrite app_nil_r, Nat.add_0_r.
      destruct H as [(_ & -> & _)|[(_ & -> & _)|(task & ? & _)]];
        [done | done | congruence].
    + pose proof (create_outcome env b w) as H.
      destruct (serve env (CreateTask b) w) as [resp w']. simpl.
      exists (ids (tasks w)), 0%nat. simpl. rewrite app_nil_r, Nat.add_0_r.
      destruct H as [(_ & -> & _)|[(_ & -> & _)|(task & ? & _)]];
        [done | done | congruence].
  - apply Hsame; [done|].
    pose proof (update_outcome env id b w) as H.
    destruct (serve env (UpdateTask id b) w) as [resp w']. simpl.
    destruct H as [(_ & -> & _)|[(_ & ->)|[(_ & -> & _)|
      (i & old & new & Hf & Hval & -> & -> & _)]]]; try done.
    apply findIndex_Some in Hf as [Hi _].
    rewrite (ids_insert _ _ old); [done|done|].
    by rewrite update_record_lookup.
  - apply Hsame; [done|].
    pose proof (delete_outcome env id w) as H.
    destruct (serve env (DeleteTask id) w) as [resp w']. simpl.
    destruct H as [(_ & -> & _)|(i & t & _ & -> & _)]; [done|].
    unfold ids. apply fmap_sublist.
    rewrite <- (take_drop i (tasks w)) at 3.
    apply sublist_app; [done|].
    replace (S i) with (i + 1)%nat by lia. rewrite <- drop_drop. apply sublist_drop.
  - apply Hsame; [done|].
    pose proof (move_outcome env id b w) as H.
    destruct (serve env (MoveTask id b) w) as [resp w']. simpl.
    destruct H as [(_ & -> & _)|[(_ & -> & _)|
      (i & old & new & Hf & Hin & -> & -> & _)]]; try done.
    apply findIndex_Some in Hf as [Hi _].
    rewrite (ids_insert _ _ old); [done|done|].
    by rewrite move_record_lookup.
  - apply Hsame; [done|].
    by rewrite (proj1 (read_only_unchanged env GetStats w eq_refl)).
  - destruct (b !! "tasks") as [[| | | | elems |]|] eqn:Hb;
      try (rewrite bulk_not_array by (intros elems; congruence);
           exists (ids (tasks w)), 0%nat; simpl; by rewrite app_nil_r, Nat.add_0_r).
    exists (ids (tasks w)), (length (bulk_created env (ticks w) (draws w) elems)).
    split; [done|]. split; [by apply bulk_draws|].
    pose proof (bulk_outcome env b elems w Hb) as H. simpl in H.
    destruct (serve env (BulkCreate b) w) as [resp w']. simpl.
    destruct H as [-> _]. by rewrite ids_app, bulk_created_ids.
  - apply Hsame; [done|].
    pose proof (clear_outcome env status w) as H.
    destruct (serve env (ClearDone status) w) as [resp w']. simpl.
    destruct H as [(_ & -> & _)|(_ & -> & _)]; [done|].
    unfold ids. apply fmap_sublist. clear.
    induction (tasks w) as [|x l IH]; simpl; [done|].
    destruct (negb (is_done x)); by constructor.
Qed.

(** Distinct ids stay distinct when the ids drawn are new. *)
Lemma distinct_ids_kept env (kept : list (option jsval)) (l l' : list obj) d k :
  (forall n m, uuid env n = uuid env m -> n = m) ->
  NoDup (ids l) ->
  (forall n, (d <= n)%nat -> Some (JStr (uuid env n)) ∉ ids l) ->
  kept `sublist_of` ids l ->
  ids l' = kept ++ map (fun n => Some (JStr (uuid env n))) (seq d k) ->
  NoDup (ids l') /\
  (forall n, (d + k <= n)%nat -> Some (JStr (uuid env n)) ∉ ids l').
Proof.
  intros Hinj Hnd Hfresh Hsub Hids. rewrite Hids.
  assert (Hkept : forall x, x ∈ kept -> x ∈ ids l).
  { intros x Hx. by eapply elem_of_sublist. }
  split.
  - apply NoDup_app. split; [by eapply sublist_NoDup|]. split.
    + intros x Hx Hnew. apply list_elem_of_fmap in Hnew as (n & -> & Hn).
      apply elem_of_seq in Hn. apply (Hfresh n); [lia|auto].
    + apply NoDup_fmap_2; [|apply NoDup_seq].
      intros n m [= H]. by apply Hinj.
  - intros n Hn Hin. apply elem_of_app in Hin as [Hin|Hin].
    + apply (Hfresh n); [lia|auto].
    + apply list_elem_of_fmap in Hin as (m & [= Hm] & Hseq).
      apply Hinj in Hm as ->. apply elem_of_seq in Hseq. lia.
Qed.

(** X15. When [uuidv4] never answers the same id twice, and the ids it has
    yet to answer are not in the store, the ids of the stored tasks stay
    distinct, and the ids still to come stay out of the store, whatever is
    asked and however it ends. *)
Theorem ids_stay_distinct (env : Env) (r : request) (w : World) :
  (forall n m, uuid env n = uuid env m -> n = m) ->
  NoDup (ids (tasks w)) -> fresh_ids env w ->
  NoDup (ids (tasks (serve env r w).2)) /\ fresh_ids env (serve env r w).2.
Proof.
  intros Hinj Hnd Hfresh.
  destruct (serve_ids env r w) as (kept & k & Hsub & Hdraws & Hids).
  unfold fresh_ids. rewrite Hdraws.
  by apply (distinct_ids_kept env kept (tasks w)).
Qed.

Lemma sample_uuid_inj n m : uuid sample_env n = uuid sample_env m -> n = m.
Proof.
  simpl. intros H. apply String.app_inj in H. by apply pretty_nat_inj in H.
Qed.

Lemma sample_task_id id status order :
  sample_task id status order !! "id" = Some (JStr id).
Proof. reflexivity. Qed.

Lemma sample_world_fresh : fresh_ids sample_env sample_world.
Proof.
  intros n _ H.
  unfold ids, sample_world, tasks, map in H. rewrite !sample_task_id in H.
  repeat (apply elem_of_cons in H as [H|H]; [injection H; intros; discriminate|]).
  by apply elem_of_nil in H.
Qed.

Lemma sample_world_distinct : NoDup (ids (tasks sample_world)).
Proof.
  unfold ids, sample_world, tasks, map. rewrite !sample_task_id.
  repeat (apply NoDup_cons_2;
          [intros H; repeat (apply elem_of_cons in H as [H|H]; [discriminate H|]);
           by apply elem_of_nil in H|]).
  apply NoDup_nil_2.
Qed.

Lemma ids_stay_distinct_witness :
  NoDup (ids (tasks (serve sample_env
                       (BulkCreate {["tasks" := JArr [JObj {["title" := JStr "Plan"]};
                                                      JObj {["title" := JStr "Ship"]}]]})
                       sample_world).2)) /\
  fresh_ids sample_env
    (serve sample_env
       (BulkCreate {["tasks" := JArr [JObj {["title" := JStr "Plan"]};
                                      JObj {["title" := JStr "Ship"]}]]})
       sample_world).2.
Proof.
  apply (ids_stay_distinct sample_env
           (BulkCreate {["tasks" := JArr [JObj {["title" := JStr "Plan"]};
                                          JObj {["title" := JStr "Ship"]}]]})
           sample_world sample_uuid_inj sample_world_distinct sample_world_fresh).
Defined.

(** ** Create *)



(** ** Bulk create *)

(** The errors of the loop name the position of each failing element in
    the array of the request. *)
Lemma bulk_errors_positions elems : forall i j e,
  existsb throws elems = false ->
  elems !! j = Some e -> passes e = false ->
  exists msgs,
    validateTaskInput e false = Ok msgs /\ msgs <> [] /\
    ("Task " +:+ pretty (i + j)%nat +:+ ": " +:+ join "; " msgs) ∈ bulk_errors i elems.
Proof.
  induction elems as [|x rest IH]; intros i j e Hno Hj Hp; [done|].
  simpl in Hno. apply orb_false_elim in Hno as [Hx Hrest].
  destruct j as [|j]; simpl in Hj.
  - injection Hj as ->. unfold passes, throws in *. simpl.
    destruct (validateTaskInput e false) as [[|m errs]|] eqn:Hval; try discriminate.
    exists (m :: errs). split; [done|]. split; [done|].
    rewrite Nat.add_0_r. apply list_elem_of_here.
  - destruct (IH (S i) j e Hrest Hj Hp) as (msgs & Hval & Hne & Hin).
    exists msgs. split; [done|]. split; [done|].
    replace (i + S j)%nat with (S i + j)%nat by lia.
    simpl. unfold throws in Hx.
    destruct (validateTaskInput x false) as [[|m errs]|]; try discriminate; [done|].
    by apply list_elem_of_further.
Qed.

Lemma filter_passes_nil elems :
  existsb passes elems = false -> List.filter passes elems = [].
Proof.
  induction elems as [|e rest IH]; simpl; [done|].
  intros H. apply orb_false_elim in H as [-> Hrest]. auto.
Qed.

Lemma filter_passes_cons elems :
  existsb passes elems = true -> List.filter passes elems <> [].
Proof.
  induction elems as [|e rest IH]; simpl; [done|].
  destruct (passes e); [done|]. simpl. auto.
Qed.

Lemma filter_fails_all elems :
  existsb passes elems = false ->
  List.filter (fun e => negb (passes e)) elems = elems.
Proof.
  induction elems as [|e rest IH]; simpl; [done|].
  intros H. apply orb_false_elim in H as [-> Hrest]. simpl. by rewrite IH.
Qed.


Lemma bulk_errors_lookup elems : forall i j e,
  existsb throws elems = false ->
  existsb passes elems = false ->
  elems !! j = Some e ->
  exists msgs,
    validateTaskInput e false = Ok msgs /\ msgs <> [] /\
    bulk_errors i elems !! j =
      Some ("Task " +:+ pretty (i + j)%nat +:+ ": " +:+ join "; " msgs).
Proof.
  induction elems as [|x rest IH]; intros i j e Hno Hnone Hj; [done|].
  simpl in Hno, Hnone.
  apply orb_false_elim in Hno as [Hx Hno].
  apply orb_false_elim in Hnone as [Hpx Hnone].
  unfold passes, throws in Hx, Hpx. simpl.
  destruct (validateTaskInput x false) as [[|m errs]|] eqn:Hval; try discriminate.
  destruct j as [|j]; simpl in Hj.
  - injection Hj as <-. exists (m :: errs). rewrite Hval, Nat.add_0_r. done.
  - destruct (IH (S i) j e Hno Hnone Hj) as (msgs & Hv & Hn & Hl).
    exists msgs. replace (i + S j)%nat with (S i + j)%nat by lia. done.
Qed.




(** *** When the validator throws in the middle of a bulk request *)

Lemma passes_not_throws e : passes e = true -> throws e = false.
Proof.
  unfold passes, throws. by destruct (validateTaskInput e false) as [[|]|].
Qed.

Lemma bulk_created_before_throw env elems : forall t d,
  bulk_created env t d elems = bulk_created env t d (before_throw elems).
Proof.
  induction elems as [|e rest IH]; intros t d; simpl; [done|].
  destruct (passes e) eqn:Hp.
  - rewrite (passes_not_throws e Hp). simpl. rewrite Hp.
    destruct (newTask _ _ e); [by rewrite <- IH | done].
  - destruct (throws e) eqn:Hth; [done|]. simpl. rewrite Hp, Hth. apply IH.
Qed.

Lemma before_throw_no_throw elems : existsb throws (before_throw elems) = false.
Proof.
  induction elems as [|e rest IH]; simpl; [done|].
  destruct (throws e) eqn:Hth; [done|]. simpl. by rewrite Hth.
Qed.



(** ** Tasks addressed by id *)

Lemma has_id_spec id (t : obj) : has_id id t = true <-> t !! "id" = Some (JStr id).
Proof.
  unfold has_id, strict_eq_str.
  destruct (t !! "id") as [[| | | s | |]|]; try (split; discriminate).
  rewrite String.eqb_eq. split; [by intros -> | by intros [= ->]].
Qed.

Lemma has_id_false id (t : obj) : has_id id t = false <-> t !! "id" <> Some (JStr id).
Proof.
  rewrite <- has_id_spec. destruct (has_id id t); split; try done.
Qed.

Lemma findIndex_split {A} (p : A -> bool) (l : list A) i x :
  findIndex p l = Some (i, x) ->
  l = take i l ++ x :: drop (S i) l /\
  Forall (fun y => p y = false) (take i l) /\ p x = true.
Proof.
  revert i. induction l as [|y l IH]; intros i; simpl; [done|].
  destruct (p y) eqn:Hy.
  - intros [= <- <-]. simpl. rewrite drop_0. done.
  - destruct (findIndex p l) as [[j z]|]; [|done].
    intros [= <- <-]. destruct (IH j eq_refl) as (Hl & Hb & Hx). simpl.
    split; [by rewrite <- Hl|]. split; [by constructor | done].
Qed.

Lemma findIndex_all_false {A} (p : A -> bool) (l : list A) :
  Forall (fun x => p x = false) l -> findIndex p l = None.
Proof.
  induction 1 as [|y l Hy Hl IH]; simpl; [done|]. by rewrite Hy, IH.
Qed.

Lemma findIndex_first {A} (p : A -> bool) (l k : list A) x :
  Forall (fun y => p y = false) l -> p x = true ->
  findIndex p (l ++ x :: k) = Some (length l, x).
Proof.
  induction 1 as [|y l Hy Hl IH]; intros Hx; simpl.
  - by rewrite Hx.
  - by rewrite Hy, IH.
Qed.

(** X20. Get, update, delete and move answer 404 exactly when no stored task
    has the id of the request as its [id]; the comparison is strict, so
    an id stored as a number is never found. *)
Theorem unknown_id_is_not_found (env : Env) (r : request) (id : string) (w : World) :
  r = GetTask id \/ r = DeleteTask id \/
  (exists b, r = UpdateTask id b) \/ (exists b, r = MoveTask id b) ->
  code (serve env r w).1 = 404%nat <->
  Forall (fun t => t !! "id" <> Some (JStr id)) (tasks w).
Proof.
  intros Hr.
  assert (Hnone : findIndex (has_id id) (tasks w) = None <->
                  Forall (fun t => t !! "id" <> Some (JStr id)) (tasks w)).
  { split.
    - intros H. apply findIndex_None in H.
      eapply Forall_impl; [exact H|]. intros t. apply has_id_false.
    - intros H. apply findIndex_all_false.
      eapply Forall_impl; [exact H|]. intros t. apply has_id_false. }
  rewrite <- Hnone. clear Hnone.
  destruct Hr as [-> | [-> | [[b ->] | [b ->]]]].
  - run. destruct (findIndex _ _) as [[i t]|]; simpl; split; done.
  - pose proof (delete_outcome env id w) as H.
    destruct (serve env (DeleteTask id) w) as [resp w']. simpl.
    destruct H as [(Hc & _ & Hf)|(i & t & Hf & _ & [(-> & _)|(Hc & _)])];
      rewrite ?Hc, Hf; split; done.
  - pose proof (update_outcome env id b w) as H.
    destruct (findIndex (has_id id) (tasks w)) as [[i old]|] eqn:Hf.
    + destruct (serve env (UpdateTask id b) w) as [resp w']. simpl.
      destruct H as [(_ & _ & ?)|[(Hc & _)|[(Hc & _)|
        (? & ? & ? & _ & _ & _ & _ & [(Hc & _)|(Hc & _)])]]];
        try done; rewrite Hc; split; done.
    + run. rewrite Hf. simpl. done.
  - pose proof (move_outcome env id b w) as H.
    destruct (findIndex (has_id id) (tasks w)) as [[i old]|] eqn:Hf.
    + destruct (serve env (MoveTask id b) w) as [resp w']. simpl.
      destruct H as [(_ & _ & ?)|[(Hc & _)|
        (? & ? & ? & _ & _ & _ & _ & [(Hc & _)|(Hc & _)])]];
        try done; rewrite Hc; split; done.
    + run. rewrite Hf. simpl. done.
Qed.

Lemma unknown_id_is_not_found_witness :
  code (serve sample_env (DeleteTask "z") sample_world).1 = 404%nat <->
  Forall (fun t => t !! "id" <> Some (JStr "z")) (tasks sample_world).
Proof.
  apply (unknown_id_is_not_found sample_env (DeleteTask "z") "z" sample_world).
  right. left. reflexivity.
Defined.

(** X21. Delete, when a stored task has the id and the file can be written:
    the first task with the id is taken out, the tasks before and after it
    stay as they were and in their order, the file holds the new store,
    the answer is 204 without a body, and one [task_deleted] message
    carries the task taken out, stamped with the time read after the
    write. *)
Theorem delete_removes_first_match (env : Env) (id : string) (w : World) :
  write_ok env (writes w) = true ->
  Exists (fun t => t !! "id" = Some (JStr id)) (tasks w) ->
  exists before t after,
    tasks w = before ++ t :: after /\
    t !! "id" = Some (JStr id) /\
    Forall (fun x => x !! "id" <> Some (JStr id)) before /\
    serve env (DeleteTask id) w =
      (Response 204 PNone,
       mkWorld (before ++ after) (Some (before ++ after))
         (sent w ++ [Event "task_deleted" t
                       (Some (JStr (toISOString (clock env (ticks w)))))])
         (S (ticks w)) (draws w) (S (writes w))).
Proof.
  intros Hw Hex.
  destruct (findIndex (has_id id) (tasks w)) as [[i t]|] eqn:Hf.
  - destruct (findIndex_split _ _ _ _ Hf) as (Hl & Hb & Ht).
    exists (take i (tasks w)), t, (drop (S i) (tasks w)).
    split; [done|]. split; [by apply has_id_spec|]. split.
    + eapply Forall_impl; [exact Hb|]. intros x. apply has_id_false.
    + run. rewrite Hf. simpl. rewrite Hw. simpl. done.
  - apply findIndex_None in Hf. apply Exists_exists in Hex as (t & Hin & Ht).
    rewrite Forall_forall in Hf. apply Hf in Hin.
    apply has_id_spec in Ht. congruence.
Qed.

Lemma delete_removes_first_match_witness :
  exists before t after,
    tasks sample_world = before ++ t :: after /\
    t !! "id" = Some (JStr "b") /\
    tasks (serve sample_env (DeleteTask "b") sample_world).2 = before ++ after.
Proof.
  destruct (delete_removes_first_match sample_env "b" sample_world)
    as (before & t & after & Hl & Ht & Hb & Hrun).
  - reflexivity.
  - apply Exists_cons_tl, Exists_cons_hd. reflexivity.
  - exists before, t, after. rewrite Hrun.
    split; [exact Hl|]. split; [exact Ht | reflexivity].
Defined.

(** X22. A successful update or move replaces one task, the first one with
    the id, in its place: the store keeps its length and every other
    position keeps its task.  A move changes nothing of the task but
    [status], [order] and [updated_at]. *)
Theorem update_move_touch_one_task (env : Env) (r : request) (id : string) (b : obj)
    (w : World) :
  r = UpdateTask id b \/ r = MoveTask id b ->
  code (serve env r w).1 = 200%nat ->
  exists i old new,
    tasks w !! i = Some old /\
    old !! "id" = Some (JStr id) /\
    (forall j t, (j < i)%nat -> tasks w !! j = Some t -> t !! "id" <> Some (JStr id)) /\
    (serve env r w).1 = Response 200 (PTask new) /\
    tasks (serve env r w).2 !! i = Some new /\
    length (tasks (serve env r w).2) = length (tasks w) /\
    (forall j, j <> i -> tasks (serve env r w).2 !! j = tasks w !! j) /\
    (r = MoveTask id b ->
     forall k, k <> "status" -> k <> "order" -> k <> "updated_at" -> new !! k = old !! k).
Proof.
  intros Hr Hcode.
  assert (H : exists i old new,
            findIndex (has_id id) (tasks w) = Some (i, old) /\
            (serve env r w).1 = Response 200 (PTask new) /\
            tasks (serve env r w).2 = <[i := new]> (tasks w) /\
            (r = MoveTask id b ->
             new = move_record (toISOString (clock env (ticks w))) old b)).
  { destruct Hr as [-> | ->].
    - pose proof (update_outcome env id b w) as H.
      destruct (serve env (UpdateTask id b) w) as [[c p] w']. simpl in *.
      destruct H as [(Hc & _)|[(Hc & _)|[(Hc & _)|
        (i & old & new & Hf & _ & _ & Ht & [(_ & Hp & _)|(Hc & _)])]]];
        try congruence.
      exists i, old, new. subst. done.
    - pose proof (move_outcome env id b w) as H.
      destruct (serve env (MoveTask id b) w) as [[c p] w']. simpl in *.
      destruct H as [(Hc & _)|[(Hc & _)|
        (i & old & new & Hf & _ & Hn & Ht & [(_ & Hp & _)|(Hc & _)])]];
        try congruence.
      exists i, old, new. subst. done. }
  destruct H as (i & old & new & Hf & Hresp & Ht & Hmove).
  destruct (findIndex_split _ _ _ _ Hf) as (Hl & Hb & Hold).
  pose proof (findIndex_Some _ _ _ _ Hf) as [Hi _].
  exists i, old, new. rewrite Ht.
  split; [done|]. split; [by apply has_id_spec|]. split; [|split; [done|split; [|split; [|split]]]].
  - intros j t Hj Hjt. apply has_id_false.
    rewrite Forall_forall in Hb. apply Hb.
    apply list_elem_of_lookup. exists j. by rewrite lookup_take_lt.
  - apply list_lookup_insert_eq. by eapply lookup_lt_Some.
  - apply length_insert.
  - intros j Hj. by apply list_lookup_insert_ne.
  - intros Hm k Hs Ho Hu. rewrite (Hmove Hm), move_record_lookup.
    destruct (String.eqb_spec k "updated_at"); [done|].
    destruct (String.eqb_spec k "order"); [done|].
    by destruct (String.eqb_spec k "status").
Qed.

Lemma update_move_touch_one_task_witness :
  exists new,
    (serve sample_env (MoveTask "b" {["status" := JStr "review"]}) sample_world).1 =
      Response 200 (PTask new) /\
    length (tasks (serve sample_env (MoveTask "b" {["status" := JStr "review"]})
                     sample_world).2) = 3%nat.
Proof.
  destruct (update_move_touch_one_task sample_env
              (MoveTask "b" {["status" := JStr "review"]}) "b"
              {["status" := JStr "review"]} sample_world)
    as (i & old & new & _ & _ & _ & Hresp & _ & Hlen & _).
  - right. reflexivity.
  - reflexivity.
  - exists new. split; [exact Hresp | exact Hlen].
Defined.

(** ** Round trips *)

(** Get in closed form. *)
Lemma get_run env id w :
  serve env (GetTask id) w =
    (match findIndex (has_id id) (tasks w) with
     | Some (_, task) => Response 200 (PTask task)
     | None => not_found
     end, w).
Proof. run. by destruct (findIndex _ _) as [[i t]|]. Qed.

(** X23. After a create answered 201, when the id drawn for the task was not
    yet in the store, a get of that id answers 200 with the task that the
    create returned. *)
Theorem get_returns_created_task (env : Env) (b : obj) (w : World) :
  fresh_ids env w ->
  code (serve env (CreateTask b) w).1 = 201%nat ->
  exists task,
    (serve env (CreateTask b) w).1 = Response 201 (PTask task) /\
    task !! "id" = Some (JStr (uuid env (draws w))) /\
    serve env (GetTask (uuid env (draws w))) (serve env (CreateTask b) w).2 =
      (Response 200 (PTask task), (serve env (CreateTask b) w).2).
Proof.
  intros Hfresh Hcode.
  pose proof (create_outcome env b w) as H.
  destruct (serve env (CreateTask b) w) as [[c p] w'] eqn:Hserve. simpl in *.
  destruct H as [(Hc & _)|[(Hc & _)|(task & _ & Hnew & Ht & [(_ & Hp & _)|(Hc & _)])]];
    try congruence.
  destruct (newTask_fields _ _ _ _ Hnew) as (Hid & _).
  exists task. subst c p. split; [done|]. split; [done|].
  rewrite get_run, Ht.
  rewrite (findIndex_first (has_id (uuid env (draws w))) (tasks w) [] task).
  - done.
  - apply Forall_forall. intros t Hin. apply has_id_false. intros Heq.
    apply (Hfresh (draws w)); [lia|].
    unfold ids. rewrite <- Heq. apply list_elem_of_fmap. by exists t.
  - by apply has_id_spec.
Qed.

Lemma get_returns_created_task_witness :
  exists task,
    serve sample_env (GetTask "task-0")
      (serve sample_env (CreateTask {["title" := JStr "Plan"]}) sample_world).2 =
    (Response 200 (PTask task),
     (serve sample_env (CreateTask {["title" := JStr "Plan"]}) sample_world).2).
Proof.
  destruct (get_returns_created_task sample_env {["title" := JStr "Plan"]} sample_world)
    as (task & _ & _ & Hget).
  - exact sample_world_fresh.
  - reflexivity.
  - exists task. exact Hget.
Defined.

Lemma NoDup_ids_middle (before after : list obj) (t : obj) :
  NoDup (ids (before ++ t :: after)) ->
  Forall (fun x => x !! "id" <> t !! "id") (before ++ after).
Proof.
  unfold ids. rewrite fmap_app, fmap_cons. intros Hnd.
  apply NoDup_app in Hnd as (_ & Hdis & Hnd).
  apply NoDup_cons in Hnd as [Hnot _].
  apply Forall_app. split.
  - apply Forall_forall. intros x Hx Heq.
    apply (Hdis (x !! "id")).
    + apply list_elem_of_fmap. by exists x.
    + rewrite Heq. apply list_elem_of_here.
  - apply Forall_forall. intros x Hx Heq. apply Hnot.
    rewrite <- Heq. apply list_elem_of_fmap. by exists x.
Qed.

(** X24. When the stored ids are distinct, a task deleted with answer 204 is
    gone: a get of its id answers 404. *)
Theorem deleted_task_is_gone (env : Env) (id : string) (w : World) :
  NoDup (ids (tasks w)) ->
  code (serve env (DeleteTask id) w).1 = 204%nat ->
  (serve env (GetTask id) (serve env (DeleteTask id) w).2).1 = not_found.
Proof.
  intros Hnd Hcode.
  pose proof (delete_outcome env id w) as H.
  destruct (serve env (DeleteTask id) w) as [resp w']. simpl in *.
  destruct H as [(Hc & _)|(i & t & Hf & Ht & _)]; [congruence|].
  destruct (findIndex_split _ _ _ _ Hf) as (Hl & _ & Hid).
  rewrite Hl in Hnd. apply NoDup_ids_middle in Hnd.
  apply has_id_spec in Hid.
  rewrite get_run, Ht. simpl.
  rewrite findIndex_all_false; [done|].
  eapply Forall_impl; [exact Hnd|]. intros x Hx. apply has_id_false. congruence.
Qed.

Lemma deleted_task_is_gone_witness :
  (serve sample_env (GetTask "b")
     (serve sample_env (DeleteTask "b") sample_world).2).1 = not_found.
Proof.
  apply (deleted_task_is_gone sample_env "b" sample_world).
  - exact sample_world_distinct.
  - reflexivity.
Defined.

(** ** A write that fails *)

Lemma bulk_created_writable env elems : forall t d,
  bulk_created (writable env) t d elems = bulk_created env t d elems.
Proof.
  induction elems as [|e rest IH]; intros t d; simpl; [done|].
  destruct (passes e); [|by destruct (throws e)].
  destruct (newTask _ _ e); [by rewrite IH | done].
Qed.

(** X25. When the write of the file fails on a mutation that would otherwise
    have succeeded, the answer is 500, the file and the log of messages
    are as before, and yet the store in memory holds exactly the tasks it
    would have held after the success. *)
Theorem failed_write_keeps_change_in_memory (env : Env) (r : request) (w : World) :
  write_ok env (writes w) = false ->
  read_only r = false ->
  success (serve (writable env) r w).1 = true ->
  code (serve env r w).1 = 500%nat /\
  tasks (serve env r w).2 = tasks (serve (writable env) r w).2 /\
  disk (serve env r w).2 = disk w /\
  sent (serve env r w).2 = sent w.
Proof.
  intros Hw Hr Hok. unfold success in Hok.
  destruct r as [q | id | b | id b | id | id b | | b | status]; try discriminate.
  - unfold writable in *. run.
    destruct (validateTaskInput (JObj b) false) as [[|]|] eqn:Hval; simpl in *; try done.
    destruct (newTask _ _ _); simpl in *; [|done].
    rewrite Hw. simpl. done.
  - unfold writable in *. run.
    destruct (findIndex _ _) as [[i old]|]; simpl in *; [|done].
    destruct (validateTaskInput (JObj b) true) as [[|]|] eqn:Hval; simpl in *; try done.
    destruct (b !! "title") as [v|] eqn:Htitle; simpl in *.
    + destruct (validate_Ok_title _ _ _ Hval v) as [s ->]; [simpl; by rewrite Htitle|].
      simpl in *. rewrite Hw. simpl. done.
    + rewrite Hw. simpl. done.
  - unfold writable in *. run.
    destruct (findIndex _ _) as [[i old]|]; simpl in *; [|done].
    rewrite Hw. simpl. done.
  - unfold writable in *. run.
    destruct (findIndex _ _) as [[i old]|]; simpl in *; [|done].
    destruct (truthy (b !! "status")); simpl in *; [|done].
    destruct (includes_str VALID_STATUSES (b !! "status")); simpl in *; [|done].
    rewrite Hw. simpl. done.
  - destruct (b !! "tasks") as [[| | | | elems |]|] eqn:Hb;
      try (rewrite bulk_not_array in Hok by (intros elems; congruence); discriminate).
    pose proof (bulk_outcome env b elems w Hb) as H.
    pose proof (bulk_outcome (writable env) b elems w Hb) as H2.
    simpl in H, H2. rewrite bulk_created_writable in H2.
    destruct (serve env (BulkCreate b) w) as [resp w1].
    destruct (serve (writable env) (BulkCreate b) w) as [resp2 w2]. simpl in *.
    destruct H as [Ht H]. destruct H2 as [Ht2 H2].
    rewrite Ht, Ht2. rewrite Hw in H.
    destruct (existsb throws elems).
    { destruct H2 as (Hc & _). rewrite Hc in Hok. discriminate. }
    destruct (_ && _).
    { destruct H2 as (Hc & _). rewrite Hc in Hok. discriminate. }
    destruct H as (Hc & Hd & Hs). done.
  - pose proof (clear_outcome env status w) as H.
    pose proof (clear_outcome (writable env) status w) as H2.
    destruct (serve env (ClearDone status) w) as [resp w1].
    destruct (serve (writable env) (ClearDone status) w) as [resp2 w2]. simpl in *.
    destruct H2 as [(Hc & _)|(-> & Ht2 & _)]; [rewrite Hc in Hok; discriminate|].
    destruct H as [(_ & _ & ?)|(_ & Ht & [(_ & ? & _)|(Hc & _ & Hd & Hs)])];
      [done | congruence |].
    rewrite Ht, Ht2. done.
Qed.

Lemma failed_write_keeps_change_in_memory_witness :
  code (serve failing_env (DeleteTask "b") sample_world).1 = 500%nat /\
  tasks (serve failing_env (DeleteTask "b") sample_world).2 =
    tasks (serve (writable failing_env) (DeleteTask "b") sample_world).2 /\
  disk (serve failing_env (DeleteTask "b") sample_world).2 = disk sample_world /\
  sent (serve failing_env (DeleteTask "b") sample_world).2 = sent sample_world.
Proof.
  apply (failed_write_keeps_change_in_memory failing_env (DeleteTask "b") sample_world);
    reflexivity.
Defined.

(** ** A search over a description that is not a text *)

Lemma filterM_throws {A} (p : A -> result bool) (l : list A) x :
  x ∈ l -> (exists e, p x = Throw e) -> exists e, filterM p l = Throw e.
Proof.
  intros Hin [e He]. induction Hin as [x l | x y l Hin IH]; simpl.
  - rewrite He. unfold mbind, result_bind. eauto.
  - destruct (p y) as [keep|e1]; unfold mbind, result_bind; [|by exists e1].
    destruct (IH He) as [e2 ->]. by exists e2.
Qed.



(** ** Start-up *)

(** X27. After a mutation that succeeded, stopping the process and starting
    it again brings back the store exactly: [loadTasks] reads from the
    file the tasks that were in memory, and writes nothing. *)
Theorem restart_restores_saved_store (env : Env) (r : request) (w : World) :
  read_only r = false ->
  success (serve env r w).1 = true ->
  loadTasks env (restart (serve env r w).2) =
    (Ok tt, mkWorld (tasks (serve env r w).2) (disk (serve env r w).2)
              (sent (serve env r w).2) (ticks (serve env r w).2)
              (draws (serve env r w).2) (writes (serve env r w).2)).
Proof.
  intros Hr Hok.
  pose proof (serve_summary env r w) as H.
  destruct (serve env r w) as [resp w1]. simpl in *.
  destruct H as [(_ & [(Hro & _)|(_ & _ & Hd)])|[(Hrej & _)|(Hc & _)]].
  - congruence.
  - unfold loadTasks, restart. simpl. rewrite Hd. reflexivity.
  - unfold rejected, success in *. destruct Hrej as [Hc|Hc]; rewrite Hc in Hok; done.
  - unfold success in Hok. rewrite Hc in Hok. done.
Qed.

Lemma restart_restores_saved_store_witness :
  tasks (loadTasks sample_env
           (restart (serve sample_env (DeleteTask "b") sample_world).2)).2 =
    [sample_task "a" "todo" 2; sample_task "c" "todo" 0].
Proof.
  rewrite (restart_restores_saved_store sample_env (DeleteTask "b") sample_world);
    reflexivity.
Defined.

(** The first start, when there is no file: the store is empty and the
    file is written at once with the empty store; when that write fails,
    [loadTasks] throws. *)
Theorem first_start_writes_empty_file (env : Env) (w : World) :
  disk w = None ->
  loadTasks env w =
    if write_ok env (writes w)
    then (Ok tt, mkWorld [] (Some []) (sent w) (ticks w) (draws w) (S (writes w)))
    else (Throw IOError, mkWorld [] None (sent w) (ticks w) (draws w) (S (writes w))).
Proof.
  intros Hd. unfold loadTasks. rewrite Hd.
  unfold mbind, M_bind, set_tasks, saveTasks. simpl. rewrite Hd.
  by destruct (write_ok env (writes w)).
Qed.

(** ** The board of a connected client *)

Lemma strict_eq_text a s : strict_eq a (Some (JStr s)) = strict_eq_str a s.
Proof. by destruct a as [[]|]. Qed.

Lemma text_id_spec t : text_id t = true -> exists s, t !! "id" = Some (JStr s) /\ s <> "".
Proof.
  unfold text_id. destruct (t !! "id") as [[| | | s | |]|]; try discriminate.
  simpl. intros H. exists s. split; [done|]. intros ->. discriminate.
Qed.

Lemma findIndex_ext {A} (p q : A -> bool) (l : list A) :
  (forall x, p x = q x) -> findIndex p l = findIndex q l.
Proof.
  intros H. induction l as [|x l IH]; simpl; [done|]. by rewrite H, IH.
Qed.

Lemma filter_all {A} (p : A -> bool) (l : list A) :
  Forall (fun x => p x = true) l -> List.filter p l = l.
Proof.
  induction 1 as [|x l Hx Hl IH]; simpl; [done|]. by rewrite Hx, IH.
Qed.

(** A created task whose id is new on the board is pushed. *)
Lemma handle_created task ts id (board : list obj) :
  task !! "id" = Some (JStr id) ->
  Forall (fun t => t !! "id" <> Some (JStr id)) board ->
  handleWebSocketMessage (Event "task_created" task ts) board = board ++ [task].
Proof.
  intros Hid Hnew. unfold handleWebSocketMessage. simpl. rewrite Hid.
  replace (existsb _ board) with false; [done|].
  symmetry. apply not_true_is_false. intros H.
  apply existsb_exists in H as (t & Hin & Ht).
  rewrite strict_eq_text in Ht.
  rewrite Forall_forall in Hnew. apply list_elem_of_In, Hnew in Hin.
  by apply has_id_false in Hin; unfold has_id in Hin; congruence.
Qed.

(** An updated or moved task replaces the first task of the board with
    its id. *)
Lemma handle_replaced type task ts id (board : list obj) i old :
  type = "task_updated" \/ type = "task_moved" ->
  task !! "id" = Some (JStr id) ->
  findIndex (has_id id) board = Some (i, old) ->
  handleWebSocketMessage (Event type task ts) board = <[i := task]> board.
Proof.
  intros Htype Hid Hf. unfold handleWebSocketMessage.
  destruct Htype as [-> | ->]; simpl; rewrite Hid;
    rewrite (findIndex_ext _ (has_id id)), Hf; try done;
    intros x; apply strict_eq_text.
Qed.

(** A deleted task takes with it every task of the board with its id. *)
Lemma handle_deleted task ts id (board : list obj) :
  task !! "id" = Some (JStr id) -> id <> "" ->
  handleWebSocketMessage (Event "task_deleted" task ts) board =
    List.filter (fun t => negb (has_id id t)) board.
Proof.
  intros Hid Hne. unfold handleWebSocketMessage. simpl. rewrite Hid. simpl.
  destruct (String.eqb_spec id "") as [->|_]; [done|]. simpl.
  apply List.filter_ext. intros t. by rewrite strict_eq_text.
Qed.

Lemma receive_cons e events board :
  receive (e :: events) board = receive events (handleWebSocketMessage e board).
Proof. reflexivity. Qed.

(** The messages of a bulk create, received in order, push the created
    tasks. *)
Lemma receive_created (created : list obj) : forall board,
  NoDup (ids (board ++ created)) ->
  Forall (fun t => typeof_string (t !! "id") = true) created ->
  receive (map (fun task => Event "task_created" task (task !! "created_at")) created) board =
    board ++ created.
Proof.
  induction created as [|t rest IH]; intros board Hnd Htext.
  - simpl. by rewrite app_nil_r.
  - apply Forall_cons in Htext as [Ht Htext].
    destruct (t !! "id") as [[| | | id | |]|] eqn:Hid; try discriminate.
    rewrite List.map_cons, receive_cons, (handle_created t _ id); [| done |].
    + rewrite IH; [by rewrite <- app_assoc | by rewrite <- app_assoc | done].
    + apply NoDup_ids_middle in Hnd. apply Forall_app in Hnd as [Hnd _].
      eapply Forall_impl; [exact Hnd|]. intros x Hx. congruence.
Qed.

(** The messages of clear done, received in order, take from the board
    the tasks that have the id of one of the removed tasks. *)
Lemma receive_deleted (removed : list obj) : forall (g : nat -> string) board,
  Forall (fun t => text_id t = true) removed ->
  receive (imap (fun j task => deleted_event (g j) task) removed) board =
    List.filter (fun x => forallb (fun t => negb (strict_eq (x !! "id") (t !! "id"))) removed)
      board.
Proof.
  induction removed as [|t rest IH]; intros g board Htext.
  - simpl. by rewrite filter_true.
  - apply Forall_cons in Htext as [Ht Htext].
    destruct (text_id_spec t Ht) as (id & Hid & Hne).
    rewrite imap_cons, receive_cons. cbv beta.
    change (deleted_event (g 0%nat) t)
      with (Event "task_deleted" t (Some (JStr (g 0%nat)))).
    rewrite (handle_deleted t _ id _ Hid Hne).
    etrans; [apply (IH (fun j => g (S j)) _ Htext)|].
    rewrite filter_filter. apply List.filter_ext. intros x.
    cbn [forallb]. by rewrite Hid, strict_eq_text.
Qed.

Lemma NoDup_ids_inj (l : list obj) x y :
  NoDup (ids l) -> x ∈ l -> y ∈ l -> x !! "id" = y !! "id" -> x = y.
Proof.
  induction l as [|a l IH]; intros Hnd Hx Hy Heq; [by apply elem_of_nil in Hx|].
  unfold ids in Hnd. simpl in Hnd. apply NoDup_cons in Hnd as [Hnot Hnd].
  apply elem_of_cons in Hx as [->|Hx]; apply elem_of_cons in Hy as [->|Hy].
  - done.
  - exfalso. apply Hnot. rewrite Heq. apply list_elem_of_fmap. by exists y.
  - exfalso. apply Hnot. rewrite <- Heq. apply list_elem_of_fmap. by exists x.
  - by apply IH.
Qed.

(** On a store with distinct ids that are texts, the tasks with the id
    of no done task are the tasks that are not done. *)
Lemma filter_removed_ids (l : list obj) :
  NoDup (ids l) -> Forall (fun t => text_id t = true) l ->
  List.filter (fun x => forallb (fun t => negb (strict_eq (x !! "id") (t !! "id")))
                          (List.filter is_done l)) l =
  List.filter (fun t => negb (is_done t)) l.
Proof.
  intros Hnd Htext. apply List.filter_ext_in. intros x Hx.
  apply list_elem_of_In in Hx.
  destruct (is_done x) eqn:Hdone; simpl.
  - apply not_true_is_false. intros H.
    rewrite forallb_forall in H.
    specialize (H x (proj2 (List.filter_In _ _ _) (conj (proj1 (list_elem_of_In _ _) Hx) Hdone))).
    rewrite Forall_forall in Htext.
    destruct (text_id_spec x (Htext x Hx)) as (id & Hid & _).
    rewrite Hid, strict_eq_text in H. simpl in H. by rewrite String.eqb_refl in H.
  - apply forallb_forall. intros t Ht.
    apply List.filter_In in Ht as [Ht Htd]. apply list_elem_of_In in Ht.
    apply negb_true_iff. apply not_true_is_false. intros H.
    rewrite Forall_forall in Htext.
    destruct (text_id_spec t (Htext t Ht)) as (id & Hid & _).
    rewrite Hid, strict_eq_text in H.
    assert (x !! "id" = t !! "id").
    { rewrite Hid. by apply has_id_spec. }
    assert (x = t) by by eapply NoDup_ids_inj.
    congruence.
Qed.

(** A board that equals the store, after the messages broadcast for a
    request that succeeded, equals the store again. *)
Lemma board_follows_exactly env r w :
  (forall n m, uuid env n = uuid env m -> n = m) ->
  Forall (fun t => text_id t = true) (tasks w) ->
  NoDup (ids (tasks w)) ->
  fresh_ids env w ->
  success (serve env r w).1 = true ->
  receive (broadcast_by env r w) (tasks w) = tasks (serve env r w).2.
Proof.
  intros Hinj Htext Hnd Hfresh Hok. unfold broadcast_by.
  pose proof (success_write env r w) as Hsw.
  unfold success in *.
  destruct r as [q | id | b | id b | id | id b | | b | status].
  - destruct (read_only_unchanged env (ListTasks q) w eq_refl) as (-> & _ & ->).
    by rewrite drop_all.
  - destruct (read_only_unchanged env (GetTask id) w eq_refl) as (-> & _ & ->).
    by rewrite drop_all.
  - pose proof (create_outcome env b w) as H.
    destruct (serve env (CreateTask b) w) as [resp w']. simpl in *.
    destruct H as [(Hc & _)|[(Hc & _)|(task & _ & Hnew & Ht & [(_ & _ & _ & Hs)|(Hc & _)])]];
      try (rewrite Hc in Hok; discriminate).
    rewrite Hs, Ht, drop_app_length.
    destruct (newTask_fields _ _ _ _ Hnew) as (Hid & _).
    apply (handle_created task _ (uuid env (draws w)) _ Hid).
    apply Forall_forall. intros t Hin Heq.
    apply (Hfresh (draws w)); [lia|].
    unfold ids. rewrite <- Heq. apply list_elem_of_fmap. by exists t.
  - pose proof (update_outcome env id b w) as H.
    destruct (serve env (UpdateTask id b) w) as [resp w']. simpl in *.
    destruct H as [(Hc & _)|[(Hc & _)|[(Hc & _)|
      (i & old & new & Hf & _ & Hn & Ht & [(_ & _ & _ & Hs)|(Hc & _)])]]];
      try (rewrite Hc in Hok; discriminate).
    rewrite Hs, Ht, drop_app_length.
    apply (handle_replaced _ new _ id _ i old); [by left| |done].
    rewrite Hn, update_record_lookup. simpl.
    apply findIndex_Some in Hf as [_ Hold]. by apply has_id_spec.
  - pose proof (delete_outcome env id w) as H.
    destruct (serve env (DeleteTask id) w) as [resp w']. simpl in *.
    destruct H as [(Hc & _)|(i & t & Hf & Ht & [(_ & _ & _ & Hs)|(Hc & _)])];
      try (rewrite Hc in Hok; discriminate).
    rewrite Hs, Ht, drop_app_length.
    destruct (findIndex_split _ _ _ _ Hf) as (Hl & _ & Hid).
    pose proof (proj1 (has_id_spec _ _) Hid) as Hid'.
    assert (Hne : id <> "").
    { rewrite Forall_forall in Htext.
      destruct (text_id_spec t) as (s & Hs' & Hne).
      - apply Htext. rewrite Hl. apply elem_of_app. right. apply list_elem_of_here.
      - congruence. }
    change (receive [?e] ?l) with (handleWebSocketMessage e l).
    rewrite (handle_deleted t _ id _ Hid' Hne).
    rewrite Hl at 1. rewrite Hl in Hnd. apply NoDup_ids_middle in Hnd.
    apply Forall_app in Hnd as [Hb Ha].
    rewrite List.filter_app. simpl. rewrite Hid. simpl.
    rewrite !filter_all; [done| |].
    + eapply Forall_impl; [exact Ha|]. intros x Hx.
      apply negb_true_iff, has_id_false. congruence.
    + eapply Forall_impl; [exact Hb|]. intros x Hx.
      apply negb_true_iff, has_id_false. congruence.
  - pose proof (move_outcome env id b w) as H.
    destruct (serve env (MoveTask id b) w) as [resp w']. simpl in *.
    destruct H as [(Hc & _)|[(Hc & _)|
      (i & old & new & Hf & _ & Hn & Ht & [(_ & _ & _ & Hs)|(Hc & _)])]];
      try (rewrite Hc in Hok; discriminate).
    rewrite Hs, Ht, drop_app_length.
    apply (handle_replaced _ new _ id _ i old); [by right| |done].
    rewrite Hn, move_record_lookup. simpl.
    apply findIndex_Some in Hf as [_ Hold]. by apply has_id_spec.
  - destruct (read_only_unchanged env GetStats w eq_refl) as (-> & _ & ->).
    by rewrite drop_all.
  - destruct (b !! "tasks") as [[| | | | elems |]|] eqn:Hb;
      try (rewrite bulk_not_array in Hok by (intros elems; congruence); discriminate).
    pose proof (bulk_outcome env b elems w Hb) as H. simpl in H.
    destruct (serve env (BulkCreate b) w) as [resp w']. simpl in *.
    destruct H as [Ht H].
    destruct (existsb throws elems).
    { destruct H as (Hc & _). rewrite Hc in Hok. discriminate. }
    destruct (_ && _).
    { destruct H as (Hc & _). rewrite Hc in Hok. discriminate. }
    rewrite (Hsw eq_refl Hok) in H. destruct H as (_ & _ & Hs).
    rewrite Hs, Ht, drop_app_length.
    apply receive_created.
    + eapply (distinct_ids_kept env (ids (tasks w)) (tasks w) _ (draws w)); try done.
      by rewrite ids_app, bulk_created_ids.
    + apply Forall_forall. intros t Hin.
      apply list_elem_of_lookup in Hin as [j Hj].
      by destruct (bulk_created_own _ _ _ _ _ _ Hj) as (-> & _).
  - pose proof (clear_outcome env status w) as H.
    destruct (decide (status = Some "done")) as [->|Hne].
    + rewrite (clear_done_run env w) in * by auto. simpl. rewrite drop_app_length.
      rewrite (receive_deleted _ (fun j => toISOString (clock env (ticks w + j)))).
      * by apply filter_removed_ids.
      * by apply Forall_filter_keeps.
    + destruct (serve env (ClearDone status) w) as [resp w']. simpl in *.
      destruct H as [(Hc & _)|(? & _)]; [|done]. rewrite Hc in Hok. discriminate.
Qed.

(** *** A board in another order

    The client fills its board from the listing, which is sorted, so
    the board holds the tasks of the store in another order. *)

Lemma filter_perm {A} (p : A -> bool) (l k : list A) :
  l ≡ₚ k -> List.filter p l ≡ₚ List.filter p k.
Proof.
  induction 1 as [|x l k Hp IH|x y l|l k m Hp1 IH1 Hp2 IH2]; simpl.
  - done.
  - destruct (p x); [by constructor | done].
  - destruct (p x), (p y); try done. apply perm_swap.
  - by etrans.
Qed.

Lemma insert_perm {A} (l k : list A) i j x y :
  l ≡ₚ k -> l !! j = Some x -> k !! i = Some x -> <[j := y]> l ≡ₚ <[i := y]> k.
Proof.
  intros Hp Hj Hi.
  rewrite (insert_take_drop l j y) by (by eapply lookup_lt_Some).
  rewrite (insert_take_drop k i y) by (by eapply lookup_lt_Some).
  rewrite <- !Permutation_middle. constructor.
  apply (Permutation_cons_inv (a := x)).
  rewrite !Permutation_middle.
  by rewrite (take_drop_middle l j x), (take_drop_middle k i x).
Qed.

Lemma ids_perm (l k : list obj) : l ≡ₚ k -> ids l ≡ₚ ids k.
Proof. apply Permutation_map. Qed.

(** With distinct ids, the task found for an id does not depend on the
    order of the board. *)
Lemma findIndex_perm id (l k : list obj) i old :
  l ≡ₚ k -> NoDup (ids l) ->
  findIndex (has_id id) k = Some (i, old) ->
  exists j, findIndex (has_id id) l = Some (j, old).
Proof.
  intros Hp Hnd Hf. apply findIndex_Some in Hf as [Hi Hid].
  assert (Hin : old ∈ l).
  { rewrite Hp. by eapply list_elem_of_lookup_2. }
  destruct (findIndex (has_id id) l) as [[j x]|] eqn:Hfl.
  - exists j. apply findIndex_Some in Hfl as [Hj Hx].
    do 2 f_equal. apply (NoDup_ids_inj l); [done| |done|].
    + by eapply list_elem_of_lookup_2.
    + apply has_id_spec in Hx, Hid. congruence.
  - apply findIndex_None in Hfl. rewrite Forall_forall in Hfl.
    specialize (Hfl old Hin). congruence.
Qed.

(** The messages of a request that succeeded have the same effect, up
    to the order of the board, on every board that holds the tasks of the
    store. *)
Lemma receive_up_to_order env r w (board : list obj) :
  (forall n m, uuid env n = uuid env m -> n = m) ->
  Forall (fun t => text_id t = true) (tasks w) ->
  NoDup (ids (tasks w)) ->
  fresh_ids env w ->
  board ≡ₚ tasks w ->
  success (serve env r w).1 = true ->
  receive (broadcast_by env r w) board ≡ₚ receive (broadcast_by env r w) (tasks w).
Proof.
  intros Hinj Htext Hnd Hfresh Hb Hok. unfold broadcast_by.
  assert (Hndb : NoDup (ids board)) by (by rewrite (ids_perm _ _ Hb)).
  pose proof (success_write env r w) as Hsw.
  unfold success in *.
  destruct r as [q | id | b | id b | id | id b | | b | status].
  - destruct (read_only_unchanged env (ListTasks q) w eq_refl) as (_ & _ & ->).
    by rewrite drop_all.
  - destruct (read_only_unchanged env (GetTask id) w eq_refl) as (_ & _ & ->).
    by rewrite drop_all.
  - pose proof (create_outcome env b w) as H.
    destruct (serve env (CreateTask b) w) as [resp w']. simpl in *.
    destruct H as [(Hc & _)|[(Hc & _)|(task & _ & Hnew & Ht & [(_ & _ & _ & Hs)|(Hc & _)])]];
      try (rewrite Hc in Hok; discriminate).
    rewrite Hs, drop_app_length.
    destruct (newTask_fields _ _ _ _ Hnew) as (Hid & _).
    assert (Hnone : Forall (fun t => t !! "id" <> Some (JStr (uuid env (draws w)))) (tasks w)).
    { apply Forall_forall. intros t Hin Heq.
      apply (Hfresh (draws w)); [lia|].
      unfold ids. rewrite <- Heq. apply list_elem_of_fmap. by exists t. }
    change (receive [?e] ?l) with (handleWebSocketMessage e l).
    rewrite !(handle_created task _ (uuid env (draws w)) _ Hid); [by rewrite Hb|done|].
    by rewrite Hb.
  - pose proof (update_outcome env id b w) as H.
    destruct (serve env (UpdateTask id b) w) as [resp w']. simpl in *.
    destruct H as [(Hc & _)|[(Hc & _)|[(Hc & _)|
      (i & old & new & Hf & _ & Hn & Ht & [(_ & _ & _ & Hs)|(Hc & _)])]]];
      try (rewrite Hc in Hok; discriminate).
    rewrite Hs, drop_app_length.
    destruct (findIndex_perm id board (tasks w) i old Hb Hndb Hf) as [j Hfb].
    assert (Hid : new !! "id" = Some (JStr id)).
    { rewrite Hn, update_record_lookup. simpl.
      apply findIndex_Some in Hf as [_ Hold]. by apply has_id_spec. }
    change (receive [?e] ?l) with (handleWebSocketMessage e l).
    rewrite (handle_replaced _ new _ id board j old), (handle_replaced _ new _ id (tasks w) i old);
      try done; try (by left).
    apply findIndex_Some in Hf as [Hi _]. apply findIndex_Some in Hfb as [Hj _].
    by apply (insert_perm _ _ _ _ old).
  - pose proof (delete_outcome env id w) as H.
    destruct (serve env (DeleteTask id) w) as [resp w']. simpl in *.
    destruct H as [(Hc & _)|(i & t & Hf & Ht & [(_ & _ & _ & Hs)|(Hc & _)])];
      try (rewrite Hc in Hok; discriminate).
    rewrite Hs, drop_app_length.
    destruct (findIndex_Some _ _ _ _ Hf) as [Hi Hid].
    pose proof (proj1 (has_id_spec _ _) Hid) as Hid'.
    assert (Hne : id <> "").
    { rewrite Forall_forall in Htext.
      destruct (text_id_spec t) as (s & Hs' & Hne).
      - apply Htext. by eapply list_elem_of_lookup_2.
      - congruence. }
    change (receive [?e] ?l) with (handleWebSocketMessage e l).
    rewrite !(handle_deleted t _ id _ Hid' Hne). by apply filter_perm.
  - pose proof (move_outcome env id b w) as H.
    destruct (serve env (MoveTask id b) w) as [resp w']. simpl in *.
    destruct H as [(Hc & _)|[(Hc & _)|
      (i & old & new & Hf & _ & Hn & Ht & [(_ & _ & _ & Hs)|(Hc & _)])]];
      try (rewrite Hc in Hok; discriminate).
    rewrite Hs, drop_app_length.
    destruct (findIndex_perm id board (tasks w) i old Hb Hndb Hf) as [j Hfb].
    assert (Hid : new !! "id" = Some (JStr id)).
    { rewrite Hn, move_record_lookup. simpl.
      apply findIndex_Some in Hf as [_ Hold]. by apply has_id_spec. }
    change (receive [?e] ?l) with (handleWebSocketMessage e l).
    rewrite (handle_replaced _ new _ id board j old), (handle_replaced _ new _ id (tasks w) i old);
      try done; try (by right).
    apply findIndex_Some in Hf as [Hi _]. apply findIndex_Some in Hfb as [Hj _].
    by apply (insert_perm _ _ _ _ old).
  - destruct (read_only_unchanged env GetStats w eq_refl) as (_ & _ & ->).
    by rewrite drop_all.
  - destruct (b !! "tasks") as [[| | | | elems |]|] eqn:Hbt;
      try (rewrite bulk_not_array in Hok by (intros elems; congruence); discriminate).
    pose proof (bulk_outcome env b elems w Hbt) as H. simpl in H.
    destruct (serve env (BulkCreate b) w) as [resp w']. simpl in *.
    destruct H as [Ht H].
    destruct (existsb throws elems).
    { destruct H as (Hc & _). rewrite Hc in Hok. discriminate. }
    destruct (_ && _).
    { destruct H as (Hc & _). rewrite Hc in Hok. discriminate. }
    rewrite (Hsw eq_refl Hok) in H. destruct H as (_ & _ & Hs).
    rewrite Hs, drop_app_length.
    assert (Hall : NoDup (ids (tasks w ++ bulk_created env (ticks w) (draws w) elems))).
    { eapply (distinct_ids_kept env (ids (tasks w)) (tasks w) _ (draws w)); try done.
      by rewrite ids_app, bulk_created_ids. }
    assert (Htxt : Forall (fun t => typeof_string (t !! "id") = true)
                     (bulk_created env (ticks w) (draws w) elems)).
    { apply Forall_forall. intros t Hin.
      apply list_elem_of_lookup in Hin as [j Hj].
      by destruct (bulk_created_own _ _ _ _ _ _ Hj) as (-> & _). }
    rewrite !receive_created; try done; [by rewrite Hb|].
    rewrite ids_app in *. by rewrite (ids_perm _ _ Hb).
  - destruct (decide (status = Some "done")) as [->|Hne].
    + rewrite (clear_done_run env w) in * by auto. simpl. rewrite drop_app_length.
      rewrite !(receive_deleted _ (fun j => toISOString (clock env (ticks w + j))))
        by (by apply Forall_filter_keeps).
      by apply filter_perm.
    + pose proof (clear_outcome env status w) as H.
      destruct (serve env (ClearDone status) w) as [resp w']. simpl in *.
      destruct H as [(Hc & _)|(? & _)]; [|done]. rewrite Hc in Hok. discriminate.
Qed.

(** X28. A client whose board holds the tasks of the store, in any order (it
    is filled from the listing, which is sorted), and which receives the
    messages broadcast for a request that succeeded, holds the tasks of
    the store again; when its board was the store in the same order, it
    still is.  This needs the stored ids to be distinct texts that are
    not empty, and the ids drawn by [uuidv4] to be new. *)
Theorem client_board_follows_store (env : Env) (r : request) (w : World)
    (board : list obj) :
  (forall n m, uuid env n = uuid env m -> n = m) ->
  Forall (fun t => text_id t = true) (tasks w) ->
  NoDup (ids (tasks w)) ->
  fresh_ids env w ->
  board ≡ₚ tasks w ->
  success (serve env r w).1 = true ->
  receive (broadcast_by env r w) board ≡ₚ tasks (serve env r w).2 /\
  (board = tasks w -> receive (broadcast_by env r w) board = tasks (serve env r w).2).
Proof.
  intros Hinj Htext Hnd Hfresh Hb Hok. split.
  - rewrite <- (board_follows_exactly env r w) by done.
    by apply receive_up_to_order.
  - intros ->. by apply board_follows_exactly.
Qed.

Lemma sample_world_text_ids : Forall (fun t => text_id t = true) (tasks sample_world).
Proof. repeat constructor. Qed.

Lemma client_board_follows_store_witness :
  receive (broadcast_by sample_env (ClearDone (Some "done")) sample_world)
    [sample_task "b" "done" 1; sample_task "a" "todo" 2; sample_task "c" "todo" 0]
  ≡ₚ tasks (serve sample_env (ClearDone (Some "done")) sample_world).2.
Proof.
  apply (client_board_follows_store sample_env (ClearDone (Some "done")) sample_world
           [sample_task "b" "done" 1; sample_task "a" "todo" 2; sample_task "c" "todo" 0]
           sample_uuid_inj sample_world_text_ids sample_world_distinct sample_world_fresh).
  - apply perm_swap.
  - reflexivity.
Defined.

